(** * Neurogaze: gaze-signal processing, calibration and feature aggregation

    A shallow embedding of the pure parts of [src/App.jsx] (calibration fit,
    blink state machine, frame counters, feature aggregation and CSV
    serialisation), followed by the properties checked against them.

    Conventions of the embedding
    - A finite JavaScript number is an exact rational ([Q]); equality of
      computed numbers is [Qeq] ([==]).  Integer-valued quantities that the code
      only counts or indexes with (array lengths, indices, counters) are [Z].
    - [NaN], the infinities, [null] and [undefined] only occur as cell values
      and are constructors of [jsval].
    - [Math.sqrt], [Math.hypot], [parseFloat] and [Number.prototype.toString]
      belong to the runtime; they are parameters of the aggregator and of the
      serialiser. *)

From Stdlib Require Import ZArith QArith Qround Qabs Lia Lqa List String Ascii.
From Stdlib Require Import Qcanon DecimalString DecimalPos DecimalZ.
From stdpp Require Import base list strings.
Import ListNotations.

Local Open Scope string_scope.
Local Open Scope Z_scope.

(** ** Numbers *)

Module Num.

(** [a < b] and [a > b] on numbers, as booleans. *)
Definition ltb (a b : Q) : bool := negb (Qle_bool b a).
Definition gtb (a b : Q) : bool := ltb b a.

(** [Math.min] / [Math.max]. *)
Definition min (a b : Q) : Q := if Qle_bool a b then a else b.
Definition max (a b : Q) : Q := if Qle_bool a b then b else a.

(** [x || fallback] for a number [x]: the fallback replaces a falsy [0]. *)
Definition or_else (x fallback : Q) : Q := if Qeq_bool x 0 then fallback else x.

(** [Math.pow(x, 2)]. *)
Definition pow2 (x : Q) : Q := (x * x)%Q.

(** [Number.isInteger]. *)
Definition isInteger (x : Q) : bool := Qeq_bool x (inject_Z (Qfloor x)).

(** [Number(x.toFixed(digits))]: the multiple of [10^-digits] nearest to [x];
    of two equally near multiples [toFixed] takes the one larger in magnitude. *)
Definition toFixedUnits (x : Q) (digits : Z) : Z :=
  let scaled := Qfloor (Qabs x * inject_Z (10 ^ digits) + (1 # 2))%Q in
  if Qle_bool 0 x then scaled else - scaled.

Definition toFixed (x : Q) (digits : Z) : Q :=
  (inject_Z (toFixedUnits x digits) / inject_Z (10 ^ digits))%Q.

End Num.

(** ** Calibration fit *)

Record CalibrationModel := {
  scaleX : Q;
  offsetX : Q;
  scaleY : Q;
  offsetY : Q;
}.

Record Point2D := { px : Q; py : Q }.

Record CalibrationPair := { measured : Point2D; target : Point2D }.

Definition clamp (value lo hi : Q) : Q := Num.min (Num.max value lo) hi.

Definition defaultCalibrationModel : CalibrationModel :=
  {| scaleX := 1; offsetX := 0; scaleY := 1; offsetY := 0 |}.

(** [values.reduce((acc, value) => acc + value, 0)]. *)
Definition sum (values : list Q) : Q := fold_left Qplus values 0%Q.

Definition lengthZ {A} (l : list A) : Z := Z.of_nat (length l).

(** [values.length || 1]. *)
Definition lengthOr1 {A} (l : list A) : Z :=
  if lengthZ l =? 0 then 1 else lengthZ l.

Definition mean (values : list Q) : Q :=
  (sum values / inject_Z (lengthOr1 values))%Q.

Record AxisMapping := { scale : Q; offset : Q }.

(** [array.reduce((acc, value, index) => ..., init)]. *)
Fixpoint reduceIndexed {A} (f : Q -> A -> nat -> Q) (l : list A)
    (index : nat) (acc : Q) : Q :=
  match l with
  | [] => acc
  | value :: rest => reduceIndexed f rest (S index) (f acc value index)
  end.

(** The accumulated squared deviations that [computeAxisMapping] stores in its
    local [variance], and the accumulated cross deviations of its
    [covariance]; neither is divided by the number of values.
    [targetValues[index]] is read with default [0]: the only caller,
    [computeLinearMapping], passes two lists of one length, so the index is
    always in range. *)
Definition squaredDeviations (measuredValues : list Q) (meanMeasured : Q) : Q :=
  fold_left
    (fun acc value => (acc + (value - meanMeasured) * (value - meanMeasured))%Q)
    measuredValues 0%Q.

Definition crossDeviations (measuredValues targetValues : list Q)
    (meanMeasured meanTarget : Q) : Q :=
  reduceIndexed
    (fun acc value index =>
       (acc + (value - meanMeasured) * (nth index targetValues 0%Q - meanTarget))%Q)
    measuredValues 0%nat 0%Q.

Definition computeAxisMapping (measuredValues targetValues : list Q) : AxisMapping :=
  let meanMeasured := mean measuredValues in
  let meanTarget := mean targetValues in
  let variance := Num.or_else (squaredDeviations measuredValues meanMeasured) 0 in
  if Num.ltb variance (1 # 1000000) then
    {| scale := 1; offset := (meanTarget - meanMeasured)%Q |}
  else
    let covariance :=
      crossDeviations measuredValues targetValues meanMeasured meanTarget in
    let scale := (covariance / variance)%Q in
    let offset := (meanTarget - scale * meanMeasured)%Q in
    {| scale := scale; offset := offset |}.

Definition computeLinearMapping (pairs : list CalibrationPair) : CalibrationModel :=
  if lengthZ pairs =? 0 then defaultCalibrationModel
  else
    let measuredX := map (fun pair => px (measured pair)) pairs in
    let targetX := map (fun pair => px (target pair)) pairs in
    let measuredY := map (fun pair => py (measured pair)) pairs in
    let targetY := map (fun pair => py (target pair)) pairs in
    let mapX := computeAxisMapping measuredX targetX in
    let mapY := computeAxisMapping measuredY targetY in
    {| scaleX := scale mapX; offsetX := offset mapX;
       scaleY := scale mapY; offsetY := offset mapY |}.

(** A missing point or model is [None]. *)
Definition applyCalibration (model : option CalibrationModel)
    (point : option Point2D) : option Point2D :=
  match point, model with
  | Some p, Some m =>
      Some {| px := clamp (scaleX m * px p + offsetX m) 0 1;
              py := clamp (scaleY m * py p + offsetY m) 0 1 |}
  | _, _ => point
  end.

(** The five calibration targets, in presentation order. *)
Definition calibrationPoints : list Point2D :=
  [ {| px := 5 # 10; py := 5 # 10 |};
    {| px := 2 # 10; py := 2 # 10 |};
    {| px := 8 # 10; py := 2 # 10 |};
    {| px := 2 # 10; py := 8 # 10 |};
    {| px := 8 # 10; py := 8 # 10 |} ].

(** ** Blink state machine and frame counters ([onResults]) *)

Inductive BlinkState := open | closed.

Definition BLINK_THRESHOLD : Q := 18 # 100.
Definition blinkOpenThreshold : Q := 24 # 100.
Definition FIXATION_VELOCITY_THRESHOLD : Q := 15 # 1000.

(** The fields of [metricsInternalRef.current] that the blink detector and the
    tracking ratio use. *)
Record Internal := {
  blinkState : BlinkState;
  blinkTimestamps : list Z;
  blinkCount : Z;
  samplesTotal : Z;
  samplesValid : Z;
}.

Definition initialInternal : Internal :=
  {| blinkState := open; blinkTimestamps := []; blinkCount := 0;
     samplesTotal := 0; samplesValid := 0 |}.

(** What one call of [onResults] sees: nothing to process (tracker inactive or
    no image), an image without a face, or a face with the openness of both
    eyes and the wall clock [Date.now()]. *)
Inductive Frame :=
| Skipped
| NoFace
| Face (leftOpenness rightOpenness : Q) (dateNow : Z).

Definition blinkStep (averageOpenness : Q) (dateNow : Z) (internal : Internal)
    : Internal :=
  let internal1 :=
    match Num.ltb averageOpenness BLINK_THRESHOLD, blinkState internal with
    | true, open =>
        {| blinkState := closed;
           blinkTimestamps := blinkTimestamps internal ++ [dateNow];
           blinkCount := blinkCount internal + 1;
           samplesTotal := samplesTotal internal;
           samplesValid := samplesValid internal |}
    | _, _ =>
        match Num.gtb averageOpenness blinkOpenThreshold, blinkState internal with
        | true, closed =>
            {| blinkState := open;
               blinkTimestamps := blinkTimestamps internal;
               blinkCount := blinkCount internal;
               samplesTotal := samplesTotal internal;
               samplesValid := samplesValid internal |}
        | _, _ => internal
        end
    end in
  {| blinkState := blinkState internal1;
     blinkTimestamps :=
       filter (fun timestamp => dateNow - timestamp <= 60000)
              (blinkTimestamps internal1);
     blinkCount := blinkCount internal1;
     samplesTotal := samplesTotal internal1;
     samplesValid := samplesValid internal1 |}.

Definition countFrame (valid : bool) (internal : Internal) : Internal :=
  {| blinkState := blinkState internal;
     blinkTimestamps := blinkTimestamps internal;
     blinkCount := blinkCount internal;
     samplesTotal := samplesTotal internal + 1;
     samplesValid := if valid then samplesValid internal + 1
                     else samplesValid internal |}.

Definition onResults (frame : Frame) (internal : Internal) : Internal :=
  match frame with
  | Skipped => internal
  | NoFace => countFrame false internal
  | Face leftOpenness rightOpenness dateNow =>
      let averageOpenness := ((leftOpenness + rightOpenness) / 2)%Q in
      blinkStep averageOpenness dateNow (countFrame true internal)
  end.

Definition processFrames (frames : list Frame) (internal : Internal) : Internal :=
  fold_left (fun state frame => onResults frame state) frames internal.

(** The tracking ratio that a sampling tick publishes. *)
Definition trackingRatioOf (valid total : Z) : Q :=
  if 0 <? total then
    Num.toFixed (inject_Z valid / inject_Z total * 100)%Q 2
  else 0%Q.

Definition publishedTrackingRatio (internal : Internal) : Q :=
  trackingRatioOf (samplesValid internal) (samplesTotal internal).

(** ** Samples and summary statistics *)

Inductive Category := Blink | Fixation | Saccade.

Global Instance Category_eq_dec : EqDecision Category.
Proof. solve_decision. Defined.

Definition classifyMovement (velocity openness blinkThreshold fixationThreshold : Q)
    : Category :=
  if Num.ltb openness blinkThreshold then Blink
  else if Num.ltb velocity fixationThreshold then Fixation
  else Saccade.

(** One entry of [assessmentRef.current.samples]; every numeric field is a
    finite number when the sample is pushed. *)
Record GazeSample := {
  recordingTimeMs : Q;
  timestampIso : string;
  categoryRight : Category;
  categoryLeft : Category;
  pupilDiameterRightMm : Q;
  pupilDiameterLeftMm : Q;
  pointOfRegardRightX : Q;
  pointOfRegardRightY : Q;
  pointOfRegardLeftX : Q;
  pointOfRegardLeftY : Q;
  trackingRatio : Q;
}.

Record Stats := {
  stat_mean : Q;
  stat_std : Q;
  stat_min : Q;
  stat_max : Q;
  stat_q1 : Q;
  stat_q3 : Q;
  stat_median : Q;
}.

Definition zeroStats : Stats :=
  {| stat_mean := 0; stat_std := 0; stat_min := 0; stat_max := 0;
     stat_q1 := 0; stat_q3 := 0; stat_median := 0 |}.

(** [[...values].sort((a, b) => a - b)]. *)
Fixpoint insertSorted (x : Q) (sorted : list Q) : list Q :=
  match sorted with
  | [] => [x]
  | y :: rest => if Num.ltb x y then x :: sorted else y :: insertSorted x rest
  end.

Definition sortNumbers (values : list Q) : list Q :=
  fold_left (fun sorted x => insertSorted x sorted) values [].

(** [array[index]] where the index is known to be in range. *)
Definition at_index (values : list Q) (index : Z) : Q :=
  nth (Z.to_nat index) values 0%Q.

(** [Math.min(...values)] and [Math.max(...values)] of a list with a head. *)
Definition minOf (first : Q) (rest : list Q) : Q := fold_left Num.min rest first.
Definition maxOf (first : Q) (rest : list Q) : Q := fold_left Num.max rest first.

Section Aggregator.

(** [Math.sqrt], [Math.hypot] and [parseFloat] ([None] is [NaN]). *)
Variable sqrt : Q -> Q.
Variable hypot : Q -> Q -> Q.
Variable parseFloat : string -> option Q.

(** Every value is a finite number here, so the validity filter
    ([v != null && !Number.isNaN(v) && Number.isFinite(v)]) keeps all of them. *)
Definition computeStats (values : list Q) : Stats :=
  if lengthZ values =? 0 then zeroStats
  else
    let validValues := values in
    if lengthZ validValues =? 0 then zeroStats
    else
      let sorted := sortNumbers validValues in
      let n := inject_Z (lengthZ sorted) in
      let mean := (sum sorted / n)%Q in
      let variance :=
        (fold_left (fun acc val => acc + Num.pow2 (val - mean)) sorted 0 / n)%Q in
      {| stat_mean := mean;
         stat_std := sqrt variance;
         stat_min := at_index sorted 0;
         stat_max := at_index sorted (lengthZ sorted - 1);
         stat_q1 := at_index sorted (Qfloor (n * (25 # 100)));
         stat_q3 := at_index sorted (Qfloor (n * (75 # 100)));
         stat_median := at_index sorted (Qfloor (n * (5 # 10))) |}.

(** The arrays filled by the loop over consecutive samples. *)
Record PairArrays := {
  gazeVelocitiesRight : list Q;
  gazeVelocitiesLeft : list Q;
  gazeHorizontalRight : list Q;
  gazeVerticalRight : list Q;
  gazeHorizontalLeft : list Q;
  gazeVerticalLeft : list Q;
  fixDurations : list Q;
  saccadeAmplitudes : list Q;
  saccadePeakVelocities : list Q;
}.

Definition emptyPairArrays : PairArrays :=
  {| gazeVelocitiesRight := []; gazeVelocitiesLeft := [];
     gazeHorizontalRight := []; gazeVerticalRight := [];
     gazeHorizontalLeft := []; gazeVerticalLeft := [];
     fixDurations := []; saccadeAmplitudes := []; saccadePeakVelocities := [] |}.

Definition push (values : list Q) (x : Q) : list Q := values ++ [x].

(** The body of [for (let i = 1; i < samples.length; i++)] at
    [prev = samples[i - 1]], [curr = samples[i]]. *)
Definition pairBody (prev curr : GazeSample) (arrays : PairArrays) : PairArrays :=
  let dt := ((recordingTimeMs curr - recordingTimeMs prev) / 1000)%Q in
  if Num.gtb dt 0 then
    let dxRight := (pointOfRegardRightX curr - pointOfRegardRightX prev)%Q in
    let dyRight := (pointOfRegardRightY curr - pointOfRegardRightY prev)%Q in
    let velocityRight := (hypot dxRight dyRight / dt)%Q in
    let dxLeft := (pointOfRegardLeftX curr - pointOfRegardLeftX prev)%Q in
    let dyLeft := (pointOfRegardLeftY curr - pointOfRegardLeftY prev)%Q in
    let velocityLeft := (hypot dxLeft dyLeft / dt)%Q in
    let isSaccade :=
      bool_decide (categoryRight curr = Saccade)
      || bool_decide (categoryLeft curr = Saccade) in
    let isFixationRun :=
      bool_decide (categoryRight curr = Fixation)
      && bool_decide (categoryRight prev = Fixation) in
    {| gazeVelocitiesRight := push (gazeVelocitiesRight arrays) velocityRight;
       gazeHorizontalRight := push (gazeHorizontalRight arrays) (dxRight / dt);
       gazeVerticalRight := push (gazeVerticalRight arrays) (dyRight / dt);
       gazeVelocitiesLeft := push (gazeVelocitiesLeft arrays) velocityLeft;
       gazeHorizontalLeft := push (gazeHorizontalLeft arrays) (dxLeft / dt);
       gazeVerticalLeft := push (gazeVerticalLeft arrays) (dyLeft / dt);
       saccadeAmplitudes :=
         if isSaccade then
           push (saccadeAmplitudes arrays)
                (hypot (dxRight + dxLeft) (dyRight + dyLeft) / 2)
         else saccadeAmplitudes arrays;
       saccadePeakVelocities :=
         if isSaccade then
           push (saccadePeakVelocities arrays) (Num.max velocityRight velocityLeft)
         else saccadePeakVelocities arrays;
       fixDurations :=
         if isFixationRun then push (fixDurations arrays) dt
         else fixDurations arrays |}
  else arrays.

Fixpoint pairLoopFrom (prev : GazeSample) (rest : list GazeSample)
    (arrays : PairArrays) : PairArrays :=
  match rest with
  | [] => arrays
  | curr :: rest' => pairLoopFrom curr rest' (pairBody prev curr arrays)
  end.

Definition pairLoop (samples : list GazeSample) : PairArrays :=
  match samples with
  | [] => emptyPairArrays
  | first :: rest => pairLoopFrom first rest emptyPairArrays
  end.

(** The three per-segment counters. *)
Record SegmentCounts := {
  blinkCounts : list Z;
  fixCounts : list Z;
  sacCounts : list Z;
}.

Definition zeroCounts : SegmentCounts :=
  {| blinkCounts := [0; 0; 0; 0]; fixCounts := [0; 0; 0; 0];
     sacCounts := [0; 0; 0; 0] |}.

(** [Math.ceil(samples.length / 4)]. *)
Definition segmentSizeOf (sampleCount : Z) : Z :=
  Qceiling (inject_Z sampleCount / 4)%Q.

(** [Math.min(3, Math.floor(idx / segmentSize))]. *)
Definition segmentOf (idx segmentSize : Z) : Z :=
  Z.min 3 (Qfloor (inject_Z idx / inject_Z segmentSize)%Q).

Definition eitherEye (category : Category) (sample : GazeSample) : bool :=
  bool_decide (categoryRight sample = category)
  || bool_decide (categoryLeft sample = category).

(** [counts[segment]++]. *)
Definition increment (segment : Z) (counts : list Z) : list Z :=
  alter Z.succ (Z.to_nat segment) counts.

Definition countBody (segmentSize : Z) (sample : GazeSample) (idx : Z)
    (counts : SegmentCounts) : SegmentCounts :=
  let segment := segmentOf idx segmentSize in
  {| blinkCounts :=
       if eitherEye Blink sample then increment segment (blinkCounts counts)
       else blinkCounts counts;
     fixCounts :=
       if eitherEye Fixation sample then increment segment (fixCounts counts)
       else fixCounts counts;
     sacCounts :=
       if eitherEye Saccade sample then increment segment (sacCounts counts)
       else sacCounts counts |}.

(** [samples.forEach((sample, idx) => ...)], from index [idx] on. *)
Fixpoint countLoopFrom (segmentSize : Z) (samples : list GazeSample) (idx : Z)
    (counts : SegmentCounts) : SegmentCounts :=
  match samples with
  | [] => counts
  | sample :: rest =>
      countLoopFrom segmentSize rest (idx + 1)
                    (countBody segmentSize sample idx counts)
  end.

Definition countSegments (samples : list GazeSample) : SegmentCounts :=
  countLoopFrom (segmentSizeOf (lengthZ samples)) samples 0 zeroCounts.

(** [counts.reduce((a, b) => a + b, 0)]. *)
Definition sumCounts (counts : list Z) : Z := fold_left Z.add counts 0.

(** [counts[k]] as a number; a missing slot would read [undefined]. *)
Definition countAt (counts : list Z) (k : nat) : Z := nth k counts 0.

(** ** The feature object and its serialisation *)

(** The values a cell of the feature object can hold. *)
Inductive jsval :=
| JUndefined
| JNull
| JNaN
| JInfinity (negative : bool)
| JNum (value : Q)
| JStr (text : string).

(** An object literal: its properties in insertion order. *)
Definition JsObject := list (string * jsval).

(** [object[key]]. *)
Fixpoint getProperty (object : JsObject) (key : string) : jsval :=
  match object with
  | [] => JUndefined
  | (name, value) :: rest =>
      if String.eqb name key then value else getProperty rest key
  end.

Definition num (x : Q) : jsval := JNum x.
Definition int (z : Z) : jsval := JNum (inject_Z z).

(** [gender === 'M' ? 1 : (gender === 'F' ? 0 : 0.5)]; a missing gender is
    [None]. *)
Definition genderEncodedOf (gender : option string) : Q :=
  if bool_decide (gender = Some "M") then 1
  else if bool_decide (gender = Some "F") then 0
  else 1 # 2.

(** [gender || 'Unknown']. *)
Definition genderOrUnknown (gender : option string) : string :=
  match gender with
  | Some g => if String.eqb g "" then "Unknown" else g
  | None => "Unknown"
  end.

(** [parseFloat(age) || 0]. *)
Definition ageOrZero (age : string) : Q :=
  match parseFloat age with
  | Some a => Num.or_else a 0
  | None => 0%Q
  end.

(** [values.length > 0 ? sum / values.length : 0]. *)
Definition averageOrZero (values : list Q) : Q :=
  if 0 <? lengthZ values then (sum values / inject_Z (lengthZ values))%Q else 0%Q.

(** The null filters on the extracted columns keep every value, since each
    field of a pushed sample is a number; the pupil columns also drop values
    that are not positive. *)
Definition computeAggregatedFeatures (samples : list GazeSample) (age : string)
    (gender : option string) : option JsObject :=
  if lengthZ samples =? 0 then None
  else
    let trackingRatios := map trackingRatio samples in
    let pupilRight :=
      List.filter (fun v => Num.gtb v 0) (map pupilDiameterRightMm samples) in
    let pupilLeft :=
      List.filter (fun v => Num.gtb v 0) (map pupilDiameterLeftMm samples) in
    let porRightX := map pointOfRegardRightX samples in
    let porRightY := map pointOfRegardRightY samples in
    let porLeftX := map pointOfRegardLeftX samples in
    let porLeftY := map pointOfRegardLeftY samples in
    let recordingTimes := map recordingTimeMs samples in
    let arrays := pairLoop samples in
    let counts := countSegments samples in
    let trackingStats := computeStats trackingRatios in
    let pupilRightStats := computeStats pupilRight in
    let pupilLeftStats := computeStats pupilLeft in
    let porRightXStats := computeStats porRightX in
    let porRightYStats := computeStats porRightY in
    let porLeftXStats := computeStats porLeftX in
    let porLeftYStats := computeStats porLeftY in
    let recordingCount := lengthZ recordingTimes in
    let recordingMin :=
      match recordingTimes with [] => 0%Q | t :: ts => minOf t ts end in
    let recordingMax :=
      match recordingTimes with [] => 0%Q | t :: ts => maxOf t ts end in
    let gazeHorizontalRightStats := computeStats (gazeHorizontalRight arrays) in
    let gazeVerticalRightStats := computeStats (gazeVerticalRight arrays) in
    let gazeVelocityRightStats := computeStats (gazeVelocitiesRight arrays) in
    let gazeHorizontalLeftStats := computeStats (gazeHorizontalLeft arrays) in
    let gazeVerticalLeftStats := computeStats (gazeVerticalLeft arrays) in
    let gazeVelocityLeftStats := computeStats (gazeVelocitiesLeft arrays) in
    let gazeHorizontalMean :=
      ((stat_mean gazeHorizontalRightStats + stat_mean gazeHorizontalLeftStats) / 2)%Q in
    let gazeHorizontalStd :=
      sqrt ((Num.pow2 (stat_std gazeHorizontalRightStats)
             + Num.pow2 (stat_std gazeHorizontalLeftStats)) / 2)%Q in
    let gazeVerticalMean :=
      ((stat_mean gazeVerticalRightStats + stat_mean gazeVerticalLeftStats) / 2)%Q in
    let gazeVerticalStd :=
      sqrt ((Num.pow2 (stat_std gazeVerticalRightStats)
             + Num.pow2 (stat_std gazeVerticalLeftStats)) / 2)%Q in
    let trialDurationMs := (recordingMax - recordingMin)%Q in
    let trialDurationSec :=
      if Num.gtb trialDurationMs 0 then (trialDurationMs / 1000)%Q else 1%Q in
    let perSecond (amount : Z) : Q :=
      if Num.gtb trialDurationSec 0 then (inject_Z amount / trialDurationSec)%Q
      else 0%Q in
    let samplingRate := perSecond (lengthZ samples) in
    let blinkRate := perSecond (sumCounts (blinkCounts counts)) in
    let fixationRate := perSecond (sumCounts (fixCounts counts)) in
    let saccadeRate := perSecond (sumCounts (sacCounts counts)) in
    let fixDurAvg := averageOrZero (fixDurations arrays) in
    let sacAmpAvg := averageOrZero (saccadeAmplitudes arrays) in
    let sacPeakVelAvg := averageOrZero (saccadePeakVelocities arrays) in
    let rightRange := (stat_max porRightXStats - stat_min porRightXStats)%Q in
    let leftRange := (stat_max porLeftXStats - stat_min porLeftXStats)%Q in
    let genderEncoded := genderEncodedOf gender in
    Some
      [ ("Tracking_F_1", num (stat_mean trackingStats));
        ("Tracking_F_2", num (stat_std trackingStats));
        ("Tracking_F_3", num (stat_min trackingStats));
        ("Tracking_F_4", num (stat_max trackingStats));
        ("Pupil_Diam_1", num (stat_mean pupilRightStats));
        ("Pupil_Diam_2", num (stat_std pupilRightStats));
        ("Pupil_Diam_3", num (stat_min pupilRightStats));
        ("Pupil_Diam_4", num (stat_max pupilRightStats));
        ("Pupil_Diam_5", num (stat_q1 pupilRightStats));
        ("Pupil_Diam_6", num (stat_q3 pupilRightStats));
        ("Pupil_Diam_7", num (stat_mean pupilLeftStats));
        ("Pupil_Diam_8", num (stat_std pupilLeftStats));
        ("Pupil_Diam_9", num (stat_min pupilLeftStats));
        ("Pupil_Diam_10", num (stat_max pupilLeftStats));
        ("Pupil_Diam_11", num (stat_q1 pupilLeftStats));
        ("Pupil_Diam_12", num (stat_q3 pupilLeftStats));
        ("GazePoint_of_I_1", num (stat_mean porRightXStats));
        ("GazePoint_of_I_2", num (stat_std porRightXStats));
        ("GazePoint_of_I_3", num (stat_min porRightXStats));
        ("GazePoint_of_I_4", num (stat_max porRightXStats));
        ("GazePoint_of_I_5", num (stat_mean porRightYStats));
        ("GazePoint_of_I_6", num (stat_std porRightYStats));
        ("GazePoint_of_I_7", num (stat_min porRightYStats));
        ("GazePoint_of_I_8", num (stat_max porRightYStats));
        ("GazePoint_of_I_9", num (stat_mean porLeftXStats));
        ("GazePoint_of_I_10", num (stat_std porLeftXStats));
        ("GazePoint_of_I_11", num (stat_min porLeftXStats));
        ("GazePoint_of_I_12", num (stat_max porLeftXStats));
        ("Recording_1", int recordingCount);
        ("Recording_2", num recordingMin);
        ("Recording_3", num recordingMax);
        ("gaze_hori_1", num (stat_mean gazeHorizontalRightStats));
        ("gaze_hori_2", num (stat_std gazeHorizontalRightStats));
        ("gaze_hori_3", num (stat_mean gazeHorizontalLeftStats));
        ("gaze_hori_4", num (stat_std gazeHorizontalLeftStats));
        ("gaze_vert_1", num (stat_mean gazeVerticalRightStats));
        ("gaze_vert_2", num (stat_std gazeVerticalRightStats));
        ("gaze_vert_3", num (stat_mean gazeVerticalLeftStats));
        ("gaze_vert_4", num (stat_std gazeVerticalLeftStats));
        ("gaze_velo_1", num (stat_mean gazeVelocityRightStats));
        ("gaze_velo_2", num (stat_max gazeVelocityRightStats));
        ("gaze_velo_3", num (stat_mean gazeVelocityLeftStats));
        ("gaze_velo_4", num (stat_max gazeVelocityLeftStats));
        ("blink_count_1", int (countAt (blinkCounts counts) 0));
        ("blink_count_2", int (countAt (blinkCounts counts) 1));
        ("blink_count_3", int (countAt (blinkCounts counts) 2));
        ("blink_count_4", int (countAt (blinkCounts counts) 3));
        ("fix_count_1", int (countAt (fixCounts counts) 0));
        ("fix_count_2", int (countAt (fixCounts counts) 1));
        ("fix_count_3", int (countAt (fixCounts counts) 2));
        ("fix_count_4", int (countAt (fixCounts counts) 3));
        ("sac_count_1", int (countAt (sacCounts counts) 0));
        ("sac_count_2", int (countAt (sacCounts counts) 1));
        ("sac_count_3", int (countAt (sacCounts counts) 2));
        ("sac_count_4", int (countAt (sacCounts counts) 3));
        ("Source_File", JStr "web-app");
        ("level_2", JStr "GazePoint_of_I");
        ("trial_dur_1", num trialDurationMs);
        ("trial_dur_2", num trialDurationSec);
        ("sampling_rate_1", num samplingRate);
        ("blink_rate_1", num blinkRate);
        ("fixation_rate_1", num fixationRate);
        ("saccade_rate_1", num saccadeRate);
        ("fix_dur_avg_1", num fixDurAvg);
        ("sac_amp_avg_1", num sacAmpAvg);
        ("sac_peak_vel_avg_1", num sacPeakVelAvg);
        ("right_eye_c_1", num (stat_mean porRightXStats));
        ("right_eye_c_2", num (stat_std porRightXStats));
        ("right_eye_c_3", num rightRange);
        ("left_eye_c_1", num (stat_mean porLeftXStats));
        ("left_eye_c_2", num (stat_std porLeftXStats));
        ("left_eye_c_3", num leftRange);
        ("avg_eye_c_1",
          num ((stat_mean porRightXStats + stat_mean porLeftXStats) / 2));
        ("avg_eye_c_2",
          num ((stat_std porRightXStats + stat_std porLeftXStats) / 2));
        ("avg_eye_c_3", num ((rightRange + leftRange) / 2));
        ("pupil_diam_avg_1",
          num ((stat_mean pupilRightStats + stat_mean pupilLeftStats) / 2));
        ("gaze_hori_avg_1", num gazeHorizontalMean);
        ("gaze_vert_avg_1", num gazeVerticalMean);
        ("Participant", int 0);
        ("Gender", JStr (genderOrUnknown gender));
        ("Age", num (ageOrZero age));
        ("Class", JStr "Unknown");
        ("CARS_Score_is_ASD", int 0);
        ("Gender_encoded", num genderEncoded) ].

End Aggregator.

(** Column order of the serialised record. *)
Definition AGGREGATED_CSV_HEADERS : list string :=
  [ "Tracking_F_1"; "Tracking_F_2"; "Tracking_F_3"; "Tracking_F_4";
    "Pupil_Diam_1"; "Pupil_Diam_2"; "Pupil_Diam_3"; "Pupil_Diam_4";
    "Pupil_Diam_5"; "Pupil_Diam_6";
    "Pupil_Diam_7"; "Pupil_Diam_8"; "Pupil_Diam_9"; "Pupil_Diam_10";
    "Pupil_Diam_11"; "Pupil_Diam_12";
    "GazePoint_of_I_1"; "GazePoint_of_I_2"; "GazePoint_of_I_3";
    "GazePoint_of_I_4"; "GazePoint_of_I_5"; "GazePoint_of_I_6";
    "GazePoint_of_I_7"; "GazePoint_of_I_8"; "GazePoint_of_I_9";
    "GazePoint_of_I_10"; "GazePoint_of_I_11"; "GazePoint_of_I_12";
    "Recording_1"; "Recording_2"; "Recording_3";
    "gaze_hori_1"; "gaze_hori_2"; "gaze_hori_3"; "gaze_hori_4";
    "gaze_vert_1"; "gaze_vert_2"; "gaze_vert_3"; "gaze_vert_4";
    "gaze_velo_1"; "gaze_velo_2"; "gaze_velo_3"; "gaze_velo_4";
    "blink_count_1"; "blink_count_2"; "blink_count_3"; "blink_count_4";
    "fix_count_1"; "fix_count_2"; "fix_count_3"; "fix_count_4";
    "sac_count_1"; "sac_count_2"; "sac_count_3"; "sac_count_4";
    "Source_File"; "level_2";
    "trial_dur_1"; "trial_dur_2";
    "sampling_rate_1";
    "blink_rate_1"; "fixation_rate_1"; "saccade_rate_1";
    "fix_dur_avg_1"; "sac_amp_avg_1"; "sac_peak_vel_avg_1";
    "right_eye_c_1"; "right_eye_c_2"; "right_eye_c_3";
    "left_eye_c_1"; "left_eye_c_2"; "left_eye_c_3";
    "avg_eye_c_1"; "avg_eye_c_2"; "avg_eye_c_3";
    "pupil_diam_avg_1"; "gaze_hori_avg_1"; "gaze_vert_avg_1";
    "Participant"; "Gender"; "Age"; "Class"; "CARS_Score_is_ASD";
    "Gender_encoded" ].

Definition doubleQuote : ascii := Eval cbv in ascii_of_nat 34.
Definition newline : ascii := Eval cbv in ascii_of_nat 10.

(** [str.replace] of every double-quote character (a global pattern) by two
    of them. *)
Fixpoint replaceQuotes (str : string) : string :=
  match str with
  | EmptyString => EmptyString
  | String c rest =>
      if Ascii.eqb c doubleQuote
      then String doubleQuote (String doubleQuote (replaceQuotes rest))
      else String c (replaceQuotes rest)
  end.

(** [array.join(separator)]. *)
Definition join (separator : string) (parts : list string) : string :=
  String.concat separator parts.

(** [Number.prototype.toString] belongs to the runtime: [toString q] is the
    string that the language gives for the number [q] (for [Number(text)], the
    number nearest to the decimal [q] that [text] denotes). *)
Section Serializer.

Variable toString : Q -> string.

Definition formatCsvCell (value : jsval) : string :=
  match value with
  | JNull | JUndefined | JNaN => ""
  | JInfinity _ => ""
  | JNum x =>
      if Num.isInteger x then toString x
      else toString (Num.toFixed x 3)
  | JStr text =>
      String doubleQuote (replaceQuotes text ++ String doubleQuote EmptyString)
  end.

(** The cells of the data row, before they are joined. *)
Definition csvRow (aggregatedFeatures : JsObject) : list string :=
  map (fun header => formatCsvCell (getProperty aggregatedFeatures header))
      AGGREGATED_CSV_HEADERS.

End Serializer.

Inductive AssessmentStatus := idle | running | complete.

Record AssessmentRef := {
  status : AssessmentStatus;
  samples : list GazeSample;
}.

(** What [finalizeAssessment] shows to the outside: nothing, the error message
    passed to [setError], or the text of the CSV blob together with the
    published sample count. *)
Inductive FinalizeEffect :=
| NoEffect
| SetError (message : string)
| CsvBlob (content : string) (samplesCaptured : Z).

Section Finalize.

Variable sqrt : Q -> Q.
Variable hypot : Q -> Q -> Q.
Variable parseFloat : string -> option Q.
Variable toString : Q -> string.

Definition finalizeAssessment (ref : AssessmentRef) (age : string)
    (gender : option string) : AssessmentRef * FinalizeEffect :=
  match status ref with
  | running =>
      let ref' := {| status := complete; samples := samples ref |} in
      match computeAggregatedFeatures sqrt hypot parseFloat (samples ref) age gender with
      | None => (ref', SetError "Unable to compute features from samples.")
      | Some aggregatedFeatures =>
          let csvLines :=
            [ join "," AGGREGATED_CSV_HEADERS;
              join "," (csvRow toString aggregatedFeatures) ] in
          (ref', CsvBlob (join (String newline EmptyString) csvLines)
                         (lengthZ (samples ref)))
      end
  | _ => (ref, NoEffect)
  end.

End Finalize.

(** ** A concrete runtime for evaluating the model on examples

    Square roots rounded down to six decimals, [parseFloat] on plain decimal
    integers, and [toString] as the plain decimal numeral (sign, integer part,
    fraction digits when there are any), which is what the language prints for
    a number of at most 15 significant digits and of magnitude between
    [10^-6] and [10^21], and for 0.  The examples stay inside these ranges. *)
Module Runtime.

Definition sqrt (x : Q) : Q :=
  if Qle_bool x 0 then 0%Q
  else (inject_Z (Z.sqrt (Qfloor (x * inject_Z (10 ^ 12)))) / inject_Z (10 ^ 6))%Q.

Definition hypot (a b : Q) : Q := sqrt (a * a + b * b).

Definition parseFloat (text : string) : option Q :=
  match NilZero.int_of_string text with
  | Some d => Some (inject_Z (Z.of_int d))
  | None => None
  end.

Definition digitChar (d : Z) : ascii := ascii_of_nat (48 + Z.to_nat d).

Fixpoint fractionDigits (fuel : nat) (r d : Z) : string :=
  match fuel with
  | O => EmptyString
  | S fuel' =>
      if r =? 0 then EmptyString
      else String (digitChar (r * 10 / d)) (fractionDigits fuel' (r * 10 mod d) d)
  end.

Definition integerString (z : Z) : string := NilZero.string_of_int (Z.to_int z).

Definition toString (x : Q) : string :=
  let n := Qnum (Qred x) in
  let d := Zpos (Qden (Qred x)) in
  let whole := Z.abs n / d in
  let rest := Z.abs n mod d in
  let sign := if n <? 0 then "-" else "" in
  let frac := if rest =? 0 then "" else "." ++ fractionDigits 21 rest d in
  sign ++ integerString whole ++ frac.

End Runtime.
(** ** Landmark geometry *)

(** One face-mesh landmark; its depth may be missing ([point.z ?? 0]). *)
Record Landmark := { lmx : Q; lmy : Q; lmz : option Q }.

Record Point3D := { x3 : Q; y3 : Q; z3 : Q }.

Definition leftIrisIndices : list nat := [468; 469; 470; 471]%nat.
Definition rightIrisIndices : list nat := [473; 474; 475; 476]%nat.
Definition leftEyeTopIndices : list nat := [159; 160]%nat.
Definition leftEyeBottomIndices : list nat := [145; 144]%nat.
Definition leftEyeInnerCorner : nat := 133.
Definition leftEyeOuterCorner : nat := 33.
Definition rightEyeTopIndices : list nat := [386; 387]%nat.
Definition rightEyeBottomIndices : list nat := [374; 380]%nat.
Definition rightEyeInnerCorner : nat := 362.
Definition rightEyeOuterCorner : nat := 263.

Definition AVERAGE_EYE_WIDTH_MM : Q := 30.
Definition FRAMES_PER_CAL_POINT : Z := 45.
Definition ASSESSMENT_DURATION_MS : Q := 30000.
Definition IMAGE_DISPLAY_DURATION_MS : Q := 10000.

(** Number of entries of [ASSESSMENT_IMAGES]. *)
Definition ASSESSMENT_IMAGES_length : Z := 3.

(** [indices.map((index) => landmarks[index]).filter((point) => point)]: an
    index past the end of the landmark array reads [undefined] and is
    dropped. *)
Definition presentPoints (landmarks : list Landmark) (indices : list nat)
    : list Landmark :=
  omap (fun index => landmarks !! index) indices.

Definition getAverageLandmark (landmarks : list Landmark) (indices : list nat)
    : option Point3D :=
  let points := presentPoints landmarks indices in
  if lengthZ points =? 0 then None
  else
    let sum :=
      fold_left
        (fun acc point =>
           {| x3 := x3 acc + lmx point;
              y3 := y3 acc + lmy point;
              z3 := z3 acc + match lmz point with Some z => z | None => 0 end |})%Q
        points {| x3 := 0; y3 := 0; z3 := 0 |} in
    let n := inject_Z (lengthZ points) in
    Some {| x3 := x3 sum / n; y3 := y3 sum / n; z3 := z3 sum / n |}%Q.

(** One entry of [calibrationCtx.samplesForPoint]. *)
Record IrisSample := {
  sampleLeft : option Point3D;
  sampleRight : option Point3D;
}.

(** The keys ['left'] and ['right']. *)
Inductive EyeKey := LeftKey | RightKey.

Definition sampleAtKey (key : EyeKey) (sample : IrisSample) : option Point3D :=
  match key with
  | LeftKey => sampleLeft sample
  | RightKey => sampleRight sample
  end.

Definition averagePoint (samples : list IrisSample) (key : EyeKey)
    : option Point2D :=
  let valid := omap (sampleAtKey key) samples in
  if lengthZ valid =? 0 then None
  else
    let accumulator :=
      fold_left
        (fun acc point =>
           {| px := px acc + x3 point; py := py acc + y3 point |})%Q
        valid {| px := 0; py := 0 |} in
    let n := inject_Z (lengthZ valid) in
    Some {| px := px accumulator / n; py := py accumulator / n |}%Q.

Record IrisGeometry := {
  center : Point2D;
  radius : Q;
  pixel : Point2D;
}.

(** The image-plane coordinates of a point. *)
Definition xyOfLandmark (point : Landmark) : Point2D :=
  {| px := lmx point; py := lmy point |}.
Definition xyOfPoint3D (point : Point3D) : Point2D :=
  {| px := x3 point; py := y3 point |}.

(** [a ? (b ? [hi] : ...) ...]: eye openness from the two eyelid distances. *)
Definition opennessOf (vertical horizontal : Q) : Q :=
  if Num.gtb horizontal 0 then clamp (vertical / horizontal) 0 1 else 0%Q.

Section Geometry.

Variable hypot : Q -> Q -> Q.

Definition getDistance (a b : option Point2D) : Q :=
  match a, b with
  | Some a, Some b => hypot (px a - px b) (py a - py b)
  | _, _ => 0%Q
  end.

(** With no iris index at all the centre would be [0 / 0]; the tracker always
    passes four indices. *)
Definition getIrisGeometry (landmarks : list Landmark) (irisIndices : list nat)
    (width height : Q) : option IrisGeometry :=
  let points := presentPoints landmarks irisIndices in
  if negb (lengthZ points =? lengthZ irisIndices) then None
  else
    let n := inject_Z (lengthZ points) in
    let sum :=
      fold_left
        (fun acc point =>
           {| px := px acc + lmx point; py := py acc + lmy point |})%Q
        points {| px := 0; py := 0 |} in
    let center := {| px := px sum / n; py := py sum / n |}%Q in
    let radius :=
      Num.or_else
        (fold_left
           (fun acc point =>
              let dx := ((lmx point - px center) * width)%Q in
              let dy := ((lmy point - py center) * height)%Q in
              (acc + hypot dx dy)%Q)
           points 0%Q / n)%Q 0 in
    Some {| center := center;
            radius := radius;
            pixel := {| px := px center * width; py := py center * height |}%Q |}.

(** The eyelid part of [onResults]: both eyes' widths and openness. *)
Record EyeMeasures := {
  leftHorizontal : Q;
  rightHorizontal : Q;
  leftOpenness : Q;
  rightOpenness : Q;
}.

Definition measureEyes (landmarks : list Landmark) : EyeMeasures :=
  let xy3 := option_map xyOfPoint3D in
  let xy := option_map xyOfLandmark in
  let leftTop := getAverageLandmark landmarks leftEyeTopIndices in
  let leftBottom := getAverageLandmark landmarks leftEyeBottomIndices in
  let rightTop := getAverageLandmark landmarks rightEyeTopIndices in
  let rightBottom := getAverageLandmark landmarks rightEyeBottomIndices in
  let leftInner := landmarks !! leftEyeInnerCorner in
  let leftOuter := landmarks !! leftEyeOuterCorner in
  let rightInner := landmarks !! rightEyeInnerCorner in
  let rightOuter := landmarks !! rightEyeOuterCorner in
  let leftHorizontal := getDistance (xy leftInner) (xy leftOuter) in
  let rightHorizontal := getDistance (xy rightInner) (xy rightOuter) in
  let leftVertical := getDistance (xy3 leftTop) (xy3 leftBottom) in
  let rightVertical := getDistance (xy3 rightTop) (xy3 rightBottom) in
  {| leftHorizontal := leftHorizontal;
     rightHorizontal := rightHorizontal;
     leftOpenness := opennessOf leftVertical leftHorizontal;
     rightOpenness := opennessOf rightVertical rightHorizontal |}.

(** The frame that the blink detector sees for a face with these landmarks. *)
Definition faceFrame (landmarks : list Landmark) (dateNow : Z) : Frame :=
  let eyes := measureEyes landmarks in
  Face (leftOpenness eyes) (rightOpenness eyes) dateNow.

End Geometry.

(** ** Calibration run ([onResults], [startCalibration], [resetCalibration]) *)

Module Calibration.

Inductive Status := idle | running | complete.

(** One entry of [calibrationCtx.recorded]; the target is [undefined] when the
    point index is past the last calibration point. *)
Record Recorded := {
  entryTarget : option Point2D;
  entryLeft : option Point2D;
  entryRight : option Point2D;
}.

Record Models := {
  leftModel : CalibrationModel;
  rightModel : CalibrationModel;
}.

(** [calibrationRef.current]. *)
Record Context := {
  status : Status;
  pointIndex : Z;
  samplesForPoint : list IrisSample;
  recorded : list Recorded;
  models : Models;
}.

Definition defaultModels : Models :=
  {| leftModel := defaultCalibrationModel; rightModel := defaultCalibrationModel |}.

Definition initial : Context :=
  {| status := idle; pointIndex := 0; samplesForPoint := []; recorded := [];
     models := defaultModels |}.

Definition resetCalibration (ctx : Context) : Context := initial.

Definition startCalibration (isSupported : bool) (ctx : Context) : Context :=
  if negb isSupported then ctx
  else
    {| status := running; pointIndex := 0; samplesForPoint := []; recorded := [];
       models := defaultModels |}.

(** [recorded.filter((entry) => entry[key]).map((entry) => ({ measured:
    entry[key], target: entry.target }))].  A kept entry without a target makes
    the fit fail with a [TypeError] when it reads [pair.target.x]; that is
    [None]. *)
Fixpoint pairsOf (measuredOf : Recorded -> option Point2D)
    (entries : list Recorded) : option (list CalibrationPair) :=
  match entries with
  | [] => Some []
  | entry :: rest =>
      match measuredOf entry with
      | None => pairsOf measuredOf rest
      | Some point =>
          match entryTarget entry, pairsOf measuredOf rest with
          | Some goal, Some pairs =>
              Some ({| measured := point; target := goal |} :: pairs)
          | _, _ => None
          end
      end
  end.

(** [pairs.length ? computeLinearMapping(pairs) : defaultCalibrationModel()]. *)
Definition modelOf (pairs : list CalibrationPair) : CalibrationModel :=
  if lengthZ pairs =? 0 then defaultCalibrationModel
  else computeLinearMapping pairs.

(** The calibration block of [onResults] for a frame with a face: the new
    context and, when the run completes, the models carried by the
    ['eye-calibration-complete'] event.  [None] stands for an exception. *)
Definition step (leftIrisCenter rightIrisCenter : option Point3D)
    (ctx : Context) : option (Context * option Models) :=
  match status ctx, leftIrisCenter, rightIrisCenter with
  | running, Some l, Some r =>
      let samples :=
        (samplesForPoint ctx ++ [{| sampleLeft := Some l; sampleRight := Some r |}])%list in
      if FRAMES_PER_CAL_POINT <=? lengthZ samples then
        let averageLeft := averagePoint samples LeftKey in
        let averageRight := averagePoint samples RightKey in
        let recorded' :=
          (recorded ctx
           ++ [{| entryTarget := calibrationPoints !! Z.to_nat (pointIndex ctx);
                  entryLeft := averageLeft;
                  entryRight := averageRight |}])%list in
        let pointIndex' := pointIndex ctx + 1 in
        if lengthZ calibrationPoints <=? pointIndex' then
          match pairsOf entryLeft recorded', pairsOf entryRight recorded' with
          | Some leftPairs, Some rightPairs =>
              let models' :=
                {| leftModel := modelOf leftPairs;
                   rightModel := modelOf rightPairs |} in
              Some ({| status := complete; pointIndex := pointIndex';
                       samplesForPoint := []; recorded := recorded';
                       models := models' |},
                    Some models')
          | _, _ => None
          end
        else
          Some ({| status := running; pointIndex := pointIndex';
                   samplesForPoint := []; recorded := recorded';
                   models := models ctx |},
                None)
      else
        Some ({| status := running; pointIndex := pointIndex ctx;
                 samplesForPoint := samples; recorded := recorded ctx;
                 models := models ctx |},
              None)
  | _, _, _ => Some (ctx, None)
  end.

(** A run of frames; the events are collected in order. *)
Fixpoint run (frames : list (option Point3D * option Point3D)) (ctx : Context)
    : option (Context * list Models) :=
  match frames with
  | [] => Some (ctx, [])
  | (l, r) :: rest =>
      match step l r ctx with
      | None => None
      | Some (ctx', event) =>
          match run rest ctx' with
          | None => None
          | Some (final, events) =>
              Some (final, (match event with Some m => [m] | None => [] end
                            ++ events)%list)
          end
      end
  end.

End Calibration.

(** ** Starting and timing a capture ([startAssessment] and the timer effect) *)

(** What [startAssessment] does: report an error, return without effect, or
    replace [assessmentRef.current] by a running capture with an empty buffer
    and the given start time. *)
Inductive StartOutcome :=
| StartError (message : string)
| StartIgnored
| Started (ref : AssessmentRef) (startTimestamp : Q).

Section Start.

Variable parseFloat : string -> option Q.

Definition startAssessment (isSupported : bool) (age gender : string)
    (performanceNow : Q) (ref : AssessmentRef) : StartOutcome :=
  if negb isSupported then
    StartError "Camera access is required to capture data."
  else if String.eqb age "" || String.eqb gender "" then
    StartError "Please enter age and gender before starting the assessment."
  else
    match parseFloat age with
    | None => StartError "Age must be between 2 and 18."
    | Some ageNum =>
        if Num.ltb ageNum 2 || Num.gtb ageNum 18 then
          StartError "Age must be between 2 and 18."
        else
          match status ref with
          | running => StartIgnored
          | _ => Started {| status := running; samples := [] |} performanceNow
          end
    end.

End Start.

(** One run of the timer callback [tick] while a capture is running: the
    published time left, the image to show, and whether it calls
    [finalizeAssessment] instead of scheduling itself again. *)
Record TimerTick := {
  remaining : Q;
  imageIndex : Z;
  finalizes : bool;
}.

Definition timerTick (performanceNow startTimestamp : Q) (ref : AssessmentRef)
    : option TimerTick :=
  match status ref with
  | running =>
      let elapsed := (performanceNow - startTimestamp)%Q in
      let remaining := Num.max 0 (ASSESSMENT_DURATION_MS - elapsed) in
      let imageIndex :=
        Z.min (ASSESSMENT_IMAGES_length - 1)
              (Qfloor (elapsed / IMAGE_DISPLAY_DURATION_MS)) in
      Some {| remaining := remaining;
              imageIndex := imageIndex;
              finalizes := Qle_bool remaining 0 |}
  | _ => None
  end.

(** ** The sampling tick of [onResults] *)

Module Sampler.

(** The fields of [metricsInternalRef.current] that the tick reads and
    writes. *)
Record State := {
  lastUpdate : Q;
  prevLeftCenter : option Point3D;
  prevRightCenter : option Point3D;
  prevTimestamp : option Z;
  startTime : Z;
}.

(** What the tick reads from the current frame and from the clocks:
    [performance.now()] before the gate and again when the sample is pushed,
    [Date.now()] and its ISO rendering. *)
Record FaceData := {
  leftIrisCenter : option Point3D;
  rightIrisCenter : option Point3D;
  leftGeometry : option IrisGeometry;
  rightGeometry : option IrisGeometry;
  eyes : EyeMeasures;
  canvasWidth : Q;
  imageWidth : Q;
  imageHeight : Q;
  now : Q;
  pushNow : Q;
  currentTimestamp : Z;
  isoNow : string;
}.

(** [internal.prevTimestamp ? Math.max(1, currentTimestamp -
    internal.prevTimestamp) : 1]. *)
Definition deltaMsOf (prevTimestamp : option Z) (currentTimestamp : Z) : Z :=
  match prevTimestamp with
  | Some prev => if prev =? 0 then 1 else Z.max 1 (currentTimestamp - prev)
  | None => 1
  end.

Definition scaleOf (eyeWidthPx : Q) : Q :=
  if Num.gtb eyeWidthPx 0 then (AVERAGE_EYE_WIDTH_MM / eyeWidthPx)%Q else 0%Q.

Definition pupilDiameterMmOf (geometry : option IrisGeometry) (scale : Q) : Q :=
  match geometry with
  | Some g =>
      if Qeq_bool scale 0 then 0%Q
      else Num.toFixed (radius g * 2 * scale) 2
  | None => 0%Q
  end.

Definition pointOfRegardOf (corrected : option Point2D) (width height : Q)
    : Point2D :=
  match corrected with
  | Some c =>
      {| px := Num.toFixed (px c * width) 0;
         py := Num.toFixed (py c * height) 0 |}
  | None => {| px := 0; py := 0 |}
  end.

Section Tick.

Variable hypot : Q -> Q -> Q.

Definition velocityOf (prev current : option Point3D) (deltaMs : Z) : Q :=
  match prev, current with
  | Some p, Some c =>
      (hypot (x3 c - x3 p) (y3 c - y3 p) / inject_Z deltaMs * 1000)%Q
  | _, _ => 0%Q
  end.

(** The tick: the new state, the published metrics (they carry no ISO
    timestamp) and the capture buffer.  Below the cadence nothing happens. *)
Definition tick (face : FaceData) (models : Calibration.Models)
    (internal : Internal) (startTimestamp : Q) (state : State)
    (ref : AssessmentRef) : State * option GazeSample * AssessmentRef :=
  if Num.gtb (now face - lastUpdate state) 100 then
    let elapsedMs := currentTimestamp face - startTime state in
    let deltaMs := deltaMsOf (prevTimestamp state) (currentTimestamp face) in
    let leftVelocity :=
      velocityOf (prevLeftCenter state) (leftIrisCenter face) deltaMs in
    let rightVelocity :=
      velocityOf (prevRightCenter state) (rightIrisCenter face) deltaMs in
    let state' :=
      {| lastUpdate := now face;
         prevLeftCenter := leftIrisCenter face;
         prevRightCenter := rightIrisCenter face;
         prevTimestamp := Some (currentTimestamp face);
         startTime := startTime state |} in
    let leftEyeWidthPx := (leftHorizontal (eyes face) * canvasWidth face)%Q in
    let rightEyeWidthPx := (rightHorizontal (eyes face) * canvasWidth face)%Q in
    let leftPupilDiameterMm :=
      pupilDiameterMmOf (leftGeometry face) (scaleOf leftEyeWidthPx) in
    let rightPupilDiameterMm :=
      pupilDiameterMmOf (rightGeometry face) (scaleOf rightEyeWidthPx) in
    let correctedLeft :=
      applyCalibration (Some (Calibration.leftModel models))
                       (option_map xyOfPoint3D (leftIrisCenter face)) in
    let correctedRight :=
      applyCalibration (Some (Calibration.rightModel models))
                       (option_map xyOfPoint3D (rightIrisCenter face)) in
    let pointOfRegardLeft :=
      pointOfRegardOf correctedLeft (imageWidth face) (imageHeight face) in
    let pointOfRegardRight :=
      pointOfRegardOf correctedRight (imageWidth face) (imageHeight face) in
    let categoryLeft :=
      classifyMovement leftVelocity (leftOpenness (eyes face))
                       BLINK_THRESHOLD FIXATION_VELOCITY_THRESHOLD in
    let categoryRight :=
      classifyMovement rightVelocity (rightOpenness (eyes face))
                       BLINK_THRESHOLD FIXATION_VELOCITY_THRESHOLD in
    let nextMetrics :=
      {| recordingTimeMs := inject_Z elapsedMs;
         timestampIso := "";
         categoryRight := categoryRight;
         categoryLeft := categoryLeft;
         pupilDiameterRightMm := rightPupilDiameterMm;
         pupilDiameterLeftMm := leftPupilDiameterMm;
         pointOfRegardRightX := px pointOfRegardRight;
         pointOfRegardRightY := py pointOfRegardRight;
         pointOfRegardLeftX := px pointOfRegardLeft;
         pointOfRegardLeftY := py pointOfRegardLeft;
         trackingRatio := publishedTrackingRatio internal |} in
    let ref' :=
      match status ref with
      | running =>
          let relativeRecordingMs :=
            Num.min ASSESSMENT_DURATION_MS (pushNow face - startTimestamp) in
          {| status := running;
             samples :=
               (samples ref
                ++ [{| recordingTimeMs := Num.toFixed relativeRecordingMs 2;
                       timestampIso := isoNow face;
                       categoryRight := categoryRight;
                       categoryLeft := categoryLeft;
                       pupilDiameterRightMm :=
                         Num.toFixed (pupilDiameterRightMm nextMetrics) 2;
                       pupilDiameterLeftMm :=
                         Num.toFixed (pupilDiameterLeftMm nextMetrics) 2;
                       pointOfRegardRightX := pointOfRegardRightX nextMetrics;
                       pointOfRegardRightY := pointOfRegardRightY nextMetrics;
                       pointOfRegardLeftX := pointOfRegardLeftX nextMetrics;
                       pointOfRegardLeftY := pointOfRegardLeftY nextMetrics;
                       trackingRatio :=
                         Num.toFixed (trackingRatio nextMetrics) 2 |}])%list |}
      | _ => ref
      end in
    (state', Some nextMetrics, ref')
  else (state, None, ref).

End Tick.

End Sampler.

(** ** The per-sample export of the earlier revision of the application *)

Module RawExport.

Definition CSV_HEADERS : list string :=
  [ "recording_time_ms"; "sample_timestamp_iso"; "category_right";
    "category_left"; "pupil_diameter_right_mm"; "pupil_diameter_left_mm";
    "point_of_regard_right_x"; "point_of_regard_right_y";
    "point_of_regard_left_x"; "point_of_regard_left_y";
    "tracking_ratio_percent" ].

(** The string that a category is in the sample. *)
Definition categoryName (category : Category) : string :=
  match category with
  | Blink => "Blink"
  | Fixation => "Fixation"
  | Saccade => "Saccade"
  end.

Definition cellsOf (sample : GazeSample) : list jsval :=
  [ JNum (recordingTimeMs sample);
    JStr (timestampIso sample);
    JStr (categoryName (categoryRight sample));
    JStr (categoryName (categoryLeft sample));
    JNum (pupilDiameterRightMm sample);
    JNum (pupilDiameterLeftMm sample);
    JNum (pointOfRegardRightX sample);
    JNum (pointOfRegardRightY sample);
    JNum (pointOfRegardLeftX sample);
    JNum (pointOfRegardLeftY sample);
    JNum (trackingRatio sample) ].

Section Rows.

Variable toString : Q -> string.

(** [samples.forEach((sample) => csvLines.push(...))] after the header line. *)
Definition csvLines (samples : list GazeSample) : list string :=
  fold_left
    (fun lines sample =>
       (lines ++ [join "," (map (formatCsvCell toString) (cellsOf sample))])%list)
    samples [join "," CSV_HEADERS].

Definition finalizeAssessment (ref : AssessmentRef)
    : AssessmentRef * FinalizeEffect :=
  match status ref with
  | running =>
      ({| status := complete; samples := samples ref |},
       CsvBlob (join (String newline EmptyString) (csvLines (samples ref)))
               (lengthZ (samples ref)))
  | _ => (ref, NoEffect)
  end.

End Rows.

End RawExport.
(** ** The claims' own wording, for comparison with the code *)

Module Spec.

(** [prefix_{1..count}]. *)
Definition numbered (prefix : string) (count : nat) : list string :=
  map (fun i => prefix ++ NilEmpty.string_of_uint (Nat.to_uint i))%string
      (seq 1 count).

(** The record schema, in the order in which the interface section lists it. *)
Definition schema : list string :=
  numbered "Tracking_F_" 4 ++ numbered "Pupil_Diam_" 12
  ++ numbered "GazePoint_of_I_" 12 ++ numbered "Recording_" 3
  ++ numbered "gaze_hori_" 4 ++ numbered "gaze_vert_" 4
  ++ numbered "gaze_velo_" 4 ++ numbered "blink_count_" 4
  ++ numbered "fix_count_" 4 ++ numbered "sac_count_" 4
  ++ ["Source_File"; "level_2"] ++ numbered "trial_dur_" 2
  ++ ["sampling_rate_1"; "blink_rate_1"; "fixation_rate_1"; "saccade_rate_1";
      "fix_dur_avg_1"; "sac_amp_avg_1"; "sac_peak_vel_avg_1"]
  ++ numbered "right_eye_c_" 3 ++ numbered "left_eye_c_" 3
  ++ numbered "avg_eye_c_" 3
  ++ ["pupil_diam_avg_1"; "gaze_hori_avg_1"; "gaze_vert_avg_1";
      "Participant"; "Gender"; "Age"; "Class"; "CARS_Score_is_ASD";
      "Gender_encoded"].

Definition metadataColumns : list string :=
  ["Source_File"; "level_2"; "Participant"; "Gender"; "Class";
   "CARS_Score_is_ASD"].

Definition isMetadata (column : string) : bool :=
  existsb (String.eqb column) metadataColumns.

(** The columns left after the metadata columns are taken out. *)
Definition featureColumns (columns : list string) : list string :=
  List.filter (fun column => negb (isMetadata column)) columns.

(** A cell that holds a number. *)
Definition isNumberCell (value : jsval) : Prop :=
  match value with JNum _ => True | _ => False end.

(** The gender code as the claim words it: 1 for 'M', 0 for 'F', one half for
    anything else, a missing gender included. *)
Definition genderCode (gender : option string) : Q :=
  match gender with
  | Some "M" => 1
  | Some "F" => 0
  | _ => 1 # 2
  end.

(** Samples paired with their position in the window. *)
Fixpoint indexedFrom {A} (start : Z) (l : list A) : list (Z * A) :=
  match l with
  | [] => []
  | x :: rest => (start, x) :: indexedFrom (start + 1) rest
  end.

(** Four contiguous segments of ceiling size: segment [k < 3] holds the
    positions from [k * size] up to [(k + 1) * size], the last segment
    everything from [3 * size] on. *)
Definition ceilingSize (sampleCount : Z) : Z := (sampleCount + 3) / 4.

Definition inSegment (size k idx : Z) : bool :=
  if k <? 3 then (k * size <=? idx) && (idx <? (k + 1) * size)
  else (3 * size <=? idx).

(** Number of samples of the window in which either eye shows the category,
    over the whole window and inside segment [k]. *)
Definition categoryTotal (category : Category) (samples : list GazeSample) : Z :=
  lengthZ (List.filter (eitherEye category) samples).

Definition segmentTotal (category : Category) (samples : list GazeSample)
    (k : Z) : Z :=
  lengthZ
    (List.filter
       (fun entry =>
          inSegment (ceilingSize (lengthZ samples)) k (fst entry)
          && eitherEye category (snd entry))
       (indexedFrom 0 samples)).

(** Mean, variance and covariance in their usual (population) sense. *)
Definition average (values : list Q) : Q :=
  (sum values / inject_Z (lengthZ values))%Q.

Definition sumSquaredDeviations (values : list Q) : Q :=
  sum (map (fun v => (v - average values) * (v - average values))%Q values).

Definition sumCrossDeviations (xs ys : list Q) : Q :=
  sum (map (fun p => (fst p - average xs) * (snd p - average ys))%Q
           (combine xs ys)).

Definition variance (values : list Q) : Q :=
  (sumSquaredDeviations values / inject_Z (lengthZ values))%Q.

Definition covariance (xs ys : list Q) : Q :=
  (sumCrossDeviations xs ys / inject_Z (lengthZ xs))%Q.

(** The round-trip law with tolerance [eps]: the model applied to every
    measured point lands within [eps] of the pair's target, on both axes. *)
Definition reproducesWithin (eps : Q) (model : CalibrationModel)
    (pairs : list CalibrationPair) : bool :=
  forallb
    (fun pair =>
       match applyCalibration (Some model) (Some (measured pair)) with
       | Some corrected =>
           Qle_bool (Qabs (px corrected - px (target pair))) eps
           && Qle_bool (Qabs (py corrected - py (target pair))) eps
       | None => false
       end)
    pairs.

(** The small tolerance of the round-trip law: a millionth of the unit
    square's side. *)
Definition tolerance : Q := 1 # 1000000.

(** A number cut off after three decimal digits, and the number cell as the
    claim words it: the integer when integral, otherwise the truncation. *)
Definition truncate3 (x : Q) : Q :=
  let scaled := (x * 1000)%Q in
  (inject_Z (if Qle_bool 0 x then Qfloor scaled else Qceiling scaled) / 1000)%Q.

Definition claimedNumberCell (toString : Q -> string) (x : Q) : string :=
  if Num.isInteger x then toString x else toString (truncate3 x).

(** [k / 1000] is the multiple of 0.001 nearest to [x]; of two equally near
    multiples it is the one further from zero. *)
Definition nearestThousandth (x : Q) (k : Z) : Prop :=
  (- (1 # 2) <= inject_Z k - x * 1000 /\ inject_Z k - x * 1000 <= 1 # 2)%Q
  /\ ((inject_Z k - x * 1000 == 1 # 2)%Q -> (0 <= x)%Q)
  /\ ((x * 1000 - inject_Z k == 1 # 2)%Q -> (x <= 0)%Q).

(** The value of a string of fraction digits: [d1 d2 ...] stands for
    [d1 / 10 + d2 / 100 + ...]. *)
Definition digitValue (c : ascii) : Z := Z.of_nat (nat_of_ascii c) - 48.

Fixpoint fractionValue (digits : string) : Q :=
  match digits with
  | EmptyString => 0%Q
  | String c rest => ((inject_Z (digitValue c) + fractionValue rest) / 10)%Q
  end.

(** Whether the last character of a string is the digit 0. *)
Fixpoint endsWithZero (digits : string) : bool :=
  match digits with
  | EmptyString => false
  | String c EmptyString => Ascii.eqb c "0"
  | String _ rest => endsWithZero rest
  end.

(** The plain decimal numeral with sign, integer part and fraction digits. *)
Definition numeral (negative : bool) (whole : Z) (digits : string) : string :=
  ((if negative then "-" else "")
   ++ NilZero.string_of_int (Z.to_int whole)
   ++ match digits with
      | EmptyString => ""
      | _ => "." ++ digits
      end)%string.

(** What is known of the language's [toString] on short numbers: a multiple
    of 0.001 of magnitude up to [10^12], which has at most 15 significant
    digits, is printed as its plain decimal numeral. *)
Definition printsPlainDecimals (toString : Q -> string) : Prop :=
  forall (q : Q) (k : Z),
    Z.abs k <= 10 ^ 15 -> (q == inject_Z k / 1000)%Q ->
    toString q = Runtime.toString q.

(** Reading a quoted field back: every pair of quote characters stands for
    one. *)
Fixpoint unescape (text : string) : string :=
  match text with
  | EmptyString => EmptyString
  | String c rest =>
      if Ascii.eqb c doubleQuote then
        match rest with
        | String _ rest' => String c (unescape rest')
        | EmptyString => String c EmptyString
        end
      else String c (unescape rest)
  end.

Fixpoint quoteCount (text : string) : nat :=
  match text with
  | EmptyString => 0%nat
  | String c rest =>
      ((if Ascii.eqb c doubleQuote then 1 else 0) + quoteCount rest)%nat
  end.

(** Every sample of the window paired with its successor. *)
Definition consecutive {A} (l : list A) : list (A * A) :=
  match l with
  | [] => []
  | _ :: rest => combine l rest
  end.

(** Time from [prev] to [curr], in seconds. *)
Definition interval (pair : GazeSample * GazeSample) : Q :=
  ((recordingTimeMs (snd pair) - recordingTimeMs (fst pair)) / 1000)%Q.

(** The window rule of the claim: a sample counts toward a category when
    either eye exhibits it. *)
Definition classifiesAs (category : Category) (sample : GazeSample) : bool :=
  bool_decide (categoryRight sample = category \/ categoryLeft sample = category).

(** The average fixation duration as the claim words it: the mean interval
    over the consecutive pairs in which both samples classify as a fixation,
    and 0 when there is no such pair. *)
Definition claimedFixationAverage (samples : list GazeSample) : Q :=
  let intervals :=
    map interval
      (List.filter
         (fun pair =>
            classifiesAs Fixation (fst pair) && classifiesAs Fixation (snd pair))
         (consecutive samples)) in
  match intervals with
  | [] => 0%Q
  | _ => average intervals
  end.

(** The intervals that enter the average in the code: positive ones between
    two samples whose right eye is in fixation. *)
Definition rightEyeFixationIntervals (samples : list GazeSample) : list Q :=
  map interval
    (List.filter
       (fun pair =>
          Num.gtb (interval pair) 0
          && bool_decide (categoryRight (fst pair) = Fixation)
          && bool_decide (categoryRight (snd pair) = Fixation))
       (consecutive samples)).

(** The blink state before each frame of a run and after its last frame. *)
Fixpoint stateTrace (frames : list Frame) (internal : Internal) : list BlinkState :=
  match frames with
  | [] => [blinkState internal]
  | frame :: rest => blinkState internal :: stateTrace rest (onResults frame internal)
  end.

(** Number of places in a trace where [open] is followed by [closed]. *)
Fixpoint closings (trace : list BlinkState) : Z :=
  match trace with
  | [] => 0
  | state :: rest =>
      match state, rest with
      | open, closed :: _ => 1 + closings rest
      | _, _ => closings rest
      end
  end.

(** Frames in which a face is seen with the same openness in both eyes, 100 ms
    apart. *)
Fixpoint faces (start : Z) (opennesses : list Q) : list Frame :=
  match opennesses with
  | [] => []
  | o :: rest => Face o o start :: faces (start + 100) rest
  end.

Definition isFace (frame : Frame) : bool :=
  match frame with Face _ _ _ => true | _ => false end.

Definition isProcessed (frame : Frame) : bool :=
  match frame with Skipped => false | _ => true end.

End Spec.

(** ** Concrete inputs *)

Module Examples.

(** A sample taken [time] milliseconds into the capture, with the given
    right-eye and left-eye categories. *)
Definition sampleAt (time : Q) (right left : Category) : GazeSample :=
  {| recordingTimeMs := time;
     timestampIso := "";
     categoryRight := right;
     categoryLeft := left;
     pupilDiameterRightMm := 35 # 10;
     pupilDiameterLeftMm := 36 # 10;
     pointOfRegardRightX := 320;
     pointOfRegardRightY := 240;
     pointOfRegardLeftX := 300;
     pointOfRegardLeftY := 238;
     trackingRatio := 100 |}.

(** Two samples whose left eye is in fixation while the right eye is not. *)
Definition leftEyeFixationWindow : list GazeSample :=
  [ sampleAt 0 Saccade Fixation; sampleAt 100 Saccade Fixation ].

(** Five measured values that differ by at most 0.002, and the horizontal
    coordinates of the five calibration targets. *)
Definition nearlyConstantMeasured : list Q :=
  [0; 1 # 1000; 2 # 1000; 0; 1 # 1000]%Q.

Definition targetXs : list Q := map px calibrationPoints.

(** Calibration recordings against the five targets: the gaze never leaves
    the centre; the measured points are the targets mirrored in the diagonal;
    the measured points are the targets themselves. *)
Definition pairsWith (measuredPoints : list Point2D) : list CalibrationPair :=
  map (fun entry => {| measured := fst entry; target := snd entry |})
      (combine measuredPoints calibrationPoints).

Definition point (x y : Q) : Point2D := {| px := x; py := y |}.

Definition fixedGazePairs : list CalibrationPair :=
  pairsWith (repeat (point (5 # 10) (5 # 10)) 5).

Definition mirroredPairs : list CalibrationPair :=
  pairsWith [ point (5 # 10) (5 # 10); point (3 # 10) (3 # 10);
              point (3 # 10) (7 # 10); point (7 # 10) (3 # 10);
              point (7 # 10) (7 # 10) ].

Definition exactPairs : list CalibrationPair := pairsWith calibrationPoints.

(** The gaze moves half as far as the targets, around the centre: every
    target is twice the measured coordinate less one half. *)
Definition halvedPairs : list CalibrationPair :=
  pairsWith [ point (5 # 10) (5 # 10); point (35 # 100) (35 # 100);
              point (65 # 100) (35 # 100); point (35 # 100) (65 # 100);
              point (65 # 100) (65 # 100) ].

(** Two recordings measured exactly, one of them with a target outside the
    unit square. *)
Definition outsidePairs : list CalibrationPair :=
  [ {| measured := point 0 0; target := point 0 0 |};
    {| measured := point (3 # 2) (3 # 2); target := point (3 # 2) (3 # 2) |} ].

End Examples.

(** ** Views of the loops used in the proofs *)

(** The measured coordinates that [computeLinearMapping] hands to the fit of
    each axis. *)
Definition measuredXs (pairs : list CalibrationPair) : list Q :=
  map (fun pair => px (measured pair)) pairs.
Definition measuredYs (pairs : list CalibrationPair) : list Q :=
  map (fun pair => py (measured pair)) pairs.


(** One counter array of [countLoopFrom], for the samples that satisfy [p]. *)
Fixpoint tallyFrom (p : GazeSample -> bool) (segmentSize : Z)
    (samples : list GazeSample) (idx : Z) (counts : list Z) : list Z :=
  match samples with
  | [] => counts
  | sample :: rest =>
      tallyFrom p segmentSize rest (idx + 1)
        (if p sample then increment (segmentOf idx segmentSize) counts else counts)
  end.


(** ** Notions used by the further properties *)

Module More.

(** A list of numbers in non-decreasing order. *)
Fixpoint sortedQ (l : list Q) : Prop :=
  match l with
  | [] => True
  | x :: rest => Forall (fun y => x <= y)%Q rest /\ sortedQ rest
  end.

(** The consecutive pairs of the window whose time interval is positive: the
    pairs for which the loop over the samples does anything. *)
Definition positivePairs (samples : list GazeSample)
    : list (GazeSample * GazeSample) :=
  List.filter (fun pair => Num.gtb (Spec.interval pair) 0)
              (Spec.consecutive samples).

Definition isSaccadePair (pair : GazeSample * GazeSample) : bool :=
  eitherEye Saccade (snd pair).

Definition dxRight (pair : GazeSample * GazeSample) : Q :=
  (pointOfRegardRightX (snd pair) - pointOfRegardRightX (fst pair))%Q.
Definition dyRight (pair : GazeSample * GazeSample) : Q :=
  (pointOfRegardRightY (snd pair) - pointOfRegardRightY (fst pair))%Q.
Definition dxLeft (pair : GazeSample * GazeSample) : Q :=
  (pointOfRegardLeftX (snd pair) - pointOfRegardLeftX (fst pair))%Q.
Definition dyLeft (pair : GazeSample * GazeSample) : Q :=
  (pointOfRegardLeftY (snd pair) - pointOfRegardLeftY (fst pair))%Q.

(** Gaze speed of each eye over a pair, and the amplitude of the movement of
    both eyes together, as the loop over the samples computes them. *)
Definition velocityRight (hypot : Q -> Q -> Q) (pair : GazeSample * GazeSample)
    : Q :=
  (hypot (dxRight pair) (dyRight pair) / Spec.interval pair)%Q.
Definition velocityLeft (hypot : Q -> Q -> Q) (pair : GazeSample * GazeSample)
    : Q :=
  (hypot (dxLeft pair) (dyLeft pair) / Spec.interval pair)%Q.
Definition amplitude (hypot : Q -> Q -> Q) (pair : GazeSample * GazeSample)
    : Q :=
  (hypot (dxRight pair + dxLeft pair) (dyRight pair + dyLeft pair) / 2)%Q.

(** A frame of a calibration run in which both iris centres were found. *)
Definition bothCentres (frame : option Point3D * option Point3D) : bool :=
  match frame with
  | (Some _, Some _) => true
  | _ => false
  end.

(** Number of frames with both iris centres that a run needs to complete. *)
Definition framesToComplete : Z :=
  FRAMES_PER_CAL_POINT * lengthZ calibrationPoints.

(** Frames with both centres that a running context has consumed so far. *)
Definition progress (ctx : Calibration.Context) : Z :=
  FRAMES_PER_CAL_POINT * Calibration.pointIndex ctx
  + lengthZ (Calibration.samplesForPoint ctx).

(** What holds of a context while a run is under way: the point index is one
    of the five targets, fewer than 45 frames are buffered for it, and the
    recorded entries carry the targets shown so far, in order. *)
Definition underWay (ctx : Calibration.Context) : Prop :=
  0 <= Calibration.pointIndex ctx < lengthZ calibrationPoints
  /\ lengthZ (Calibration.samplesForPoint ctx) < FRAMES_PER_CAL_POINT
  /\ map Calibration.entryTarget (Calibration.recorded ctx)
     = map Some (take (Z.to_nat (Calibration.pointIndex ctx)) calibrationPoints).

(** A run in which the gaze rests on one pair of iris centres (left, right)
    for the 45 frames of each target. *)
Definition steadyFrames (centres : list (Point3D * Point3D))
    : list (option Point3D * option Point3D) :=
  flat_map (fun centre => repeat (Some (fst centre), Some (snd centre)) 45) centres.

Definition centreOf (key : EyeKey) (centre : Point3D * Point3D) : Point3D :=
  match key with
  | LeftKey => fst centre
  | RightKey => snd centre
  end.

Definition modelFor (key : EyeKey) (models : Calibration.Models)
    : CalibrationModel :=
  match key with
  | LeftKey => Calibration.leftModel models
  | RightKey => Calibration.rightModel models
  end.

Definition entryFor (key : EyeKey) : Calibration.Recorded -> option Point2D :=
  match key with
  | LeftKey => Calibration.entryLeft
  | RightKey => Calibration.entryRight
  end.

(** A running context with the given buffer for the current point. *)
Definition withBuffer (ctx : Calibration.Context) (buffer : list IrisSample)
    : Calibration.Context :=
  {| Calibration.status := Calibration.running;
     Calibration.pointIndex := Calibration.pointIndex ctx;
     Calibration.samplesForPoint := buffer;
     Calibration.recorded := Calibration.recorded ctx;
     Calibration.models := Calibration.models ctx |}.

(** The buffer entry of one steady frame, the entry recorded for a target on
    which the gaze rested, and the context once that entry is recorded. *)
Definition steadySample (centre : Point3D * Point3D) : IrisSample :=
  {| sampleLeft := Some (fst centre); sampleRight := Some (snd centre) |}.

Definition steadyEntry (index : Z) (centre : Point3D * Point3D)
    : Calibration.Recorded :=
  {| Calibration.entryTarget := calibrationPoints !! Z.to_nat index;
     Calibration.entryLeft := averagePoint (repeat (steadySample centre) 45) LeftKey;
     Calibration.entryRight := averagePoint (repeat (steadySample centre) 45) RightKey |}.

Definition advance (ctx : Calibration.Context) (entry : Calibration.Recorded)
    : Calibration.Context :=
  {| Calibration.status := Calibration.running;
     Calibration.pointIndex := Calibration.pointIndex ctx + 1;
     Calibration.samplesForPoint := [];
     Calibration.recorded := (Calibration.recorded ctx ++ [entry])%list;
     Calibration.models := Calibration.models ctx |}.

(** Iris centres of a gaze that moves half as far as the five targets, around
    the centre of the image, for both eyes: every target coordinate is twice
    the coordinate of the centre less one half. *)
Definition halvedCentres : list (Point3D * Point3D) :=
  map (fun goal =>
         let centre :=
           {| x3 := px goal / 2 + (1 # 4); y3 := py goal / 2 + (1 # 4);
              z3 := 0 |}%Q in
         (centre, centre))
      calibrationPoints.

(** The recordings of a steady run as calibration pairs: the centre on which
    the eye rested for each target, and the target. *)
Definition steadyPairs (key : EyeKey) (centres : list (Point3D * Point3D))
    : list CalibrationPair :=
  map (fun entry =>
         {| measured := xyOfPoint3D (centreOf key (fst entry));
            target := snd entry |})
      (combine centres calibrationPoints).

End More.
(** * Properties *)

(** ** Comparisons *)

Lemma ltb_lt (a b : Q) : Num.ltb a b = true <-> (a < b)%Q.
Proof.
  unfold Num.ltb. rewrite negb_true_iff.
  destruct (Qle_bool b a) eqn:Hle.
  - apply Qle_bool_iff in Hle. split; [discriminate|].
    intros Hlt. exfalso. exact (Qlt_not_le _ _ Hlt Hle).
  - split; [|reflexivity]. intros _.
    apply Qnot_le_lt. intros Hle'. apply Qle_bool_iff in Hle'. congruence.
Qed.

(** ** Sums of rationals *)

Section Sums.

Lemma fold_plus_acc (l : list Q) : forall a, (fold_left Qplus l a == a + sum l)%Q.
Proof.
  unfold sum. induction l as [|x l IH]; intros a; simpl.
  - ring.
  - rewrite IH, (IH (0 + x)%Q). ring.
Qed.

Lemma sum_cons (x : Q) (l : list Q) : (sum (x :: l) == x + sum l)%Q.
Proof. unfold sum at 1. simpl. rewrite fold_plus_acc. ring. Qed.

Lemma fold_add_map {A} (f : A -> Q) (l : list A) : forall a,
  (fold_left (fun acc v => acc + f v) l a == a + sum (map f l))%Q.
Proof.
  induction l as [|x l IH]; intros a; simpl.
  - unfold sum. simpl. ring.
  - rewrite IH, sum_cons. ring.
Qed.

Lemma sum_map_ext {A} (f g : A -> Q) (l : list A) :
  (forall v, In v l -> f v == g v)%Q -> (sum (map f l) == sum (map g l))%Q.
Proof.
  induction l as [|x l IH]; intros Hext; simpl; [reflexivity|].
  rewrite !sum_cons, IH, (Hext x); [reflexivity|now left|].
  intros v Hv. apply Hext. now right.
Qed.

Lemma sum_map_scale {A} (c : Q) (f : A -> Q) (l : list A) :
  (sum (map (fun v => c * f v) l) == c * sum (map f l))%Q.
Proof.
  induction l as [|x l IH]; simpl.
  - unfold sum. simpl. ring.
  - rewrite !sum_cons, IH. ring.
Qed.

Lemma sum_map_affine (a b : Q) (l : list Q) :
  (sum (map (fun v => a * v + b) l) == a * sum l + inject_Z (lengthZ l) * b)%Q.
Proof.
  induction l as [|x l IH]; simpl.
  - unfold sum, lengthZ. simpl. ring.
  - rewrite !sum_cons, IH. unfold lengthZ. simpl length.
    rewrite Nat2Z.inj_succ, <- Z.add_1_r, inject_Z_plus. ring.
Qed.

Lemma lengthZ_nonzero {A} (x : A) (l : list A) : ~ (inject_Z (lengthZ (x :: l)) == 0)%Q.
Proof.
  change 0%Q with (inject_Z 0). rewrite inject_Z_injective.
  unfold lengthZ. simpl length. lia.
Qed.

Lemma mean_average (l : list Q) : (mean l == Spec.average l)%Q.
Proof.
  unfold mean, Spec.average, lengthOr1.
  destruct l as [|x l]; [reflexivity|].
  replace (lengthZ (x :: l) =? 0) with false; [reflexivity|].
  unfold lengthZ. simpl. reflexivity.
Qed.

Lemma or_else_0 (x : Q) : (Num.or_else x 0 == x)%Q.
Proof.
  unfold Num.or_else. destruct (Qeq_bool x 0) eqn:H; [|reflexivity].
  apply Qeq_bool_iff in H. now rewrite H.
Qed.

Lemma ltb_proper (a a' c : Q) : (a == a')%Q -> Num.ltb a c = Num.ltb a' c.
Proof. intros H. unfold Num.ltb. now rewrite H. Qed.

Lemma squaredDeviations_spec (l : list Q) :
  (squaredDeviations l (mean l) == Spec.sumSquaredDeviations l)%Q.
Proof.
  unfold squaredDeviations, Spec.sumSquaredDeviations.
  rewrite (fold_add_map (fun value => (value - mean l) * (value - mean l))%Q).
  rewrite Qplus_0_l. apply sum_map_ext. intros v _.
  now rewrite mean_average.
Qed.

Lemma reduceIndexed_combine (g : Q -> Q -> Q) (ms : list Q) :
  forall (done ts : list Q) (acc : Q),
    length ms = length ts ->
    (reduceIndexed (fun acc value index => acc + g value (nth index (done ++ ts)%list 0))
                   ms (length done) acc
     == acc + sum (map (fun p => g (fst p) (snd p)) (combine ms ts)))%Q.
Proof.
  induction ms as [|m ms IH]; intros done ts acc Hlen.
  - simpl. unfold sum. simpl. ring.
  - destruct ts as [|t ts]; [discriminate|].
    cbn [reduceIndexed combine map].
    rewrite sum_cons. cbn [fst snd].
    rewrite app_nth2, Nat.sub_diag by lia. cbn [nth].
    replace (done ++ t :: ts)%list with ((done ++ [t]) ++ ts)%list
      by (now rewrite <- app_assoc).
    replace (S (length done)) with (length (done ++ [t])%list)
      by (rewrite length_app; simpl; lia).
    rewrite IH by (simpl in Hlen; lia). ring.
Qed.

Lemma crossDeviations_spec (ms ts : list Q) : length ms = length ts ->
  (crossDeviations ms ts (mean ms) (mean ts) == Spec.sumCrossDeviations ms ts)%Q.
Proof.
  intros Hlen. unfold crossDeviations, Spec.sumCrossDeviations.
  pose proof (reduceIndexed_combine
                (fun value t => (value - mean ms) * (t - mean ts))%Q
                ms [] ts 0%Q Hlen) as H.
  cbn [app length] in H. rewrite H, Qplus_0_l.
  apply sum_map_ext. intros v _. now rewrite !mean_average.
Qed.

Lemma variance_scaled (l : list Q) :
  (inject_Z (lengthZ l) * Spec.variance l == Spec.sumSquaredDeviations l)%Q.
Proof.
  unfold Spec.variance. destruct l as [|x l]; [reflexivity|].
  field. apply lengthZ_nonzero.
Qed.

Lemma sum_all_equal (c : Q) (l : list Q) :
  Forall (fun v => v == c)%Q l -> (sum l == inject_Z (lengthZ l) * c)%Q.
Proof.
  induction 1 as [|x l Hx Hl IH].
  - reflexivity.
  - rewrite sum_cons, IH. unfold lengthZ. simpl length.
    rewrite Nat2Z.inj_succ, <- Z.add_1_r, inject_Z_plus, Hx. ring.
Qed.

Lemma sumSquaredDeviations_all_equal (c : Q) (l : list Q) :
  Forall (fun v => v == c)%Q l -> (Spec.sumSquaredDeviations l == 0)%Q.
Proof.
  intros Hall. destruct l as [|x l]; [reflexivity|].
  assert (Spec.average (x :: l) == c)%Q as Havg.
  { unfold Spec.average. rewrite (sum_all_equal c) by assumption.
    field. apply lengthZ_nonzero. }
  unfold Spec.sumSquaredDeviations.
  rewrite (sum_map_ext _ (fun v => 0 * v)%Q).
  - rewrite sum_map_scale. ring.
  - intros v Hv. rewrite Havg.
    assert (v == c)%Q as ->; [|ring].
    revert Hv. generalize (x :: l) Hall. clear.
    induction 1 as [|y l Hy Hl IH]; intros Hin; [destruct Hin|].
    destruct Hin as [<-|Hin]; auto.
Qed.

End Sums.

(** ** Record schema *)

(** C1. The header row written by [finalizeAssessment] is the schema of the
    interface section, column for column: 84 columns, 78 of them left once
    the six metadata columns are removed.  For every non-empty capture the data
    row has one cell per header, each read from the feature of that name, and
    the 78 feature cells hold numbers. *)
Theorem C1_schema_columns :
  AGGREGATED_CSV_HEADERS = Spec.schema
  /\ length AGGREGATED_CSV_HEADERS = 84%nat
  /\ NoDup AGGREGATED_CSV_HEADERS
  /\ length (Spec.featureColumns AGGREGATED_CSV_HEADERS) = 78%nat
  /\ (forall column, In column Spec.metadataColumns ->
        In column AGGREGATED_CSV_HEADERS)
  /\ (forall sqrt hypot parseFloat toString sample rest age gender,
        exists features,
          computeAggregatedFeatures sqrt hypot parseFloat (sample :: rest) age gender
            = Some features
          /\ map fst features = AGGREGATED_CSV_HEADERS
          /\ length (csvRow toString features) = 84%nat
          /\ (forall column,
                In column (Spec.featureColumns AGGREGATED_CSV_HEADERS) ->
                Spec.isNumberCell (getProperty features column))
          /\ finalizeAssessment sqrt hypot parseFloat toString
               {| status := running; samples := sample :: rest |} age gender
             = ({| status := complete; samples := sample :: rest |},
                CsvBlob (join (String newline EmptyString)
                           [join "," Spec.schema;
                            join "," (csvRow toString features)])
                        (lengthZ (sample :: rest)))).
Proof.
  split; [reflexivity|].
  split; [reflexivity|].
  split; [apply (bool_decide_unpack _); vm_compute; reflexivity|].
  split; [reflexivity|].
  split.
  { intros column Hin. simpl in Hin.
    repeat destruct Hin as [<-|Hin]; try contradiction;
      apply (bool_decide_unpack _); vm_compute; reflexivity. }
  intros sqrt hypot parseFloat toString sample rest age gender.
  unfold finalizeAssessment, computeAggregatedFeatures.
  replace (lengthZ (sample :: rest) =? 0) with false
    by (unfold lengthZ; simpl; reflexivity).
  cbv zeta. eexists. split; [reflexivity|].
  split; [reflexivity|].
  split; [reflexivity|].
  split; [|reflexivity].
  intros column Hin.
  let columns := eval vm_compute in (Spec.featureColumns AGGREGATED_CSV_HEADERS) in
  change (Spec.featureColumns AGGREGATED_CSV_HEADERS) with columns in Hin.
  repeat (destruct Hin as [<-|Hin]; [exact I|]).
  destruct Hin.
Qed.

(** C1, as stated, fails on the counts: the schema has 84 columns and 78
    feature columns, not 81 and 75. *)
Lemma C1_counts_are_not_81_and_75 :
  ~ (AGGREGATED_CSV_HEADERS = Spec.schema
     /\ length AGGREGATED_CSV_HEADERS = 81%nat
     /\ length (Spec.featureColumns AGGREGATED_CSV_HEADERS) = 75%nat).
Proof. intros (_ & Htotal & _). vm_compute in Htotal. discriminate. Qed.

(** C2. An empty sample window yields no feature vector: the aggregator
    returns [null], and finalisation reports the error without serialising a
    record.  Every non-empty window yields a vector in which each schema column
    is present and holds a number or a string, serialised with one cell per
    column; statistics over no values default to zero. *)
Theorem C2_empty_window_is_rejected :
  forall sqrt hypot parseFloat toString age gender,
    computeAggregatedFeatures sqrt hypot parseFloat [] age gender = None
    /\ finalizeAssessment sqrt hypot parseFloat toString
         {| status := running; samples := [] |} age gender
       = ({| status := complete; samples := [] |},
          SetError "Unable to compute features from samples.")
    /\ computeStats sqrt [] = zeroStats
    /\ averageOrZero [] = 0%Q
    /\ (forall sample rest,
          exists features,
            computeAggregatedFeatures sqrt hypot parseFloat (sample :: rest) age gender
              = Some features
            /\ length (csvRow toString features) = length AGGREGATED_CSV_HEADERS
            /\ Forall (fun column =>
                         match getProperty features column with
                         | JNum _ | JStr _ => True
                         | _ => False
                         end) AGGREGATED_CSV_HEADERS).
Proof.
  intros sqrt hypot parseFloat toString age gender.
  repeat (split; [reflexivity|]).
  intros sample rest.
  unfold computeAggregatedFeatures.
  replace (lengthZ (sample :: rest) =? 0) with false
    by (unfold lengthZ; simpl; reflexivity).
  cbv zeta. eexists. split; [reflexivity|].
  split; [reflexivity|].
  unfold AGGREGATED_CSV_HEADERS.
  repeat (apply Forall_cons; split; [exact I|]).
  apply Forall_nil. exact I.
Qed.

(** C2, as stated, fails: for the empty window there is neither a feature
    vector nor a serialised record. *)
Lemma C2_empty_window_has_no_vector :
  computeAggregatedFeatures Runtime.sqrt Runtime.hypot Runtime.parseFloat
    [] "7" (Some "M") = None
  /\ snd (finalizeAssessment Runtime.sqrt Runtime.hypot Runtime.parseFloat
            Runtime.toString
            {| status := running; samples := [] |} "7" (Some "M"))
     = SetError "Unable to compute features from samples.".
Proof. split; reflexivity. Qed.

(** ** Blink state machine *)

Lemma blinkStep_state averageOpenness dateNow internal :
  blinkState (blinkStep averageOpenness dateNow internal)
    = match blinkState internal with
      | open => if Num.ltb averageOpenness BLINK_THRESHOLD then closed else open
      | closed =>
          if Num.gtb averageOpenness blinkOpenThreshold then open else closed
      end.
Proof.
  unfold blinkStep.
  destruct (Num.ltb averageOpenness BLINK_THRESHOLD),
           (Num.gtb averageOpenness blinkOpenThreshold),
           (blinkState internal) eqn:Hstate; simpl; auto.
Qed.

Lemma blinkStep_count averageOpenness dateNow internal :
  blinkCount (blinkStep averageOpenness dateNow internal)
    = blinkCount internal
      + match blinkState internal,
              blinkState (blinkStep averageOpenness dateNow internal) with
        | open, closed => 1
        | _, _ => 0
        end.
Proof.
  rewrite blinkStep_state. unfold blinkStep.
  destruct (Num.ltb averageOpenness BLINK_THRESHOLD),
           (Num.gtb averageOpenness blinkOpenThreshold),
           (blinkState internal) eqn:Hstate; simpl; lia.
Qed.

Lemma onResults_count frame internal :
  blinkCount (onResults frame internal)
    = blinkCount internal
      + match blinkState internal, blinkState (onResults frame internal) with
        | open, closed => 1
        | _, _ => 0
        end.
Proof.
  destruct frame as [| |l r now]; cbn [onResults].
  - destruct (blinkState internal); lia.
  - simpl. destruct (blinkState internal); lia.
  - rewrite blinkStep_count. reflexivity.
Qed.

Lemma stateTrace_head frames internal :
  exists rest, Spec.stateTrace frames internal = blinkState internal :: rest.
Proof. destruct frames; simpl; eauto. Qed.

Lemma processFrames_blinkCount frames : forall internal,
  blinkCount (processFrames frames internal)
    = blinkCount internal + Spec.closings (Spec.stateTrace frames internal).
Proof.
  induction frames as [|frame frames IH]; intros internal.
  - simpl. destruct (blinkState internal); lia.
  - change (processFrames (frame :: frames) internal)
      with (processFrames frames (onResults frame internal)).
    rewrite IH, onResults_count.
    cbn [Spec.stateTrace Spec.closings].
    destruct (stateTrace_head frames (onResults frame internal)) as [rest ->].
    destruct (blinkState internal), (blinkState (onResults frame internal)); lia.
Qed.

(** C5. One step of the blink detector goes from open to closed exactly when
    the average openness is below 0.18 while open, and from closed to open
    exactly when it is above 0.24 while closed; the blink counter grows by
    one on an open-to-closed step and stays as it is on every other step.
    Over a run of frames the counter therefore grows by the number of
    open-to-closed transitions: five for ten frames alternating openness 0.05
    and 0.9, and one, not three, for three frames at 0.05 followed by 0.9. *)
Theorem C5_blink_hysteresis :
  (forall averageOpenness dateNow internal,
     let internal' := blinkStep averageOpenness dateNow internal in
     ((blinkState internal = open /\ blinkState internal' = closed)
        <-> (blinkState internal = open /\ (averageOpenness < 18 # 100)%Q))
     /\ ((blinkState internal = closed /\ blinkState internal' = open)
        <-> (blinkState internal = closed /\ (24 # 100 < averageOpenness)%Q))
     /\ blinkCount internal'
        = blinkCount internal
          + match blinkState internal, blinkState internal' with
            | open, closed => 1
            | _, _ => 0
            end)
  /\ (forall frames internal,
        blinkCount (processFrames frames internal)
          = blinkCount internal + Spec.closings (Spec.stateTrace frames internal))
  /\ blinkCount
       (processFrames
          (Spec.faces 0 [5 # 100; 9 # 10; 5 # 100; 9 # 10; 5 # 100; 9 # 10;
                         5 # 100; 9 # 10; 5 # 100; 9 # 10]%Q)
          initialInternal) = 5
  /\ blinkCount
       (processFrames (Spec.faces 0 [5 # 100; 5 # 100; 5 # 100; 9 # 10]%Q)
                      initialInternal) = 1
  /\ blinkCount
       (processFrames (Spec.faces 0 [5 # 100; 20 # 100; 5 # 100]%Q)
                      initialInternal) = 1.
Proof.
  split; [|split; [apply processFrames_blinkCount|repeat split; reflexivity]].
  intros averageOpenness dateNow internal internal'. subst internal'.
  split; [|split; [|apply blinkStep_count]].
  - rewrite blinkStep_state.
    change (18 # 100)%Q with BLINK_THRESHOLD. rewrite <- ltb_lt.
    destruct (blinkState internal);
      destruct (Num.ltb averageOpenness BLINK_THRESHOLD);
      destruct (Num.gtb averageOpenness blinkOpenThreshold);
      intuition congruence.
  - rewrite blinkStep_state.
    change (24 # 100 < averageOpenness)%Q
      with (blinkOpenThreshold < averageOpenness)%Q.
    rewrite <- ltb_lt. fold (Num.gtb averageOpenness blinkOpenThreshold).
    destruct (blinkState internal);
      destruct (Num.ltb averageOpenness BLINK_THRESHOLD);
      destruct (Num.gtb averageOpenness blinkOpenThreshold);
      intuition congruence.
Qed.

(** ** Segment counts *)

Section SegmentCounts.

Lemma countLoopFrom_tally segmentSize samples : forall idx counts,
  blinkCounts (countLoopFrom segmentSize samples idx counts)
    = tallyFrom (eitherEye Blink) segmentSize samples idx (blinkCounts counts)
  /\ fixCounts (countLoopFrom segmentSize samples idx counts)
    = tallyFrom (eitherEye Fixation) segmentSize samples idx (fixCounts counts)
  /\ sacCounts (countLoopFrom segmentSize samples idx counts)
    = tallyFrom (eitherEye Saccade) segmentSize samples idx (sacCounts counts).
Proof.
  induction samples as [|sample rest IH]; intros idx counts; simpl.
  - auto.
  - destruct (IH (idx + 1) (countBody segmentSize sample idx counts))
      as (Hb & Hf & Hs).
    rewrite Hb, Hf, Hs. auto.
Qed.

Lemma segmentSizeOf_ceiling n : segmentSizeOf n = Spec.ceilingSize n.
Proof.
  unfold segmentSizeOf, Spec.ceilingSize, Qceiling, Qfloor. simpl.
  rewrite Z.mul_1_r.
  change (Z.pos (1 * 4)) with 4.
  pose proof (Z.div_mod (- n) 4 ltac:(lia)).
  pose proof (Z.mod_pos_bound (- n) 4 ltac:(lia)).
  pose proof (Z.div_mod (n + 3) 4 ltac:(lia)).
  pose proof (Z.mod_pos_bound (n + 3) 4 ltac:(lia)).
  lia.
Qed.

Lemma segmentOf_div idx size : segmentOf idx size = Z.min 3 (idx / size).
Proof. unfold segmentOf. now rewrite <- Zdiv_Qdiv. Qed.

Lemma segmentOf_range idx size : 0 <= idx -> 0 < size ->
  0 <= segmentOf idx size <= 3.
Proof.
  intros Hidx Hsize. rewrite segmentOf_div.
  pose proof (Z.div_pos idx size Hidx Hsize). lia.
Qed.

Lemma segmentOf_inSegment idx size k : 0 <= idx -> 0 < size -> 0 <= k <= 3 ->
  Spec.inSegment size k idx = bool_decide (segmentOf idx size = k).
Proof.
  intros Hidx Hsize Hk. rewrite segmentOf_div. unfold Spec.inSegment.
  pose proof (Z.div_mod idx size ltac:(lia)) as Hdm.
  pose proof (Z.mod_pos_bound idx size Hsize) as Hmod.
  destruct (Z.ltb_spec k 3).
  - case_bool_decide as Hseg.
    + apply andb_true_iff. split; [apply Z.leb_le|apply Z.ltb_lt]; nia.
    + apply andb_false_iff.
      destruct (Z.leb_spec (k * size) idx); [|now left].
      destruct (Z.ltb_spec idx ((k + 1) * size)); [|now right].
      exfalso. apply Hseg.
      assert (idx / size = k) by nia. lia.
  - assert (k = 3) by lia. subst k.
    case_bool_decide as Hseg.
    + apply Z.leb_le. nia.
    + apply Z.leb_gt. assert (idx / size < 3) by lia. nia.
Qed.

Lemma countAt_increment segment counts k :
  0 <= segment -> (Z.to_nat segment < length counts)%nat ->
  countAt (increment segment counts) k
    = countAt counts k + (if bool_decide (Z.to_nat segment = k) then 1 else 0).
Proof.
  unfold countAt, increment. intros Hseg.
  generalize (Z.to_nat segment) as i. clear.
  intros i. revert i k.
  induction counts as [|c counts IH]; intros i k Hlen; simpl in Hlen; [lia|].
  destruct i as [|i], k as [|k]; cbn [list_alter alter nth].
  - rewrite bool_decide_eq_true_2 by reflexivity. lia.
  - rewrite bool_decide_eq_false_2 by discriminate. lia.
  - rewrite bool_decide_eq_false_2 by discriminate. lia.
  - rewrite IH by lia. repeat case_bool_decide; try lia; congruence.
Qed.

Lemma increment_length segment counts :
  length (increment segment counts) = length counts.
Proof. unfold increment. apply length_alter. Qed.

Lemma tallyFrom_length p size samples : forall idx counts,
  length (tallyFrom p size samples idx counts) = length counts.
Proof.
  induction samples as [|sample rest IH]; intros idx counts; simpl; [easy|].
  rewrite IH. destruct (p sample); [apply increment_length|easy].
Qed.

(** What segment [k] of a counter holds once the loop has run from [idx]. *)
Lemma tallyFrom_slot p size samples : forall idx counts k,
  0 <= idx -> 0 < size -> length counts = 4%nat -> 0 <= k <= 3 ->
  countAt (tallyFrom p size samples idx counts) (Z.to_nat k)
    = countAt counts (Z.to_nat k)
      + lengthZ
          (List.filter
             (fun entry => Spec.inSegment size k (fst entry) && p (snd entry))
             (Spec.indexedFrom idx samples)).
Proof.
  induction samples as [|sample rest IH]; intros idx counts k Hidx Hsize Hlen Hk;
    simpl.
  - unfold lengthZ. simpl. lia.
  - pose proof (segmentOf_range idx size Hidx Hsize) as Hrange.
    rewrite IH; try lia; [|destruct (p sample); rewrite ?increment_length; lia].
    rewrite (segmentOf_inSegment idx size k) by lia.
    destruct (p sample).
    + rewrite countAt_increment by lia.
      rewrite andb_true_r.
      repeat case_bool_decide; unfold lengthZ; simpl; lia.
    + rewrite andb_false_r. reflexivity.
Qed.

Lemma sumCounts_four a b c d : sumCounts [a; b; c; d] = a + b + c + d.
Proof. unfold sumCounts. simpl. lia. Qed.

Lemma four_slots (counts : list Z) : length counts = 4%nat ->
  counts = [countAt counts 0; countAt counts 1; countAt counts 2; countAt counts 3].
Proof.
  destruct counts as [|a [|b [|c [|d [|e rest]]]]]; simpl; intros H;
    try discriminate. reflexivity.
Qed.

(** The total of a counter grows by one for each sample that satisfies [p]. *)
Lemma tallyFrom_total p size samples : forall idx counts,
  0 <= idx -> 0 < size -> length counts = 4%nat ->
  sumCounts (tallyFrom p size samples idx counts)
    = sumCounts counts + lengthZ (List.filter p samples).
Proof.
  induction samples as [|sample rest IH]; intros idx counts Hidx Hsize Hlen;
    simpl.
  - unfold lengthZ. simpl. lia.
  - pose proof (segmentOf_range idx size Hidx Hsize) as Hrange.
    destruct (p sample) eqn:Hp.
    + rewrite IH; try lia; [|now rewrite increment_length].
      assert (sumCounts (increment (segmentOf idx size) counts)
              = sumCounts counts + 1) as ->.
      { rewrite (four_slots (increment (segmentOf idx size) counts))
          by now rewrite increment_length.
        rewrite (four_slots counts) at 5 by assumption.
        rewrite !sumCounts_four.
        rewrite !countAt_increment by lia.
        assert (Z.to_nat (segmentOf idx size) = 0 \/ Z.to_nat (segmentOf idx size) = 1
                \/ Z.to_nat (segmentOf idx size) = 2
                \/ Z.to_nat (segmentOf idx size) = 3)%nat as Hcase by lia.
        repeat case_bool_decide; lia. }
      unfold lengthZ. simpl. lia.
    + rewrite IH by lia. reflexivity.
Qed.

Lemma ceilingSize_bounds n : 0 < n ->
  0 < Spec.ceilingSize n /\ n <= 4 * Spec.ceilingSize n.
Proof.
  intros Hn. unfold Spec.ceilingSize.
  pose proof (Z.div_mod (n + 3) 4 ltac:(lia)).
  pose proof (Z.mod_pos_bound (n + 3) 4 ltac:(lia)).
  lia.
Qed.

Lemma segmentOf_contiguous idx size : 0 <= idx < 4 * size ->
  segmentOf idx size * size <= idx < (segmentOf idx size + 1) * size.
Proof.
  intros Hidx. rewrite segmentOf_div.
  assert (0 < size) as Hsize by lia.
  pose proof (Z.div_mod idx size ltac:(lia)) as Hdm.
  pose proof (Z.mod_pos_bound idx size Hsize) as Hmod.
  assert (idx / size <= 3) by nia.
  rewrite Z.min_r by lia. nia.
Qed.

Lemma countSegments_slots p (samples : list GazeSample) :
  let slots :=
    tallyFrom p (segmentSizeOf (lengthZ samples)) samples 0 [0; 0; 0; 0] in
  length slots = 4%nat
  /\ countAt slots 0 + countAt slots 1 + countAt slots 2 + countAt slots 3
      = lengthZ (List.filter p samples)
  /\ Forall
       (fun k =>
          countAt slots (Z.to_nat k)
            = lengthZ
                (List.filter
                   (fun entry =>
                      Spec.inSegment (Spec.ceilingSize (lengthZ samples)) k
                                     (fst entry)
                      && p (snd entry))
                   (Spec.indexedFrom 0 samples)))
       [0; 1; 2; 3].
Proof.
  intros slots. subst slots. rewrite segmentSizeOf_ceiling.
  destruct samples as [|sample rest].
  { repeat split; repeat constructor. }
  remember (sample :: rest) as samples eqn:Hsamples.
  assert (0 < lengthZ samples) as Hn
    by (subst samples; unfold lengthZ; simpl; lia).
  destruct (ceilingSize_bounds _ Hn) as [Hsize _].
  split; [now rewrite tallyFrom_length|].
  split.
  - pose proof (tallyFrom_total p _ samples 0 [0; 0; 0; 0]
                  ltac:(lia) Hsize eq_refl) as Htotal.
    rewrite (four_slots (tallyFrom _ _ _ _ _)) in Htotal
      by now rewrite tallyFrom_length.
    rewrite sumCounts_four in Htotal. rewrite Htotal. reflexivity.
  - repeat (apply Forall_cons; split;
            [rewrite tallyFrom_slot by (try reflexivity; lia); reflexivity|]).
    apply Forall_nil. exact I.
Qed.

End SegmentCounts.

(** C6. For Blink, Fixation and Saccade alike, the four segment counters add
    up to the number of samples of the window in which either eye shows the
    category, and counter [k] holds those of them that lie in segment [k].
    The segment size is the sample count divided by four and rounded up, and
    every position of the window falls into the one segment whose range of
    that size contains it. *)
Theorem C6_segment_counts_sum (samples : list GazeSample) :
  let counts := countSegments samples in
  let size := segmentSizeOf (lengthZ samples) in
  Forall
    (fun '(category, slots) =>
       length slots = 4%nat
       /\ countAt slots 0 + countAt slots 1 + countAt slots 2 + countAt slots 3
           = Spec.categoryTotal category samples
       /\ Forall (fun k => countAt slots (Z.to_nat k)
                           = Spec.segmentTotal category samples k)
                 [0; 1; 2; 3])
    [ (Blink, blinkCounts counts); (Fixation, fixCounts counts);
      (Saccade, sacCounts counts) ]
  /\ size = Spec.ceilingSize (lengthZ samples)
  /\ Forall
       (fun idx =>
          0 <= segmentOf idx size <= 3
          /\ segmentOf idx size * size <= idx < (segmentOf idx size + 1) * size
          /\ Forall (fun k => Spec.inSegment size k idx
                              = bool_decide (segmentOf idx size = k))
                    [0; 1; 2; 3])
       (seqZ 0 (lengthZ samples)).
Proof.
  intros counts size. subst counts size.
  split; [|split; [apply segmentSizeOf_ceiling|]].
  - unfold countSegments.
    destruct (countLoopFrom_tally (segmentSizeOf (lengthZ samples)) samples 0
                zeroCounts) as (Hb & Hf & Hs).
    rewrite Hb, Hf, Hs. simpl blinkCounts. simpl fixCounts. simpl sacCounts.
    repeat (apply Forall_cons; split; [apply countSegments_slots|]).
    apply Forall_nil. exact I.
  - rewrite segmentSizeOf_ceiling. apply Forall_forall. intros idx Hidx.
    apply elem_of_seqZ in Hidx.
    assert (0 < lengthZ samples) as Hn by lia.
    destruct (ceilingSize_bounds _ Hn) as [Hsize Hcover].
    split; [apply segmentOf_range; lia|].
    split; [apply segmentOf_contiguous; lia|].
    repeat (apply Forall_cons; split; [apply segmentOf_inSegment; lia|]).
    apply Forall_nil. exact I.
Qed.


(** ** Frame counters and tracking ratio *)

Lemma toFixedUnits_mono (x y : Q) (digits : Z) :
  (x <= y)%Q -> Num.toFixedUnits x digits <= Num.toFixedUnits y digits.
Proof.
  intros Hxy. unfold Num.toFixedUnits.
  assert (0 <= inject_Z (10 ^ digits))%Q as Hscale.
  { change 0%Q with (inject_Z 0). rewrite <- Zle_Qle. apply Z.pow_nonneg. lia. }
  assert (forall z : Q, 0 <= Qfloor (Qabs z * inject_Z (10 ^ digits) + (1 # 2))%Q)
    as Hnonneg.
  { intros z. change 0 with (Qfloor 0). apply Qfloor_resp_le.
    pose proof (Qabs_nonneg z) as Hz.
    pose proof (Qmult_le_0_compat _ _ Hz Hscale). lra. }
  destruct (Qle_bool 0 x) eqn:Hx, (Qle_bool 0 y) eqn:Hy.
  - apply Qle_bool_iff in Hx, Hy. apply Qfloor_resp_le.
    rewrite !Qabs_pos by assumption.
    pose proof (Qmult_le_compat_r _ _ _ Hxy Hscale). lra.
  - apply Qle_bool_iff in Hx.
    assert (~ (0 <= y)%Q) by (intros Hge; apply Qle_bool_iff in Hge; congruence).
    exfalso. lra.
  - pose proof (Hnonneg x). pose proof (Hnonneg y). lia.
  - assert (~ (0 <= x)%Q) by (intros Hge; apply Qle_bool_iff in Hge; congruence).
    assert (~ (0 <= y)%Q) by (intros Hge; apply Qle_bool_iff in Hge; congruence).
    apply Z.opp_le_mono. rewrite !Z.opp_involutive. apply Qfloor_resp_le.
    rewrite !Qabs_neg by lra.
    assert (- y <= - x)%Q as Hopp by lra.
    pose proof (Qmult_le_compat_r _ _ _ Hopp Hscale). lra.
Qed.

Lemma toFixed_mono (x y : Q) (digits : Z) :
  (x <= y)%Q -> (Num.toFixed x digits <= Num.toFixed y digits)%Q.
Proof.
  intros Hxy. unfold Num.toFixed.
  pose proof (toFixedUnits_mono x y digits Hxy) as Hunits.
  rewrite Zle_Qle in Hunits.
  destruct (Z.le_gt_cases digits (-1)) as [Hneg|Hpos].
  - rewrite Z.pow_neg_r by lia. unfold Qdiv, Qinv. simpl. lra.
  - assert (0 < inject_Z (10 ^ digits))%Q as Hscale.
    { change 0%Q with (inject_Z 0). rewrite <- Zlt_Qlt. apply Z.pow_pos_nonneg; lia. }
    apply Qle_shift_div_l; [assumption|].
    unfold Qdiv. rewrite <- Qmult_assoc, (Qmult_comm (/ _)), Qmult_inv_r by lra.
    lra.
Qed.

Lemma trackingRatioOf_mono (valid1 valid2 total : Z) :
  valid1 <= valid2 ->
  (trackingRatioOf valid1 total <= trackingRatioOf valid2 total)%Q.
Proof.
  intros Hvalid. unfold trackingRatioOf.
  destruct (Z.ltb_spec 0 total) as [Htotal|Htotal]; [|lra].
  apply toFixed_mono.
  assert (0 < inject_Z total)%Q as Hpos
    by (change 0%Q with (inject_Z 0); now rewrite <- Zlt_Qlt).
  rewrite Zle_Qle in Hvalid.
  apply Qmult_le_compat_r; [|lra].
  apply Qmult_le_compat_r; [assumption|].
  apply Qlt_le_weak, Qinv_lt_0_compat, Hpos.
Qed.

Lemma trackingRatioOf_range (valid total : Z) :
  0 <= valid <= total ->
  (0 <= trackingRatioOf valid total)%Q /\ (trackingRatioOf valid total <= 100)%Q.
Proof.
  intros [Hlow Hhigh]. unfold trackingRatioOf.
  destruct (Z.ltb_spec 0 total) as [Htotal|Htotal]; [|lra].
  assert (0 < inject_Z total)%Q as Hpos
    by (change 0%Q with (inject_Z 0); now rewrite <- Zlt_Qlt).
  rewrite Zle_Qle in Hlow, Hhigh. change (inject_Z 0) with 0%Q in Hlow.
  assert (0 <= inject_Z valid / inject_Z total)%Q as Hratio0.
  { apply Qle_shift_div_l; [assumption|lra]. }
  assert (inject_Z valid / inject_Z total <= 1)%Q as Hratio1.
  { apply Qle_shift_div_r; [assumption|lra]. }
  split.
  - apply Qle_trans with (Num.toFixed 0 2);
      [vm_compute; discriminate|apply toFixed_mono; lra].
  - apply Qle_trans with (Num.toFixed 100 2);
      [apply toFixed_mono; lra|vm_compute; discriminate].
Qed.

Lemma onResults_counters frame internal :
  samplesTotal (onResults frame internal)
    = samplesTotal internal + (if Spec.isProcessed frame then 1 else 0)
  /\ samplesValid (onResults frame internal)
    = samplesValid internal + (if Spec.isFace frame then 1 else 0).
Proof.
  destruct frame as [| |l r now]; simpl; try lia.
  unfold blinkStep.
  destruct (Num.ltb _ BLINK_THRESHOLD), (Num.gtb _ blinkOpenThreshold),
           (blinkState internal); simpl; lia.
Qed.

Lemma processFrames_counters frames : forall internal,
  samplesTotal (processFrames frames internal)
    = samplesTotal internal + lengthZ (List.filter Spec.isProcessed frames)
  /\ samplesValid (processFrames frames internal)
    = samplesValid internal + lengthZ (List.filter Spec.isFace frames).
Proof.
  induction frames as [|frame frames IH]; intros internal.
  - unfold lengthZ. simpl. lia.
  - change (processFrames (frame :: frames) internal)
      with (processFrames frames (onResults frame internal)).
    destruct (IH (onResults frame internal)) as [-> ->].
    destruct (onResults_counters frame internal) as [-> ->].
    unfold lengthZ.
    destruct frame; simpl; lia.
Qed.

Lemma filter_isFace_le frames :
  lengthZ (List.filter Spec.isFace frames)
    <= lengthZ (List.filter Spec.isProcessed frames).
Proof.
  unfold lengthZ.
  induction frames as [|[| |l r now] frames IH]; simpl; lia.
Qed.

(** C7. After any sequence of frames the valid-frame counter lies between 0 and
    the total-frame counter, so the tracking ratio computed from them lies
    between 0 and 100; and for one total the ratio does not decrease when the
    valid count grows. *)
Theorem C7_tracking_ratio_bounds :
  (forall frames,
     let internal := processFrames frames initialInternal in
     samplesTotal internal = lengthZ (List.filter Spec.isProcessed frames)
     /\ samplesValid internal = lengthZ (List.filter Spec.isFace frames)
     /\ 0 <= samplesValid internal <= samplesTotal internal
     /\ (0 <= publishedTrackingRatio internal)%Q
     /\ (publishedTrackingRatio internal <= 100)%Q)
  /\ (forall total valid1 valid2,
        valid1 <= valid2 ->
        (trackingRatioOf valid1 total <= trackingRatioOf valid2 total)%Q).
Proof.
  split.
  - intros frames internal. subst internal.
    destruct (processFrames_counters frames initialInternal) as [Htotal Hvalid].
    simpl in Htotal, Hvalid.
    pose proof (filter_isFace_le frames) as Hle.
    assert (0 <= lengthZ (List.filter Spec.isFace frames)) as Hpos
      by (unfold lengthZ; lia).
    split; [assumption|]. split; [assumption|].
    split; [lia|].
    apply trackingRatioOf_range. lia.
  - intros total valid1 valid2. apply trackingRatioOf_mono.
Qed.

(** ** One-axis calibration fit *)

Lemma computeAxisMapping_degenerate (measured target : list Q) :
  (Spec.sumSquaredDeviations measured < 1 # 1000000)%Q ->
  scale (computeAxisMapping measured target) = 1%Q
  /\ (offset (computeAxisMapping measured target)
      == Spec.average target - Spec.average measured)%Q.
Proof.
  intros Hsmall. unfold computeAxisMapping.
  rewrite (ltb_proper _ (Spec.sumSquaredDeviations measured))
    by (rewrite or_else_0; apply squaredDeviations_spec).
  apply ltb_lt in Hsmall. rewrite Hsmall. cbn [scale offset].
  split; [reflexivity|]. now rewrite !mean_average.
Qed.

Lemma computeAxisMapping_regular (measured target : list Q) :
  length measured = length target ->
  ~ (Spec.sumSquaredDeviations measured < 1 # 1000000)%Q ->
  (scale (computeAxisMapping measured target)
   == Spec.sumCrossDeviations measured target / Spec.sumSquaredDeviations measured)%Q
  /\ (offset (computeAxisMapping measured target)
      == Spec.average target
         - scale (computeAxisMapping measured target) * Spec.average measured)%Q.
Proof.
  intros Hlen Hlarge. unfold computeAxisMapping.
  rewrite (ltb_proper _ (Spec.sumSquaredDeviations measured))
    by (rewrite or_else_0; apply squaredDeviations_spec).
  destruct (Num.ltb (Spec.sumSquaredDeviations measured) (1 # 1000000)) eqn:Hlt.
  { apply ltb_lt in Hlt. contradiction. }
  cbn [scale offset].
  assert (crossDeviations measured target (mean measured) (mean target)
            / Num.or_else (squaredDeviations measured (mean measured)) 0
          == Spec.sumCrossDeviations measured target
             / Spec.sumSquaredDeviations measured)%Q as Hratio
    by now rewrite or_else_0, squaredDeviations_spec, crossDeviations_spec.
  split; [exact Hratio|].
  set (ratio := (crossDeviations _ _ _ _ / Num.or_else _ 0)%Q) in *.
  now rewrite !mean_average.
Qed.

(** C3. The degenerate case of the one-axis fit is decided on the sum of
    squared deviations of the measured values, that is on their variance
    multiplied by their number: below 1e-6 the fit is the pure translation
    (scale 1, offset mean(target) - mean(measured)); otherwise the scale is
    covariance(measured, target) / variance(measured) and the offset is
    mean(target) - scale * mean(measured).  Measured values that are all
    identical fall under the degenerate case. *)
Theorem C3_axis_mapping (measured target : list Q)
    (Hlen : length measured = length target) :
  let fit := computeAxisMapping measured target in
  let n := inject_Z (lengthZ measured) in
  ((n * Spec.variance measured < 1 # 1000000)%Q ->
     scale fit = 1%Q
     /\ (offset fit == Spec.average target - Spec.average measured)%Q)
  /\ (~ (n * Spec.variance measured < 1 # 1000000)%Q ->
        (scale fit == Spec.covariance measured target / Spec.variance measured)%Q
        /\ (offset fit == Spec.average target - scale fit * Spec.average measured)%Q)
  /\ (forall c, Forall (fun v => v == c)%Q measured ->
        scale fit = 1%Q
        /\ (offset fit == Spec.average target - Spec.average measured)%Q).
Proof.
  intros fit n. subst fit n.
  split; [|split].
  - rewrite variance_scaled. apply computeAxisMapping_degenerate.
  - rewrite variance_scaled. intros Hlarge.
    destruct (computeAxisMapping_regular measured target Hlen Hlarge)
      as [Hscale Hoffset].
    split; [|assumption].
    rewrite Hscale. unfold Spec.covariance, Spec.variance.
    destruct measured as [|x measured].
    { exfalso. apply Hlarge. reflexivity. }
    field. split; [apply lengthZ_nonzero|].
    intros Hzero. apply Hlarge. rewrite Hzero. reflexivity.
  - intros c Hall. apply computeAxisMapping_degenerate.
    now rewrite (sumSquaredDeviations_all_equal c).
Qed.

(** An instance of C3: the five calibration targets measured at almost the
    same place, a pair of lists of one length. *)
Lemma C3_axis_mapping_witness :
  length Examples.nearlyConstantMeasured = length Examples.targetXs
  /\ let fit :=
       computeAxisMapping Examples.nearlyConstantMeasured Examples.targetXs in
     (scale fit == Spec.covariance Examples.nearlyConstantMeasured Examples.targetXs
                   / Spec.variance Examples.nearlyConstantMeasured)%Q.
Proof.
  split; [reflexivity|].
  apply (C3_axis_mapping Examples.nearlyConstantMeasured Examples.targetXs
           eq_refl).
  vm_compute. discriminate.
Defined.

(** C3, as stated, fails when the threshold is read on the variance: these five
    measured values have variance 5.6e-7, below 1e-6, and the fitted scale is
    1500 / 7, not 1. *)
Lemma C3_small_variance_is_not_degenerate :
  (Spec.variance Examples.nearlyConstantMeasured == 56 # 100000000)%Q
  /\ (Spec.variance Examples.nearlyConstantMeasured < 1 # 1000000)%Q
  /\ (scale (computeAxisMapping Examples.nearlyConstantMeasured Examples.targetXs)
      == 1500 # 7)%Q
  /\ ~ (scale (computeAxisMapping Examples.nearlyConstantMeasured Examples.targetXs)
        == 1)%Q.
Proof.
  split; [reflexivity|]. split; [reflexivity|]. split; [reflexivity|].
  vm_compute. discriminate.
Qed.

(** ** Fit of exactly affine recordings *)

Section AffineFit.

Variables a b : Q.

Lemma affine_sum (ms ts : list Q) :
  Forall2 (fun m t => t == a * m + b)%Q ms ts ->
  (sum ts == a * sum ms + inject_Z (lengthZ ms) * b)%Q.
Proof.
  induction 1 as [|m t ms ts Hmt Hrest IH].
  - unfold sum, lengthZ. simpl. ring.
  - rewrite !sum_cons, IH, Hmt. unfold lengthZ. simpl length.
    rewrite Nat2Z.inj_succ, <- Z.add_1_r, inject_Z_plus. ring.
Qed.

Lemma affine_average (ms ts : list Q) : ms <> [] ->
  Forall2 (fun m t => t == a * m + b)%Q ms ts ->
  (Spec.average ts == a * Spec.average ms + b)%Q.
Proof.
  intros Hne Hall. unfold Spec.average.
  rewrite (affine_sum ms ts Hall).
  assert (lengthZ ts = lengthZ ms) as ->
    by (unfold lengthZ; now rewrite (Forall2_length _ _ _ Hall)).
  destruct ms as [|m ms]; [congruence|].
  field. apply lengthZ_nonzero.
Qed.

Lemma affine_cross (mu tau : Q) (ms ts : list Q) :
  (tau == a * mu + b)%Q ->
  Forall2 (fun m t => t == a * m + b)%Q ms ts ->
  (sum (map (fun p => (fst p - mu) * (snd p - tau)) (combine ms ts))
   == a * sum (map (fun v => (v - mu) * (v - mu)) ms))%Q.
Proof.
  intros Htau. induction 1 as [|m t ms ts Hmt Hrest IH].
  - simpl. unfold sum. simpl. ring.
  - cbn [combine map]. rewrite !sum_cons, IH. cbn [fst snd].
    rewrite Hmt, Htau. ring.
Qed.

Lemma computeAxisMapping_affine (ms ts : list Q) : ms <> [] ->
  Forall2 (fun m t => t == a * m + b)%Q ms ts ->
  (a == 1)%Q \/ ~ (Spec.sumSquaredDeviations ms < 1 # 1000000)%Q ->
  (scale (computeAxisMapping ms ts) == a)%Q
  /\ (offset (computeAxisMapping ms ts) == b)%Q.
Proof.
  intros Hne Hall Hcase.
  pose proof (affine_average ms ts Hne Hall) as Havg.
  destruct (Qlt_le_dec (Spec.sumSquaredDeviations ms) (1 # 1000000))
    as [Hsmall|Hlarge].
  - destruct Hcase as [Ha|Hno]; [|contradiction].
    destruct (computeAxisMapping_degenerate ms ts Hsmall) as [-> ->].
    split; [now rewrite Ha|]. rewrite Havg, Ha. ring.
  - assert (~ (Spec.sumSquaredDeviations ms < 1 # 1000000)%Q) as Hno
      by (now apply Qle_not_lt).
    destruct (computeAxisMapping_regular ms ts (Forall2_length _ _ _ Hall) Hno)
      as [Hscale Hoffset].
    assert (scale (computeAxisMapping ms ts) == a)%Q as Ha.
    { rewrite Hscale. unfold Spec.sumCrossDeviations.
      rewrite (affine_cross _ _ ms ts Havg Hall).
      fold (Spec.sumSquaredDeviations ms).
      field. intros Hzero. rewrite Hzero in Hlarge.
      revert Hlarge. vm_compute. intros H. now apply H. }
    split; [assumption|]. rewrite Hoffset, Ha, Havg. ring.
Qed.

End AffineFit.

Lemma Forall2_of_pairs {A} (f g : A -> Q) (R : Q -> Q -> Prop) (l : list A) :
  Forall (fun x => R (f x) (g x)) l -> Forall2 R (map f l) (map g l).
Proof. induction 1; simpl; constructor; assumption. Qed.

Lemma clamp_unit (v t : Q) : (v == t)%Q -> (0 <= t)%Q -> (t <= 1)%Q ->
  (clamp v 0 1 == t)%Q.
Proof.
  intros Hv H0 H1. unfold clamp, Num.min, Num.max.
  destruct (Qle_bool v 0) eqn:Hle0.
  - apply Qle_bool_iff in Hle0.
    change (Qle_bool 0 1) with true. cbv iota. lra.
  - destruct (Qle_bool v 1) eqn:Hle1; [assumption|].
    assert (~ (v <= 1)%Q) by (intros Hle; apply Qle_bool_iff in Hle; congruence).
    lra.
Qed.

Lemma computeLinearMapping_affine (pairs : list CalibrationPair) (a b c d : Q) :
  pairs <> [] ->
  Forall (fun pair =>
            px (target pair) == a * px (measured pair) + b
            /\ py (target pair) == c * py (measured pair) + d)%Q pairs ->
  (a == 1)%Q \/ ~ (Spec.sumSquaredDeviations (measuredXs pairs) < 1 # 1000000)%Q ->
  (c == 1)%Q \/ ~ (Spec.sumSquaredDeviations (measuredYs pairs) < 1 # 1000000)%Q ->
  (scaleX (computeLinearMapping pairs) == a)%Q
  /\ (offsetX (computeLinearMapping pairs) == b)%Q
  /\ (scaleY (computeLinearMapping pairs) == c)%Q
  /\ (offsetY (computeLinearMapping pairs) == d)%Q.
Proof.
  intros Hne Hall Hx Hy. unfold computeLinearMapping.
  replace (lengthZ pairs =? 0) with false
    by (destruct pairs; [congruence|unfold lengthZ; simpl; reflexivity]).
  cbn [scaleX offsetX scaleY offsetY].
  assert (measuredXs pairs <> []) as HneX by (destruct pairs; [congruence|discriminate]).
  assert (measuredYs pairs <> []) as HneY by (destruct pairs; [congruence|discriminate]).
  destruct (computeAxisMapping_affine a b (measuredXs pairs)
              (map (fun pair => px (target pair)) pairs) HneX) as [HsX HoX];
    [apply Forall2_of_pairs; eapply Forall_impl; [exact Hall|];
     intros pair H; apply H|assumption|].
  destruct (computeAxisMapping_affine c d (measuredYs pairs)
              (map (fun pair => py (target pair)) pairs) HneY) as [HsY HoY];
    [apply Forall2_of_pairs; eapply Forall_impl; [exact Hall|];
     intros pair H; apply H|assumption|].
  auto.
Qed.

Lemma reproducesWithin_affine (model : CalibrationModel)
    (pairs : list CalibrationPair) (a b c d : Q) :
  (scaleX model == a)%Q -> (offsetX model == b)%Q ->
  (scaleY model == c)%Q -> (offsetY model == d)%Q ->
  Forall (fun pair =>
            px (target pair) == a * px (measured pair) + b
            /\ py (target pair) == c * py (measured pair) + d)%Q pairs ->
  Forall (fun pair =>
            (0 <= px (target pair) <= 1)%Q
            /\ (0 <= py (target pair) <= 1)%Q) pairs ->
  Spec.reproducesWithin Spec.tolerance model pairs = true.
Proof.
  intros HsX HoX HsY HoY Hall Hunit.
  unfold Spec.reproducesWithin. apply forallb_forall. intros pair Hin.
  apply list_elem_of_In in Hin.
  rewrite Forall_forall in Hall, Hunit.
  destruct (Hall pair Hin) as [Htx Hty].
  destruct (Hunit pair Hin) as [Hxrange Hyrange].
  cbn [applyCalibration px py].
  assert (clamp (scaleX model * px (measured pair) + offsetX model) 0 1
          == px (target pair))%Q as Hpx.
  { apply clamp_unit; try tauto. rewrite HsX, HoX, Htx. reflexivity. }
  assert (clamp (scaleY model * py (measured pair) + offsetY model) 0 1
          == py (target pair))%Q as Hpy.
  { apply clamp_unit; try tauto. rewrite HsY, HoY, Hty. reflexivity. }
  apply andb_true_intro.
  split; apply Qle_bool_iff, Qabs_Qle_condition; unfold Spec.tolerance;
    split; lra.
Qed.

(** C4. When the targets lie in the unit square and are, on each axis, an
    affine image of the measured coordinates (and on that axis the measured
    values are not degenerate, or the slope is 1), applying the fitted model
    to each measured point reproduces its target within the small tolerance.
    When every measured point equals its target the fitted model is the
    identity (scale 1, offset 0) on both axes.  Two recordings against the
    five calibration targets show the law at work: the targets measured
    exactly, and a gaze that moves half as far as the targets. *)
Theorem C4_calibration_roundtrip (pairs : list CalibrationPair) :
  let model := computeLinearMapping pairs in
  (Forall (fun pair =>
             px (measured pair) == px (target pair)
             /\ py (measured pair) == py (target pair))%Q pairs ->
     (scaleX model == 1)%Q /\ (offsetX model == 0)%Q
     /\ (scaleY model == 1)%Q /\ (offsetY model == 0)%Q)
  /\ (forall a b c d,
        pairs <> [] ->
        Forall (fun pair =>
                  px (target pair) == a * px (measured pair) + b
                  /\ py (target pair) == c * py (measured pair) + d)%Q pairs ->
        (a == 1)%Q
        \/ ~ (Spec.sumSquaredDeviations (measuredXs pairs) < 1 # 1000000)%Q ->
        (c == 1)%Q
        \/ ~ (Spec.sumSquaredDeviations (measuredYs pairs) < 1 # 1000000)%Q ->
        Forall (fun pair =>
                  (0 <= px (target pair) <= 1)%Q
                  /\ (0 <= py (target pair) <= 1)%Q) pairs ->
        Spec.reproducesWithin Spec.tolerance model pairs = true)
  /\ Spec.reproducesWithin Spec.tolerance
       (computeLinearMapping Examples.exactPairs) Examples.exactPairs = true
  /\ Spec.reproducesWithin Spec.tolerance
       (computeLinearMapping Examples.halvedPairs) Examples.halvedPairs = true.
Proof.
  intros model. subst model.
  split; [|split; [|split; vm_compute; reflexivity]].
  - intros Hsame.
    destruct pairs as [|pair pairs]; [repeat split; reflexivity|].
    apply (computeLinearMapping_affine (pair :: pairs) 1 0 1 0);
      [discriminate| |left; reflexivity|left; reflexivity].
    eapply Forall_impl; [exact Hsame|].
    intros p [Hx Hy]. cbv beta. rewrite Hx, Hy. split; ring.
  - intros a b c d Hne Hall Hx Hy Hunit.
    pose proof (computeLinearMapping_affine pairs a b c d Hne Hall Hx Hy)
      as (HsX & HoX & HsY & HoY).
    now apply (reproducesWithin_affine _ pairs a b c d).
Qed.

(** C4, as stated, fails: a least-squares line need not pass through the
    recorded points.  When the gaze stays at the centre for all five targets,
    or moves across the direction of the targets, every measured point is
    mapped to the centre, 0.3 away from four of the five targets on each
    axis; and a target outside the unit square is out of reach of the clamped
    result even when it is measured exactly. *)
Lemma C4_fit_does_not_reproduce_targets :
  Spec.reproducesWithin (1 # 4) (computeLinearMapping Examples.fixedGazePairs)
                        Examples.fixedGazePairs = false
  /\ Spec.reproducesWithin (1 # 4) (computeLinearMapping Examples.mirroredPairs)
                           Examples.mirroredPairs = false
  /\ ~ (Spec.sumSquaredDeviations (measuredXs Examples.mirroredPairs)
        < 1 # 1000000)%Q
  /\ scaleX (computeLinearMapping Examples.mirroredPairs) == 0
  /\ Spec.reproducesWithin (1 # 4) (computeLinearMapping Examples.outsidePairs)
                           Examples.outsidePairs = false.
Proof.
  split; [vm_compute; reflexivity|].
  split; [vm_compute; reflexivity|].
  split; [vm_compute; discriminate|].
  split; vm_compute; reflexivity.
Qed.
(** ** Rendering of cells *)

Section Rounding.

Lemma toFixed_near (x : Q) :
  (Qabs (Num.toFixed x 3 - x) <= 1 # 2000)%Q.
Proof.
  unfold Num.toFixed, Num.toFixedUnits.
  change (inject_Z (10 ^ 3)) with 1000%Q.
  set (y := (Qabs x * 1000 + (1 # 2))%Q).
  pose proof (Qfloor_le y) as Hlow. pose proof (Qlt_floor y) as Hhigh.
  rewrite inject_Z_plus in Hhigh. change (inject_Z 1) with 1%Q in Hhigh.
  apply Qabs_Qle_condition.
  destruct (Qle_bool 0 x) eqn:Hsign.
  - apply Qle_bool_iff in Hsign. pose proof (Qabs_pos x Hsign) as Habs.
    set (f := inject_Z (Qfloor y)) in *.
    unfold y in Hlow, Hhigh. clearbody f. clear y.
    rewrite Habs in Hlow, Hhigh.
    unfold Qdiv. change (/ 1000)%Q with (1 # 1000)%Q. lra.
  - assert (x <= 0)%Q as Hneg.
    { apply Qnot_lt_le. intros Hpos. apply Qlt_le_weak in Hpos.
      apply Qle_bool_iff in Hpos. congruence. }
    pose proof (Qabs_neg x Hneg) as Habs. rewrite inject_Z_opp.
    set (f := inject_Z (Qfloor y)) in *.
    unfold y in Hlow, Hhigh. clearbody f. clear y.
    rewrite Habs in Hlow, Hhigh.
    unfold Qdiv. change (/ 1000)%Q with (1 # 1000)%Q. lra.
Qed.

(** The units of [toFixed(3)]: within one half of [1000 x], strictly on the
    side towards zero. *)
Lemma toFixedUnits_bounds (x : Q) :
  let k := inject_Z (Num.toFixedUnits x 3) in
  ((0 <= x)%Q -> (- (1 # 2) < k - x * 1000)%Q /\ (k - x * 1000 <= 1 # 2)%Q)
  /\ (~ (0 <= x)%Q -> (- (1 # 2) <= k - x * 1000)%Q /\ (k - x * 1000 < 1 # 2)%Q).
Proof.
  intros k. subst k. unfold Num.toFixedUnits.
  change (inject_Z (10 ^ 3)) with 1000%Q.
  set (y := (Qabs x * 1000 + (1 # 2))%Q).
  pose proof (Qfloor_le y) as Hlow. pose proof (Qlt_floor y) as Hhigh.
  rewrite inject_Z_plus in Hhigh. change (inject_Z 1) with 1%Q in Hhigh.
  destruct (Qle_bool 0 x) eqn:Hsign.
  - apply Qle_bool_iff in Hsign. pose proof (Qabs_pos x Hsign) as Habs.
    set (f := inject_Z (Qfloor y)) in *.
    unfold y in Hlow, Hhigh. clearbody f. clear y.
    rewrite Habs in Hlow, Hhigh.
    split; [intros _; split; lra|intros Hno; exfalso; lra].
  - assert (~ (0 <= x)%Q) as Hno
      by (intros Hge; apply Qle_bool_iff in Hge; congruence).
    assert (x <= 0)%Q as Hneg by lra.
    pose proof (Qabs_neg x Hneg) as Habs. rewrite inject_Z_opp.
    set (f := inject_Z (Qfloor y)) in *.
    unfold y in Hlow, Hhigh. clearbody f. clear y.
    rewrite Habs in Hlow, Hhigh.
    split; [intros Hge; exfalso; lra|intros _; split; lra].
Qed.

Lemma toFixedUnits_nearest (x : Q) :
  Spec.nearestThousandth x (Num.toFixedUnits x 3).
Proof.
  destruct (toFixedUnits_bounds x) as [Hpos Hneg]. cbv zeta in Hpos, Hneg.
  unfold Spec.nearestThousandth.
  destruct (Qlt_le_dec x 0) as [Hlt|Hge].
  - destruct Hneg as [Hlow Hhigh]; [lra|].
    split; [split; lra|]. split; intros Htie; lra.
  - destruct (Hpos Hge) as [Hlow Hhigh].
    split; [split; lra|]. split; intros Htie; lra.
Qed.

Lemma half_is_no_integer (z : Z) (q : Q) :
  (inject_Z z - q == 1 # 2)%Q -> (q == 0)%Q -> False.
Proof.
  intros Hhalf Hzero. rewrite Hzero in Hhalf.
  unfold Qeq in Hhalf. simpl in Hhalf. lia.
Qed.

Lemma nearestThousandth_unique (x : Q) (k : Z) :
  Spec.nearestThousandth x k -> k = Num.toFixedUnits x 3.
Proof.
  intros ([Hlow Hhigh] & Hup & Hdown).
  destruct (toFixedUnits_bounds x) as [Hpos Hneg]. cbv zeta in Hpos, Hneg.
  set (u := Num.toFixedUnits x 3) in *.
  assert (inject_Z (u + -1) <= inject_Z k /\ inject_Z k <= inject_Z (u + 1))%Q
    as [Hnear1 Hnear2].
  { rewrite !inject_Z_plus. change (inject_Z 1) with 1%Q.
    change (inject_Z (-1)) with (- (1))%Q.
    destruct (Qlt_le_dec x 0) as [Hlt|Hge].
    - destruct Hneg as [? ?]; [lra|]. split; lra.
    - destruct (Hpos Hge). split; lra. }
  rewrite <- Zle_Qle in Hnear1, Hnear2.
  destruct (Z.eq_dec k u) as [|Hne]; [assumption|]. exfalso.
  assert (k = u + -1 \/ k = u + 1) as [-> | ->] by lia;
    rewrite ?inject_Z_plus in *;
    change (inject_Z 1) with 1%Q in *;
    change (inject_Z (-1)) with (- (1))%Q in *;
    destruct (Qlt_le_dec x 0) as [Hlt|Hge].
  - destruct Hneg as [Ha Hb]; [lra|].
    assert (x * 1000 - (inject_Z u + - (1)) == 1 # 2)%Q as Htie by lra.
    lra.
  - destruct (Hpos Hge) as [Ha Hb].
    assert (x * 1000 - (inject_Z u + - (1)) == 1 # 2)%Q as Htie by lra.
    pose proof (Hdown Htie) as Hle.
    apply (half_is_no_integer u (x * 1000)); lra.
  - destruct Hneg as [Ha Hb]; [lra|].
    assert (inject_Z u + 1 - x * 1000 == 1 # 2)%Q as Htie by lra.
    pose proof (Hup Htie). lra.
  - destruct (Hpos Hge) as [Ha Hb]. lra.
Qed.

Lemma isInteger_spec (x : Q) :
  Num.isInteger x = true <-> exists z, (x == inject_Z z)%Q.
Proof.
  unfold Num.isInteger. rewrite Qeq_bool_iff. split.
  - intros Hx. now exists (Qfloor x).
  - intros [z Hz]. rewrite Hz at 2. rewrite Qfloor_Z. exact Hz.
Qed.

End Rounding.

Section Digits.

Lemma digitValue_digitChar (q : Z) : 0 <= q < 10 ->
  Spec.digitValue (Runtime.digitChar q) = q.
Proof.
  intros Hq. unfold Spec.digitValue, Runtime.digitChar.
  rewrite nat_ascii_embedding by lia. lia.
Qed.

Lemma fractionDigits_value (d : Z) : 0 < d ->
  forall (fuel : nat) (r : Z),
    0 <= r < d -> (10 ^ Z.of_nat fuel * r) mod d = 0 ->
    (Spec.fractionValue (Runtime.fractionDigits fuel r d) == inject_Z r / inject_Z d)%Q.
Proof.
  intros Hd.
  assert (~ (inject_Z d == 0)%Q) as Hd0.
  { change 0%Q with (inject_Z 0). rewrite inject_Z_injective. lia. }
  induction fuel as [|fuel IH]; intros r Hr Hdiv.
  - simpl in *. rewrite Z.mod_small in Hdiv by lia.
    assert (r = 0) as -> by lia. unfold Qdiv. now rewrite Qmult_0_l.
  - cbn [Runtime.fractionDigits].
    destruct (Z.eqb_spec r 0) as [->|Hr0].
    + simpl. unfold Qdiv. now rewrite Qmult_0_l.
    + cbn [Spec.fractionValue].
      pose proof (Z.div_mod (r * 10) d ltac:(lia)) as Hdm.
      pose proof (Z.mod_pos_bound (r * 10) d Hd) as Hmod.
      assert (0 <= r * 10 / d < 10) as Hdigit.
      { split; [apply Z.div_pos; lia|apply Z.div_lt_upper_bound; lia]. }
      rewrite digitValue_digitChar by assumption.
      rewrite IH; [|assumption|].
      * assert (inject_Z (r * 10) == inject_Z d * inject_Z (r * 10 / d)
                                     + inject_Z (r * 10 mod d))%Q as Hq
          by (rewrite <- inject_Z_mult, <- inject_Z_plus; now rewrite <- Hdm).
        rewrite inject_Z_mult in Hq.
        change (inject_Z 10) with 10%Q in Hq.
        assert (inject_Z (r * 10 mod d)
                == inject_Z r * 10 - inject_Z d * inject_Z (r * 10 / d))%Q as ->
          by (rewrite Hq; ring).
        field. assumption.
      * rewrite Z.mul_mod_idemp_r by lia.
        rewrite <- Hdiv. f_equal.
        rewrite Nat2Z.inj_succ, Z.pow_succ_r by lia. ring.
Qed.

Lemma fractionDigits_length (d : Z) : 0 < d ->
  forall (places fuel : nat) (r : Z),
    0 <= r < d -> (10 ^ Z.of_nat places * r) mod d = 0 ->
    (String.length (Runtime.fractionDigits fuel r d) <= places)%nat.
Proof.
  intros Hd. induction places as [|places IH]; intros fuel r Hr Hdiv.
  - simpl in Hdiv. rewrite Z.mul_1_l, Z.mod_small in Hdiv by lia. subst r.
    destruct fuel; simpl; lia.
  - destruct fuel as [|fuel]; [simpl; lia|].
    cbn [Runtime.fractionDigits].
    destruct (Z.eqb_spec r 0) as [->|Hr0]; [simpl; lia|].
    cbn [String.length]. apply le_n_S, IH.
    + apply Z.mod_pos_bound, Hd.
    + rewrite Z.mul_mod_idemp_r by lia.
      rewrite <- Hdiv. f_equal.
      rewrite Nat2Z.inj_succ, Z.pow_succ_r by lia. ring.
Qed.

Lemma digitChar_not_zero (q : Z) : 1 <= q < 10 ->
  Ascii.eqb (Runtime.digitChar q) "0" = false.
Proof.
  intros Hq. destruct (Ascii.eqb (Runtime.digitChar q) "0") eqn:Heq;
    [|reflexivity].
  apply Ascii.eqb_eq in Heq.
  pose proof (digitValue_digitChar q ltac:(lia)) as Hvalue.
  rewrite Heq in Hvalue. vm_compute in Hvalue. lia.
Qed.

Lemma fractionDigits_no_trailing_zero (d : Z) : 0 < d ->
  forall (fuel : nat) (r : Z),
    0 <= r < d -> (10 ^ Z.of_nat fuel * r) mod d = 0 ->
    Spec.endsWithZero (Runtime.fractionDigits fuel r d) = false.
Proof.
  intros Hd. induction fuel as [|fuel IH]; intros r Hr Hdiv; [reflexivity|].
  cbn [Runtime.fractionDigits].
  destruct (Z.eqb_spec r 0) as [->|Hr0]; [reflexivity|].
  pose proof (Z.div_mod (r * 10) d ltac:(lia)) as Hdm.
  pose proof (Z.mod_pos_bound (r * 10) d Hd) as Hmod.
  assert (0 <= r * 10 / d < 10) as Hdigit.
  { split; [apply Z.div_pos; lia|apply Z.div_lt_upper_bound; lia]. }
  assert (Spec.endsWithZero (Runtime.fractionDigits fuel (r * 10 mod d) d)
          = false) as Hrest.
  { apply IH; [assumption|].
    rewrite Z.mul_mod_idemp_r by lia.
    rewrite <- Hdiv. f_equal.
    rewrite Nat2Z.inj_succ, Z.pow_succ_r by lia. ring. }
  destruct (Runtime.fractionDigits fuel (r * 10 mod d) d) as [|c rest] eqn:Htail.
  - cbn [Spec.endsWithZero]. apply digitChar_not_zero.
    assert (r * 10 mod d = 0) as Hzero.
    { destruct fuel as [|fuel'].
      - change (10 ^ Z.of_nat 1) with 10 in Hdiv.
        replace (10 * r) with (r * 10) in Hdiv by ring. exact Hdiv.
      - cbn [Runtime.fractionDigits] in Htail.
        destruct (Z.eqb_spec (r * 10 mod d) 0); [assumption|discriminate]. }
    assert (r * 10 / d <> 0) by nia. lia.
  - exact Hrest.
Qed.

End Digits.

Section Rendering.

Lemma Qred_den_divides (q : Q) (k m : Z) : 0 < m ->
  (q == inject_Z k / inject_Z m)%Q -> (Zpos (Qden (Qred q)) | m).
Proof.
  intros Hm Hq.
  assert (~ (inject_Z m == 0)%Q) as Hm0.
  { change 0%Q with (inject_Z 0). rewrite inject_Z_injective. lia. }
  pose proof (Qred_correct q) as Hred.
  pose proof (proj1 (Qred_iff (Qred q)) (Qred_involutive q)) as Hgcd.
  destruct (Qred q) as [n d] eqn:Hnd. cbn [Qnum Qden] in *.
  assert (n * m = k * Zpos d) as Hcross.
  { rewrite <- inject_Z_injective, !inject_Z_mult.
    assert (n # d == inject_Z n / inject_Z (Zpos d))%Q as Hmake
      by (rewrite Qmake_Qdiv; reflexivity).
    rewrite Hmake, Hq in Hred.
    assert (~ (inject_Z (Zpos d) == 0)%Q) as Hd0.
    { change 0%Q with (inject_Z 0). rewrite inject_Z_injective. lia. }
    transitivity ((inject_Z n / inject_Z (Zpos d))
                  * (inject_Z (Zpos d) * inject_Z m))%Q; [field; assumption|].
    rewrite Hred. field. assumption. }
  apply (Z.gauss _ n); [exists k; lia|].
  rewrite Z.gcd_comm. exact Hgcd.
Qed.

Lemma toString_numeral (x : Q) (places : nat) :
  (places <= 21)%nat ->
  (Zpos (Qden (Qred x)) | 10 ^ Z.of_nat places) ->
  exists (whole : Z) (digits : string),
    Runtime.toString x = Spec.numeral (Num.ltb x 0) whole digits
    /\ 0 <= whole
    /\ (String.length digits <= places)%nat
    /\ Spec.endsWithZero digits = false
    /\ (Qabs x == inject_Z whole + Spec.fractionValue digits)%Q.
Proof.
  intros Hplaces Hden.
  unfold Runtime.toString, Runtime.integerString, Spec.numeral.
  assert (Num.ltb x 0 = (Qnum (Qred x) <? 0)) as ->.
  { rewrite (ltb_proper x (Qred x)) by (symmetry; apply Qred_correct).
    unfold Num.ltb, Qle_bool. cbn [Qnum Qden].
    rewrite Z.mul_1_r. destruct (Qnum (Qred x)); reflexivity. }
  assert (Qabs x == inject_Z (Z.abs (Qnum (Qred x)))
                    / inject_Z (Zpos (Qden (Qred x))))%Q as Habs.
  { rewrite <- (Qred_correct x) at 1. destruct (Qred x) as [n d].
    cbn [Qnum Qden Qabs]. now rewrite Qmake_Qdiv. }
  set (n := Z.abs (Qnum (Qred x))) in *.
  set (d := Zpos (Qden (Qred x))) in *.
  assert (0 < d) as Hd by (subst d; lia).
  assert (0 <= n) as Hn by (subst n; lia).
  pose proof (Z.div_mod n d ltac:(lia)) as Hdm.
  pose proof (Z.mod_pos_bound n d Hd) as Hmod.
  assert (~ (inject_Z d == 0)%Q) as Hd0.
  { change 0%Q with (inject_Z 0). rewrite inject_Z_injective. lia. }
  assert (forall e, (places <= e)%nat -> (10 ^ Z.of_nat e * (n mod d)) mod d = 0)
    as Hzero.
  { intros e He. apply Z.mod_divide; [lia|].
    apply Z.divide_mul_l. apply (Z.divide_trans _ _ _ Hden).
    replace (Z.of_nat e) with (Z.of_nat places + Z.of_nat (e - places)) by lia.
    rewrite Z.pow_add_r by lia. apply Z.divide_factor_l. }
  exists (n / d),
    (if n mod d =? 0 then EmptyString else Runtime.fractionDigits 21 (n mod d) d).
  split; [|split; [apply Z.div_pos; lia|split; [|split]]].
  - destruct (Z.eqb_spec (n mod d) 0) as [Hz|Hnz]; [reflexivity|].
    cbn [Runtime.fractionDigits].
    destruct (Z.eqb_spec (n mod d) 0); [contradiction|reflexivity].
  - destruct (n mod d =? 0); [simpl; lia|].
    apply fractionDigits_length; [assumption|assumption|]. now apply Hzero.
  - destruct (n mod d =? 0); [reflexivity|].
    apply fractionDigits_no_trailing_zero; [assumption|assumption|].
    now apply Hzero.
  - rewrite Habs.
    assert (Spec.fractionValue
              (if n mod d =? 0 then EmptyString
               else Runtime.fractionDigits 21 (n mod d) d)
            == inject_Z (n mod d) / inject_Z d)%Q as ->.
    { destruct (Z.eqb_spec (n mod d) 0) as [Hz|Hnz].
      - rewrite Hz. simpl. unfold Qdiv. now rewrite Qmult_0_l.
      - apply fractionDigits_value; [assumption|assumption|]. now apply Hzero. }
    assert (inject_Z n == inject_Z d * inject_Z (n / d) + inject_Z (n mod d))%Q
      as Hq by (rewrite <- inject_Z_mult, <- inject_Z_plus; now rewrite <- Hdm).
    rewrite Hq. field. assumption.
Qed.

Lemma append_empty (s : string) : (s ++ "")%string = s.
Proof.
  induction s as [|c s IH]; [reflexivity|].
  change (String c (s ++ "")%string = String c s). now rewrite IH.
Qed.

Lemma numeral_integer (z : Z) :
  Spec.numeral (z <? 0) (Z.abs z) EmptyString = Runtime.integerString z.
Proof.
  unfold Spec.numeral. cbv iota. rewrite append_empty.
  destruct z; reflexivity.
Qed.

Lemma ltb_inject_Z (x : Q) (k m : Z) : 0 < m ->
  (x == inject_Z k / inject_Z m)%Q -> Num.ltb x 0 = (k <? 0).
Proof.
  intros Hm Hx.
  assert (0 < inject_Z m)%Q as Hm'
    by (change 0%Q with (inject_Z 0); now rewrite <- Zlt_Qlt).
  destruct (Z.ltb_spec k 0) as [Hk|Hk].
  - apply ltb_lt. rewrite Hx. rewrite Zlt_Qlt in Hk.
    apply Qlt_shift_div_r; [assumption|]. now rewrite Qmult_0_l.
  - destruct (Num.ltb x 0) eqn:Hlt; [|reflexivity].
    apply ltb_lt in Hlt. rewrite Hx in Hlt. rewrite Zle_Qle in Hk.
    exfalso. apply (Qlt_not_le _ _ Hlt).
    apply Qle_shift_div_l; [assumption|]. now rewrite Qmult_0_l.
Qed.


End Rendering.

Lemma integerString_parses (z : Z) :
  NilZero.int_of_string (Runtime.integerString z) = Some (Z.to_int z).
Proof.
  unfold Runtime.integerString. apply NilZero.isi.
  - destruct z as [|p|p]; simpl; try discriminate.
    intros [= H]. exact (DecimalPos.Unsigned.to_uint_nonnil p H).
  - destruct z as [|p|p]; simpl; try discriminate.
    intros [= H]. exact (DecimalPos.Unsigned.to_uint_nonnil p H).
Qed.


Section Quoting.

Lemma unescape_replaceQuotes (text : string) :
  Spec.unescape (replaceQuotes text) = text.
Proof.
  induction text as [|c text IH]; [reflexivity|].
  cbn [replaceQuotes].
  destruct (Ascii.eqb c doubleQuote) eqn:Hc.
  - apply Ascii.eqb_eq in Hc. subst c. cbn [Spec.unescape].
    rewrite Ascii.eqb_refl. now rewrite IH.
  - cbn [Spec.unescape]. rewrite Hc. now rewrite IH.
Qed.

Lemma quoteCount_replaceQuotes (text : string) :
  Spec.quoteCount (replaceQuotes text) = (2 * Spec.quoteCount text)%nat.
Proof.
  induction text as [|c text IH]; [reflexivity|].
  cbn [replaceQuotes Spec.quoteCount].
  destruct (Ascii.eqb c doubleQuote) eqn:Hc.
  - cbn [Spec.quoteCount]. rewrite Ascii.eqb_refl, IH. lia.
  - cbn [Spec.quoteCount]. rewrite Hc, IH. lia.
Qed.

End Quoting.


Section Cells.

Variable toString : Q -> string.
Hypothesis Hplain : Spec.printsPlainDecimals toString.

Lemma formatCsvCell_integer (x : Q) (z : Z) :
  (x == inject_Z z)%Q -> Z.abs z <= 10 ^ 12 ->
  formatCsvCell toString (JNum x) = Runtime.integerString z.
Proof.
  intros Hx Hz. cbn [formatCsvCell].
  assert (Num.isInteger x = true) as -> by (apply isInteger_spec; eauto).
  rewrite (Hplain x (1000 * z)); [|lia|].
  2:{ rewrite Hx, inject_Z_mult. change (inject_Z 1000) with 1000%Q. field. }
  assert (x == inject_Z z / inject_Z 1)%Q as Hdiv by (rewrite Hx; field).
  destruct (toString_numeral x 0 ltac:(lia)
              (Qred_den_divides x z 1 ltac:(lia) Hdiv))
    as (whole & digits & -> & Hwhole & Hlen & _ & Habs).
  destruct digits as [|c digits]; [|simpl in Hlen; lia].
  rewrite (ltb_inject_Z x z 1 ltac:(lia) Hdiv).
  assert (whole = Z.abs z) as ->; [|apply numeral_integer].
  rewrite <- inject_Z_injective.
  cbn [Spec.fractionValue] in Habs. rewrite Qplus_0_r in Habs.
  rewrite <- Habs, Hx. destruct z; reflexivity.
Qed.

Lemma toFixedUnits_magnitude (x : Q) :
  (Qabs x <= inject_Z (10 ^ 12))%Q -> Z.abs (Num.toFixedUnits x 3) <= 10 ^ 15.
Proof.
  intros Hx. pose proof (toFixed_near x) as Hnear.
  apply Qabs_Qle_condition in Hx, Hnear.
  unfold Num.toFixed in Hnear. change (inject_Z (10 ^ 3)) with 1000%Q in Hnear.
  change (inject_Z (10 ^ 12)) with 1000000000000%Q in Hx.
  set (k := Num.toFixedUnits x 3) in *.
  unfold Qdiv in Hnear. change (/ 1000)%Q with (1 # 1000)%Q in Hnear.
  assert (inject_Z k < inject_Z (10 ^ 15 + 1))%Q as Hhigh.
  { change (inject_Z (10 ^ 15 + 1)) with 1000000000000001%Q. lra. }
  assert (inject_Z (- (10 ^ 15 + 1)) < inject_Z k)%Q as Hlow.
  { change (inject_Z (- (10 ^ 15 + 1))) with (- (1000000000000001))%Q. lra. }
  rewrite <- Zlt_Qlt in Hhigh, Hlow. lia.
Qed.

Lemma formatCsvCell_fraction (x : Q) :
  Num.isInteger x = false -> (Qabs x <= inject_Z (10 ^ 12))%Q ->
  exists (whole : Z) (digits : string),
    formatCsvCell toString (JNum x)
      = Spec.numeral (Num.toFixedUnits x 3 <? 0) whole digits
    /\ 0 <= whole
    /\ (String.length digits <= 3)%nat
    /\ Spec.endsWithZero digits = false
    /\ (inject_Z (Z.abs (Num.toFixedUnits x 3)) / 1000
        == inject_Z whole + Spec.fractionValue digits)%Q.
Proof.
  intros Hfrac Hx. cbn [formatCsvCell]. rewrite Hfrac.
  assert (Num.toFixed x 3
          == inject_Z (Num.toFixedUnits x 3) / inject_Z 1000)%Q as Hr
    by reflexivity.
  rewrite (Hplain _ (Num.toFixedUnits x 3) (toFixedUnits_magnitude x Hx) Hr).
  destruct (toString_numeral (Num.toFixed x 3) 3 ltac:(lia)
              (Qred_den_divides _ _ 1000 ltac:(lia) Hr))
    as (whole & digits & -> & Hwhole & Hlen & Hzero & Habs).
  exists whole, digits.
  rewrite (ltb_inject_Z _ _ 1000 ltac:(lia) Hr).
  repeat split; try assumption.
  rewrite <- Habs, Hr.
  set (k := Num.toFixedUnits x 3).
  change (inject_Z 1000) with 1000%Q.
  destruct (Z.le_gt_cases 0 k) as [Hk|Hk].
  - rewrite Z.abs_eq by assumption. rewrite Qabs_pos; [reflexivity|].
    rewrite Zle_Qle in Hk. change (inject_Z 0) with 0%Q in Hk.
    apply Qle_shift_div_l; [reflexivity|]. now rewrite Qmult_0_l.
  - rewrite Z.abs_neq by lia. rewrite Qabs_neg.
    + rewrite inject_Z_opp. field.
    + assert (k <= 0) as Hk' by lia. rewrite Zle_Qle in Hk'.
      change (inject_Z 0) with 0%Q in Hk'.
      apply Qle_shift_div_r; [reflexivity|]. now rewrite Qmult_0_l.
Qed.

End Cells.

(** C8. Whatever string the language gives for a number: a finite numeric
    cell is the string of the number itself when the number is integral, and
    otherwise the string of the multiple of 0.001 nearest to it, the one
    further from zero of two equally near ones, so it is rounded to three
    decimals.  [null], [undefined], [NaN] and the infinities render as the
    empty cell.  A string renders between double quotes with every quote
    character of its own doubled.  Where the language prints plain decimal
    numerals, which it does for magnitudes up to [10^12], an integral value
    therefore shows as its plain integer numeral, and any other value as the
    numeral of the rounded value, with at most three fraction digits and no
    trailing zero.  The examples use the plain decimal numerals. *)
Theorem C8_cell_rendering (toString : Q -> string) :
  (forall x, Num.isInteger x = true ->
     formatCsvCell toString (JNum x) = toString x)
  /\ (forall x, Num.isInteger x = true <-> exists z, (x == inject_Z z)%Q)
  /\ (forall x, Num.isInteger x = false ->
        exists k,
          formatCsvCell toString (JNum x) = toString (inject_Z k / 1000)%Q
          /\ Spec.nearestThousandth x k
          /\ (forall k', Spec.nearestThousandth x k' -> k' = k)
          /\ (Qabs (inject_Z k / 1000 - x) <= 1 # 2000)%Q)
  /\ (forall text,
        formatCsvCell toString (JStr text)
          = String doubleQuote (replaceQuotes text ++ String doubleQuote EmptyString)
        /\ Spec.unescape (replaceQuotes text) = text
        /\ Spec.quoteCount (replaceQuotes text) = (2 * Spec.quoteCount text)%nat)
  /\ formatCsvCell toString JNull = ""
  /\ formatCsvCell toString JUndefined = ""
  /\ formatCsvCell toString JNaN = ""
  /\ (forall negative, formatCsvCell toString (JInfinity negative) = "")
  /\ (Spec.printsPlainDecimals toString ->
      (forall x z, (x == inject_Z z)%Q -> Z.abs z <= 10 ^ 12 ->
         formatCsvCell toString (JNum x) = NilZero.string_of_int (Z.to_int z)
         /\ NilZero.int_of_string (formatCsvCell toString (JNum x))
            = Some (Z.to_int z)
         /\ Z.of_int (Z.to_int z) = z)
      /\ (forall x, Num.isInteger x = false ->
            (Qabs x <= inject_Z (10 ^ 12))%Q ->
            exists (whole : Z) (digits : string),
              formatCsvCell toString (JNum x)
                = Spec.numeral (Num.toFixedUnits x 3 <? 0) whole digits
              /\ 0 <= whole
              /\ (String.length digits <= 3)%nat
              /\ Spec.endsWithZero digits = false
              /\ (inject_Z (Z.abs (Num.toFixedUnits x 3)) / 1000
                  == inject_Z whole + Spec.fractionValue digits)%Q))
  /\ Spec.printsPlainDecimals Runtime.toString
  /\ formatCsvCell Runtime.toString (JNum 30) = "30"
  /\ formatCsvCell Runtime.toString (JNum (- (5 # 2))) = "-2.5"
  /\ formatCsvCell Runtime.toString (JNum (35678 # 10000)) = "3.568"
  /\ formatCsvCell Runtime.toString (JNum (29996 # 10000)) = "3"
  /\ formatCsvCell Runtime.toString (JNum (1 # 16)) = "0.063"
  /\ formatCsvCell Runtime.toString (JNum (- (1 # 16))) = "-0.063"
  /\ formatCsvCell Runtime.toString (JNum (- (4 # 10000))) = "0".
Proof.
  split.
  { intros x Hx. cbn [formatCsvCell]. now rewrite Hx. }
  split; [apply isInteger_spec|].
  split.
  { intros x Hx. exists (Num.toFixedUnits x 3).
    split; [cbn [formatCsvCell]; rewrite Hx; reflexivity|].
    split; [apply toFixedUnits_nearest|].
    split; [apply nearestThousandth_unique|].
    apply toFixed_near. }
  split.
  { intros text. split; [reflexivity|].
    split; [apply unescape_replaceQuotes|apply quoteCount_replaceQuotes]. }
  do 4 (split; [reflexivity|]).
  split.
  { intros Hplain. split.
    - intros x z Hx Hz.
      rewrite (formatCsvCell_integer toString Hplain x z Hx Hz).
      split; [reflexivity|]. split; [apply integerString_parses|].
      apply DecimalZ.of_to.
    - intros x Hfrac Hx.
      apply (formatCsvCell_fraction toString Hplain x Hfrac Hx). }
  split; [intros q k _ _; reflexivity|].
  repeat split; vm_compute; reflexivity.
Qed.

(** C8, as stated, fails: a fraction is rounded, not truncated (3.5678 renders
    as 3.568, its truncation is 3.567; one sixteenth renders as 0.063, its
    truncation is 0.062), and [null] is not numeric yet renders as the empty
    cell, not as a quoted string. *)
Lemma C8_fraction_is_rounded_not_truncated :
  formatCsvCell Runtime.toString (JNum (35678 # 10000)) = "3.568"
  /\ Spec.claimedNumberCell Runtime.toString (35678 # 10000) = "3.567"
  /\ formatCsvCell Runtime.toString (JNum (1 # 16)) = "0.063"
  /\ Spec.claimedNumberCell Runtime.toString (1 # 16) = "0.062"
  /\ formatCsvCell Runtime.toString JNull = "".
Proof. repeat split; vm_compute; reflexivity. Qed.

(** ** Average fixation duration *)

Lemma pairLoopFrom_fixDurations hypot rest : forall prev arrays,
  fixDurations (pairLoopFrom hypot prev rest arrays)
    = (fixDurations arrays ++ Spec.rightEyeFixationIntervals (prev :: rest))%list.
Proof.
  induction rest as [|curr rest IH]; intros prev arrays.
  - simpl. now rewrite app_nil_r.
  - cbn [pairLoopFrom]. rewrite IH.
    unfold Spec.rightEyeFixationIntervals at 2.
    cbn [Spec.consecutive combine List.filter].
    change (combine (curr :: rest) rest) with (Spec.consecutive (curr :: rest)).
    unfold pairBody, Spec.interval at 1. cbn [fst snd].
    destruct (Num.gtb _ 0); cbn [andb].
    + destruct (bool_decide (categoryRight prev = Fixation)),
               (bool_decide (categoryRight curr = Fixation));
        cbn [andb fixDurations map]; unfold push, Spec.interval at 1;
        cbn [fst snd]; rewrite <- ?app_assoc; reflexivity.
    + reflexivity.
Qed.

Lemma pairLoop_fixDurations hypot samples :
  fixDurations (pairLoop hypot samples) = Spec.rightEyeFixationIntervals samples.
Proof.
  destruct samples as [|first rest]; [reflexivity|].
  unfold pairLoop. now rewrite pairLoopFrom_fixDurations.
Qed.

(** C9. The code departs from the claim on a window that it can receive: two
    samples 100 ms apart in which the left eye is in fixation and the right
    eye is not.  By the rule that a sample counts for a category when either
    eye shows it, both samples are fixations, and the segment counters of the
    same function count them so; the mean interval of the claim is 0.1 s.
    The loop that collects the fixation durations tests the right eye alone,
    collects nothing, and the feature is 0. *)
Theorem C9_left_eye_fixation_is_ignored :
  forall sqrt hypot parseFloat age gender,
    Forall (fun sample => Spec.classifiesAs Fixation sample = true)
           Examples.leftEyeFixationWindow
    /\ (Spec.claimedFixationAverage Examples.leftEyeFixationWindow == 1 # 10)%Q
    /\ fixDurations (pairLoop hypot Examples.leftEyeFixationWindow) = []
    /\ exists features,
         computeAggregatedFeatures sqrt hypot parseFloat
           Examples.leftEyeFixationWindow age gender = Some features
         /\ getProperty features "fix_dur_avg_1" = JNum 0
         /\ getProperty features "fix_count_1" = JNum 1
         /\ getProperty features "fix_count_2" = JNum 1.
Proof.
  intros sqrt hypot parseFloat age gender.
  split.
  { repeat (apply Forall_cons; split; [reflexivity|]). apply Forall_nil. exact I. }
  split; [reflexivity|].
  split; [rewrite pairLoop_fixDurations; reflexivity|].
  eexists. split; [reflexivity|].
  split; [|split; reflexivity].
  change (getProperty _ "fix_dur_avg_1")
    with (JNum (averageOrZero
                  (fixDurations (pairLoop hypot Examples.leftEyeFixationWindow)))).
  rewrite pairLoop_fixDurations. reflexivity.
Qed.

Lemma genderEncodedOf_spec (gender : option string) :
  genderEncodedOf gender = Spec.genderCode gender.
Proof.
  unfold genderEncodedOf.
  repeat case_bool_decide; subst; simpl; auto.
  destruct gender as [g|]; [|reflexivity].
  destruct g as [|c g]; [reflexivity|].
  destruct g as [|c' g].
  - destruct (decide (c = "M"%char)) as [->|HM]; [congruence|].
    destruct (decide (c = "F"%char)) as [->|HF]; [congruence|].
    destruct c as [[] [] [] [] [] [] [] []]; try reflexivity; congruence.
  - destruct c as [[] [] [] [] [] [] [] []]; reflexivity.
Qed.

(** C10. For every non-empty window the aggregator's [Gender_encoded] slot is
    1 for gender 'M', 0 for gender 'F' and one half for every other gender,
    the empty string and a missing gender included. *)
Theorem C10_gender_encoded :
  forall sqrt hypot parseFloat sample rest age gender,
    exists features,
      computeAggregatedFeatures sqrt hypot parseFloat (sample :: rest) age gender
        = Some features
      /\ getProperty features "Gender_encoded" = JNum (Spec.genderCode gender)
      /\ Spec.genderCode (Some "M") = 1%Q
      /\ Spec.genderCode (Some "F") = 0%Q
      /\ Spec.genderCode (Some "") = (1 # 2)%Q
      /\ Spec.genderCode None = (1 # 2)%Q.
Proof.
  intros sqrt hypot parseFloat sample rest age gender.
  unfold computeAggregatedFeatures.
  replace (lengthZ (sample :: rest) =? 0) with false
    by (unfold lengthZ; simpl; reflexivity).
  cbv zeta. eexists. split; [reflexivity|].
  split; [|repeat split].
  change (getProperty _ "Gender_encoded") with (JNum (genderEncodedOf gender)).
  now rewrite genderEncodedOf_spec.
Qed.

(** * Further properties of the code *)

(** ** [clamp] and the summary statistics *)

Lemma Qle_bool_false (a b : Q) : Qle_bool a b = false -> (b < a)%Q.
Proof.
  intros H. apply Qnot_le_lt. intros Hle. apply Qle_bool_iff in Hle. congruence.
Qed.

Lemma min_spec (a b : Q) :
  (Num.min a b <= a)%Q /\ (Num.min a b <= b)%Q
  /\ (Num.min a b = a \/ Num.min a b = b).
Proof.
  unfold Num.min. destruct (Qle_bool a b) eqn:H.
  - apply Qle_bool_iff in H. repeat split; auto; lra.
  - apply Qle_bool_false in H. repeat split; auto; lra.
Qed.

Lemma max_spec (a b : Q) :
  (a <= Num.max a b)%Q /\ (b <= Num.max a b)%Q
  /\ (Num.max a b = a \/ Num.max a b = b).
Proof.
  unfold Num.max. destruct (Qle_bool a b) eqn:H.
  - apply Qle_bool_iff in H. repeat split; auto; lra.
  - apply Qle_bool_false in H. repeat split; auto; lra.
Qed.

Lemma clamp_range (value lo hi : Q) : (lo <= hi)%Q ->
  (lo <= clamp value lo hi)%Q /\ (clamp value lo hi <= hi)%Q.
Proof.
  intros Hle. unfold clamp.
  destruct (min_spec (Num.max value lo) hi) as (H1 & H2 & [H3|H3]);
    destruct (max_spec value lo) as (H4 & H5 & _); rewrite H3 in *; split; lra.
Qed.

(** X1. For bounds [lo <= hi], [clamp] returns a number between them: the
    value itself when it already lies between them, [lo] when it is below and
    [hi] when it is above; clamping twice changes nothing more. *)
Theorem X1_clamp_within_bounds (value lo hi : Q) (Hbounds : (lo <= hi)%Q) :
  (lo <= clamp value lo hi)%Q /\ (clamp value lo hi <= hi)%Q
  /\ ((lo <= value)%Q -> (value <= hi)%Q -> (clamp value lo hi == value)%Q)
  /\ ((value <= lo)%Q -> (clamp value lo hi == lo)%Q)
  /\ ((hi <= value)%Q -> (clamp value lo hi == hi)%Q)
  /\ (clamp (clamp value lo hi) lo hi == clamp value lo hi)%Q.
Proof.
  assert (forall v, (lo <= v)%Q -> (v <= hi)%Q -> (clamp v lo hi == v)%Q) as Hin.
  { intros v Hlo Hhi. unfold clamp.
    destruct (min_spec (Num.max v lo) hi) as (H1 & H2 & [H3|H3]);
      destruct (max_spec v lo) as (H4 & H5 & [H6|H6]);
      rewrite ?H3, ?H6 in *; lra. }
  destruct (clamp_range value lo hi Hbounds) as [Hlow Hhigh].
  split; [assumption|]. split; [assumption|]. split; [apply Hin|].
  split; [|split].
  - intros Hbelow. unfold clamp.
    destruct (min_spec (Num.max value lo) hi) as (H1 & H2 & [H3|H3]);
      destruct (max_spec value lo) as (H4 & H5 & [H6|H6]);
      rewrite ?H3, ?H6 in *; lra.
  - intros Habove. unfold clamp.
    destruct (min_spec (Num.max value lo) hi) as (H1 & H2 & [H3|H3]);
      destruct (max_spec value lo) as (H4 & H5 & [H6|H6]);
      rewrite ?H3, ?H6 in *; lra.
  - now apply Hin.
Qed.

(** An instance of X1: the unit interval used by the calibration. *)
Lemma X1_clamp_within_bounds_witness :
  (0 <= 1)%Q /\ (clamp (7 # 5) 0 1 <= 1)%Q.
Proof.
  split; [lra|].
  apply (X1_clamp_within_bounds (7 # 5) 0 1). lra.
Defined.

Section SortedStatistics.

Lemma Forall_insertSorted (P : Q -> Prop) (x : Q) (l : list Q) :
  Forall P (insertSorted x l) <-> P x /\ Forall P l.
Proof.
  induction l as [|y l IH]; simpl.
  - rewrite Forall_cons. tauto.
  - destruct (Num.ltb x y).
    + rewrite Forall_cons. tauto.
    + rewrite !Forall_cons, IH. tauto.
Qed.

Lemma insertSorted_sorted (x : Q) (l : list Q) :
  More.sortedQ l -> More.sortedQ (insertSorted x l).
Proof.
  induction l as [|y l IH]; intros Hsorted; simpl.
  - split; [constructor|exact I].
  - destruct Hsorted as [Hhead Htail].
    destruct (Num.ltb x y) eqn:Hlt.
    + apply ltb_lt in Hlt. simpl. split; [|split; assumption].
      constructor; [lra|].
      eapply Forall_impl; [exact Hhead|]. intros z Hz. simpl in Hz. lra.
    + assert (y <= x)%Q as Hle.
      { apply Qnot_lt_le. intros H. apply ltb_lt in H. congruence. }
      simpl. split; [|now apply IH].
      apply Forall_insertSorted. split; assumption.
Qed.

Lemma In_insertSorted (v x : Q) (l : list Q) :
  In v (insertSorted x l) <-> v = x \/ In v l.
Proof.
  induction l as [|y l IH]; simpl.
  - intuition.
  - destruct (Num.ltb x y); simpl; [intuition|]. rewrite IH. intuition.
Qed.

Lemma insertSorted_length (x : Q) (l : list Q) :
  length (insertSorted x l) = S (length l).
Proof.
  induction l as [|y l IH]; simpl; [reflexivity|].
  destruct (Num.ltb x y); simpl; [reflexivity|now rewrite IH].
Qed.

Lemma sortNumbers_spec (values : list Q) :
  More.sortedQ (sortNumbers values)
  /\ length (sortNumbers values) = length values
  /\ (forall v, In v (sortNumbers values) <-> In v values).
Proof.
  unfold sortNumbers.
  assert (forall acc, More.sortedQ acc ->
            More.sortedQ (fold_left (fun sorted x => insertSorted x sorted) values acc)
            /\ length (fold_left (fun sorted x => insertSorted x sorted) values acc)
               = (length values + length acc)%nat
            /\ (forall v, In v (fold_left (fun sorted x => insertSorted x sorted)
                                          values acc)
                          <-> In v values \/ In v acc)) as Hgen.
  { induction values as [|x values IH]; intros acc Hacc; simpl.
    - repeat split; auto. intros [[]|H]; assumption.
    - destruct (IH (insertSorted x acc) (insertSorted_sorted x acc Hacc))
        as (Hs & Hl & Hin).
      split; [assumption|]. split.
      + rewrite Hl, insertSorted_length. lia.
      + intros v. rewrite Hin, In_insertSorted. intuition. }
  destruct (Hgen [] I) as (Hs & Hl & Hin).
  split; [assumption|]. split; [simpl in Hl; lia|].
  intros v. rewrite Hin. simpl. tauto.
Qed.

Lemma sorted_nth_le (l : list Q) : More.sortedQ l ->
  forall i j, (i <= j)%nat -> (j < length l)%nat ->
    (nth i l 0 <= nth j l 0)%Q.
Proof.
  induction l as [|x l IH]; intros Hsorted i j Hij Hj; simpl in Hj; [lia|].
  destruct Hsorted as [Hhead Htail].
  destruct i as [|i], j as [|j]; simpl; try lia; try lra.
  - rewrite Forall_forall in Hhead. apply Hhead.
    apply list_elem_of_In, nth_In. lia.
  - apply IH; [assumption|lia|lia].
Qed.

Lemma sum_between (lo hi : Q) (l : list Q) :
  Forall (fun v => lo <= v /\ v <= hi)%Q l ->
  (inject_Z (lengthZ l) * lo <= sum l)%Q /\ (sum l <= inject_Z (lengthZ l) * hi)%Q.
Proof.
  induction 1 as [|x l [Hlo Hhi] Hl [IHlo IHhi]].
  - unfold sum, lengthZ. cbn [length fold_left Z.of_nat].
    change (inject_Z (Z.of_nat 0)) with 0%Q. split; lra.
  - rewrite sum_cons. unfold lengthZ in *. simpl length.
    rewrite Nat2Z.inj_succ, <- Z.add_1_r, inject_Z_plus.
    change (inject_Z 1) with 1%Q. split; lra.
Qed.

Lemma average_between (lo hi : Q) (x : Q) (l : list Q) :
  Forall (fun v => lo <= v /\ v <= hi)%Q (x :: l) ->
  (lo <= sum (x :: l) / inject_Z (lengthZ (x :: l)))%Q
  /\ (sum (x :: l) / inject_Z (lengthZ (x :: l)) <= hi)%Q.
Proof.
  intros Hall. destruct (sum_between lo hi _ Hall) as [Hlo Hhi].
  assert (0 < inject_Z (lengthZ (x :: l)))%Q as Hn.
  { change 0%Q with (inject_Z 0). rewrite <- Zlt_Qlt.
    unfold lengthZ. simpl length. lia. }
  split.
  - apply Qle_shift_div_l; [assumption|]. lra.
  - apply Qle_shift_div_r; [assumption|]. lra.
Qed.

Lemma quantile_index (n : Z) (p q : Q) : 0 < n -> (0 <= p)%Q -> (p <= q)%Q ->
  (q < 1)%Q ->
  0 <= Qfloor (inject_Z n * p) <= Qfloor (inject_Z n * q)
  /\ Qfloor (inject_Z n * q) < n.
Proof.
  intros Hn Hp Hpq Hq.
  assert (0 < inject_Z n)%Q as Hn'
    by (change 0%Q with (inject_Z 0); now rewrite <- Zlt_Qlt).
  split; [split|].
  - change 0 with (Qfloor 0). apply Qfloor_resp_le.
    apply Qmult_le_0_compat; lra.
  - apply Qfloor_resp_le. apply Qmult_le_l; assumption.
  - rewrite Zlt_Qlt.
    apply Qle_lt_trans with (inject_Z n * q)%Q; [apply Qfloor_le|].
    rewrite <- (Qmult_1_r (inject_Z n)) at 2.
    apply Qmult_lt_l; assumption.
Qed.

End SortedStatistics.

(** X2. For a non-empty list of values [computeStats] orders its results:
    min <= q1 <= median <= q3 <= max; min and max bound every value; and min,
    q1, median, q3 and max are all values of the list.  For the empty list
    every statistic is 0. *)
Theorem X2_computeStats_order (sqrt : Q -> Q) (value : Q) (rest : list Q) :
  let values := value :: rest in
  let stats := computeStats sqrt values in
  (stat_min stats <= stat_q1 stats)%Q
  /\ (stat_q1 stats <= stat_median stats)%Q
  /\ (stat_median stats <= stat_q3 stats)%Q
  /\ (stat_q3 stats <= stat_max stats)%Q
  /\ Forall (fun v => stat_min stats <= v /\ v <= stat_max stats)%Q values
  /\ Forall (fun statistic => In statistic values)
            [stat_min stats; stat_q1 stats; stat_median stats; stat_q3 stats;
             stat_max stats]
  /\ computeStats sqrt [] = zeroStats.
Proof.
  intros values stats. subst stats.
  destruct (sortNumbers_spec values) as (Hsorted & Hlen & Hin).
  unfold computeStats.
  replace (lengthZ values =? 0) with false
    by (unfold lengthZ, values; simpl; reflexivity).
  cbv zeta. cbn [stat_min stat_q1 stat_median stat_q3 stat_max].
  set (sorted := sortNumbers values) in *.
  assert (lengthZ sorted = lengthZ values) as HlenZ
    by (unfold lengthZ; now rewrite Hlen).
  assert (0 < lengthZ sorted) as Hpos
    by (rewrite HlenZ; unfold lengthZ, values; simpl length; lia).
  destruct (quantile_index (lengthZ sorted) (25 # 100) (5 # 10) Hpos)
    as ((Hq1a & Hq1b) & Hq1c); try lra.
  destruct (quantile_index (lengthZ sorted) (5 # 10) (75 # 100) Hpos)
    as ((Hq2a & Hq2b) & Hq2c); try lra.
  unfold at_index.
  assert (forall i j : Z, 0 <= i <= j -> j < lengthZ sorted ->
            (nth (Z.to_nat i) sorted 0 <= nth (Z.to_nat j) sorted 0)%Q) as Hmono.
  { intros i j Hij Hj. apply sorted_nth_le; [assumption| |]; unfold lengthZ in *; lia. }
  assert (forall i : Z, 0 <= i < lengthZ sorted ->
            In (nth (Z.to_nat i) sorted 0%Q) values) as Hmem.
  { intros i Hi. apply Hin, nth_In. unfold lengthZ in *. lia. }
  assert (Forall (fun v => nth (Z.to_nat 0) sorted 0 <= v
                           /\ v <= nth (Z.to_nat (lengthZ sorted - 1)) sorted 0)%Q
                 sorted) as Hbounds.
  { apply Forall_forall. intros v Hv. apply list_elem_of_In in Hv.
    destruct (In_nth _ _ 0%Q Hv) as (k & Hk & <-).
    split.
    - apply sorted_nth_le; [assumption|simpl; lia|assumption].
    - apply sorted_nth_le; [assumption| |]; unfold lengthZ in *; lia. }
  split; [apply Hmono; lia|].
  split; [apply Hmono; lia|].
  split; [apply Hmono; lia|].
  split; [apply Hmono; lia|].
  split.
  { apply Forall_forall. intros v Hv. apply list_elem_of_In in Hv.
    apply Hin in Hv. rewrite Forall_forall in Hbounds.
    apply Hbounds, list_elem_of_In, Hv. }
  split; [|reflexivity].
  repeat (apply Forall_cons; split; [apply Hmem; lia|]).
  apply Forall_nil. exact I.
Qed.

(** ** Landmark averages and iris geometry *)

Section Averages.

Lemma presentPoints_cons (landmarks : list Landmark) (i : nat) (indices : list nat) :
  presentPoints landmarks (i :: indices)
    = match landmarks !! i with
      | Some point => point :: presentPoints landmarks indices
      | None => presentPoints landmarks indices
      end.
Proof. unfold presentPoints. simpl. destruct (landmarks !! i); reflexivity. Qed.

Lemma presentPoints_length (landmarks : list Landmark) (indices : list nat) :
  (length (presentPoints landmarks indices) <= length indices)%nat
  /\ (length (presentPoints landmarks indices) = length indices
      <-> Forall (fun i => (i < length landmarks)%nat) indices).
Proof.
  induction indices as [|i indices [IHle IHeq]].
  - simpl. split; [lia|]. split; [constructor|reflexivity].
  - rewrite presentPoints_cons, Forall_cons.
    destruct (landmarks !! i) as [point|] eqn:Hi; simpl.
    + apply lookup_lt_Some in Hi. split; [lia|]. split.
      * intros H. split; [assumption|]. apply IHeq. lia.
      * intros [_ H]. f_equal. now apply IHeq.
    + apply lookup_ge_None in Hi. split; [lia|]. split; [lia|].
      intros [H _]. lia.
Qed.


Lemma presentPoints_In (landmarks : list Landmark) (indices : list nat) :
  Forall (fun point => In point landmarks) (presentPoints landmarks indices).
Proof.
  induction indices as [|i indices IH]; [constructor|].
  rewrite presentPoints_cons.
  destruct (landmarks !! i) as [point|] eqn:Hi; [|assumption].
  apply Forall_cons. split; [|assumption].
  apply list_elem_of_In, list_elem_of_lookup. eauto.
Qed.


Lemma fold_xy {A} (fx fy : A -> Q) (points : list A) : forall acc,
  let total :=
    fold_left (fun acc point => {| px := px acc + fx point; py := py acc + fy point |})%Q
              points acc in
  (px total == px acc + sum (map fx points))%Q
  /\ (py total == py acc + sum (map fy points))%Q.
Proof.
  induction points as [|point points IH]; intros acc; simpl.
  - unfold sum. simpl. split; ring.
  - destruct (IH {| px := px acc + fx point; py := py acc + fy point |}%Q)
      as [Hx Hy].
    cbv zeta in Hx, Hy. rewrite Hx, Hy, !sum_cons. cbn [px py]. split; ring.
Qed.

Lemma map_between {A} (f : A -> Q) (lo hi : Q) (l : list A) :
  Forall (fun a => lo <= f a /\ f a <= hi)%Q l ->
  Forall (fun v => lo <= v /\ v <= hi)%Q (map f l).
Proof. induction 1; simpl; constructor; assumption. Qed.

Lemma mean_of_map_between {A} (f : A -> Q) (lo hi : Q) (l : list A) :
  l <> [] ->
  Forall (fun a => lo <= f a /\ f a <= hi)%Q l ->
  (lo <= (0 + sum (map f l)) / inject_Z (lengthZ l))%Q
  /\ ((0 + sum (map f l)) / inject_Z (lengthZ l) <= hi)%Q.
Proof.
  intros Hne Hall. destruct l as [|a l]; [congruence|].
  pose proof (average_between lo hi (f a) (map f l)
                (map_between f lo hi (a :: l) Hall)) as [Hlo Hhi].
  assert (lengthZ (f a :: map f l) = lengthZ (a :: l)) as Hlen
    by (unfold lengthZ; simpl; now rewrite length_map).
  rewrite Hlen in Hlo, Hhi. cbn [map]. rewrite Qplus_0_l. split; assumption.
Qed.

End Averages.


Lemma omap_empty {A B} (f : A -> option B) (l : list A) :
  omap f l = [] <-> Forall (fun a => f a = None) l.
Proof.
  induction l as [|a l IH]; simpl.
  - split; [constructor|reflexivity].
  - rewrite Forall_cons. destruct (f a); [|rewrite IH; tauto].
    split; [discriminate|]. intros [H _]. discriminate.
Qed.

Lemma omap_Forall {A B} (f : A -> option B) (P : B -> Prop) (l : list A) :
  Forall (fun a => forall b, f a = Some b -> P b) l -> Forall P (omap f l).
Proof.
  induction 1 as [|a l Ha Hl IH]; simpl; [constructor|].
  destruct (f a) as [b|] eqn:Hfa; [|assumption].
  apply Forall_cons. split; [now apply Ha|assumption].
Qed.

Lemma averagePoint_between (samples : list IrisSample) (key : EyeKey)
    (average : Point2D) (lox hix loy hiy : Q) :
  averagePoint samples key = Some average ->
  Forall (fun sample =>
            forall point, sampleAtKey key sample = Some point ->
              (lox <= x3 point /\ x3 point <= hix)
              /\ (loy <= y3 point /\ y3 point <= hiy))%Q samples ->
  (lox <= px average)%Q /\ (px average <= hix)%Q
  /\ (loy <= py average)%Q /\ (py average <= hiy)%Q.
Proof.
  intros Hsome Hall.
  unfold averagePoint in Hsome.
  pose proof (omap_Forall (sampleAtKey key) _ samples Hall) as Hpts.
  set (valid := omap (sampleAtKey key) samples) in *.
  destruct (Z.eqb_spec (lengthZ valid) 0) as [|Hn]; [discriminate|].
  injection Hsome as <-. cbn [px py].
  destruct (fold_xy x3 y3 valid {| px := 0; py := 0 |}) as [Hx Hy].
  cbv zeta in Hx, Hy. rewrite Hx, Hy. cbn [px py].
  assert (valid <> []) as Hne by (intros ->; apply Hn; reflexivity).
  destruct (mean_of_map_between x3 lox hix valid Hne) as [Hx1 Hx2].
  { eapply Forall_impl; [exact Hpts|]. intros point H. apply H. }
  destruct (mean_of_map_between y3 loy hiy valid Hne) as [Hy1 Hy2].
  { eapply Forall_impl; [exact Hpts|]. intros point H. apply H. }
  auto.
Qed.

Lemma averagePoint_None (samples : list IrisSample) (key : EyeKey) :
  averagePoint samples key = None
  <-> Forall (fun sample => sampleAtKey key sample = None) samples.
Proof.
  rewrite <- omap_empty. unfold averagePoint.
  destruct (omap (sampleAtKey key) samples) as [|point points].
  - simpl. tauto.
  - replace (lengthZ (point :: points) =? 0) with false
      by (unfold lengthZ; simpl; reflexivity).
    split; discriminate.
Qed.

Lemma averagePoint_coincide (samples : list IrisSample) (key : EyeKey)
    (average : Point2D) (c : Point3D) :
  averagePoint samples key = Some average ->
  Forall (fun sample =>
            forall point, sampleAtKey key sample = Some point ->
              x3 point == x3 c /\ y3 point == y3 c)%Q samples ->
  (px average == x3 c)%Q /\ (py average == y3 c)%Q.
Proof.
  intros Hsome Hall.
  destruct (averagePoint_between samples key average
              (x3 c) (x3 c) (y3 c) (y3 c) Hsome)
    as (H1 & H2 & H3 & H4).
  { eapply Forall_impl; [exact Hall|].
    intros sample H point Hpoint. destruct (H point Hpoint) as [Hx Hy].
    rewrite Hx, Hy. repeat split; apply Qle_refl. }
  split; apply Qle_antisym; assumption.
Qed.



Lemma sum_nonneg (l : list Q) : Forall (fun v => 0 <= v)%Q l -> (0 <= sum l)%Q.
Proof.
  induction 1 as [|x l Hx Hl IH].
  - unfold sum. simpl. lra.
  - rewrite sum_cons. lra.
Qed.

(** X5. [getIrisGeometry] returns a geometry exactly when every iris index is
    inside the landmark array.  For a non-empty index list the centre lies
    within any bounds that hold for all landmarks, the pixel centre is the
    centre scaled by width and height, and the radius is not negative as long
    as [Math.hypot] is not. *)
Theorem X5_getIrisGeometry (hypot : Q -> Q -> Q) (landmarks : list Landmark)
    (irisIndices : list nat) (width height : Q) :
  (is_Some (getIrisGeometry hypot landmarks irisIndices width height)
   <-> Forall (fun i => (i < length landmarks)%nat) irisIndices)
  /\ (forall geometry,
        getIrisGeometry hypot landmarks irisIndices width height = Some geometry ->
        px (pixel geometry) = (px (center geometry) * width)%Q
        /\ py (pixel geometry) = (py (center geometry) * height)%Q
        /\ ((forall a b, 0 <= hypot a b)%Q -> (0 <= radius geometry)%Q)
        /\ (forall lox hix loy hiy,
              irisIndices <> [] ->
              Forall (fun point => (lox <= lmx point /\ lmx point <= hix)
                                   /\ (loy <= lmy point /\ lmy point <= hiy))%Q
                     landmarks ->
              (lox <= px (center geometry))%Q /\ (px (center geometry) <= hix)%Q
              /\ (loy <= py (center geometry))%Q
              /\ (py (center geometry) <= hiy)%Q)).
Proof.
  destruct (presentPoints_length landmarks irisIndices) as [Hle Heq].
  pose proof (presentPoints_In landmarks irisIndices) as Hin.
  unfold getIrisGeometry.
  set (points := presentPoints landmarks irisIndices) in *.
  split.
  - rewrite <- Heq.
    destruct (Z.eqb_spec (lengthZ points) (lengthZ irisIndices)) as [He|Hne];
      cbn [negb]; unfold lengthZ in *.
    + split; [intros _; lia|intros _; eexists; reflexivity].
    + split; [intros [g Hg]; discriminate|intros H; lia].
  - intros geometry Hsome.
    destruct (Z.eqb_spec (lengthZ points) (lengthZ irisIndices)) as [He|Hne];
      cbn [negb] in Hsome; [|discriminate].
    injection Hsome as <-. cbn [pixel center radius px py].
    split; [reflexivity|]. split; [reflexivity|]. split.
    + intros Hhypot.
      set (total := fold_left _ points 0%Q).
      assert (0 <= total)%Q as Htotal.
      { subst total.
        rewrite (fold_add_map
                   (fun point => hypot ((lmx point - _) * width)%Q
                                       ((lmy point - _) * height)%Q)).
        rewrite Qplus_0_l. apply sum_nonneg.
        apply Forall_forall. intros v Hv.
        apply list_elem_of_In, in_map_iff in Hv. destruct Hv as (point & <- & _).
        apply Hhypot. }
      assert (0 <= total / inject_Z (lengthZ points))%Q as Hdiv.
      { unfold Qdiv. apply Qmult_le_0_compat; [assumption|].
        apply Qinv_le_0_compat. change 0%Q with (inject_Z 0).
        rewrite <- Zle_Qle. unfold lengthZ. lia. }
      unfold Num.or_else.
      destruct (Qeq_bool _ 0); [apply Qle_refl|exact Hdiv].
    + intros lox hix loy hiy Hne Hall.
      destruct (fold_xy lmx lmy points {| px := 0; py := 0 |}) as [Hx Hy].
      cbv zeta in Hx, Hy. rewrite Hx, Hy. cbn [px py].
      assert (points <> []) as Hpne.
      { intros Hnil. rewrite Hnil in He. unfold lengthZ in He. simpl in He.
        destruct irisIndices; [congruence|simpl in He; lia]. }
      assert (Forall (fun point => (lox <= lmx point /\ lmx point <= hix)
                                   /\ (loy <= lmy point /\ lmy point <= hiy))%Q
                     points) as Hpts.
      { eapply Forall_impl; [exact Hin|]. intros point Hpoint. simpl in Hpoint.
        rewrite Forall_forall in Hall. apply Hall, list_elem_of_In, Hpoint. }
      destruct (mean_of_map_between lmx lox hix points Hpne) as [Hx1 Hx2].
      { eapply Forall_impl; [exact Hpts|]. intros point H. apply H. }
      destruct (mean_of_map_between lmy loy hiy points Hpne) as [Hy1 Hy2].
      { eapply Forall_impl; [exact Hpts|]. intros point H. apply H. }
      auto.
Qed.

Lemma opennessOf_range (vertical horizontal : Q) :
  (0 <= opennessOf vertical horizontal)%Q /\ (opennessOf vertical horizontal <= 1)%Q.
Proof.
  unfold opennessOf. destruct (Num.gtb horizontal 0).
  - apply clamp_range. lra.
  - split; lra.
Qed.

Lemma opennessOf_no_width (vertical : Q) : opennessOf vertical 0 = 0%Q.
Proof. reflexivity. Qed.

(** X6. The openness of each eye is always between 0 and 1.  When the landmark
    array does not reach the eye corners (fewer than 134 landmarks for the left
    eye, fewer than 363 for the right) the eye's width reads 0 and so does its
    openness; with fewer than 134 landmarks both eyes read closed, and a
    detector that was open registers a blink. *)
Theorem X6_eye_openness (hypot : Q -> Q -> Q) (landmarks : list Landmark) :
  let eyes := measureEyes hypot landmarks in
  ((0 <= leftOpenness eyes)%Q /\ (leftOpenness eyes <= 1)%Q
   /\ (0 <= rightOpenness eyes)%Q /\ (rightOpenness eyes <= 1)%Q)
  /\ ((length landmarks <= 133)%nat ->
        leftHorizontal eyes = 0%Q /\ leftOpenness eyes = 0%Q)
  /\ ((length landmarks <= 362)%nat ->
        rightHorizontal eyes = 0%Q /\ rightOpenness eyes = 0%Q)
  /\ ((length landmarks <= 133)%nat ->
        forall dateNow internal,
          blinkState internal = open ->
          let internal' := onResults (faceFrame hypot landmarks dateNow) internal in
          blinkState internal' = closed
          /\ blinkCount internal' = blinkCount internal + 1).
Proof.
  intros eyes.
  assert ((length landmarks <= 133)%nat ->
          leftHorizontal eyes = 0%Q /\ leftOpenness eyes = 0%Q) as Hleft.
  { intros Hshort. subst eyes. unfold measureEyes.
    cbn [leftHorizontal leftOpenness].
    unfold leftEyeInnerCorner.
    rewrite (lookup_ge_None_2 landmarks 133%nat) by lia.
    cbn [option_map getDistance]. split; reflexivity. }
  assert ((length landmarks <= 362)%nat ->
          rightHorizontal eyes = 0%Q /\ rightOpenness eyes = 0%Q) as Hright.
  { intros Hshort. subst eyes. unfold measureEyes.
    cbn [rightHorizontal rightOpenness].
    unfold rightEyeInnerCorner.
    rewrite (lookup_ge_None_2 landmarks 362%nat) by lia.
    cbn [option_map getDistance]. split; reflexivity. }
  split; [|split; [exact Hleft|split; [exact Hright|]]].
  - subst eyes. unfold measureEyes. cbn [leftOpenness rightOpenness].
    pose proof opennessOf_range. repeat split; apply opennessOf_range.
  - intros Hshort dateNow internal Hopen internal'. subst internal'.
    unfold faceFrame. fold eyes.
    destruct (Hleft Hshort) as [_ ->].
    destruct (Hright ltac:(lia)) as [_ ->].
    cbn [onResults].
    rewrite blinkStep_state, blinkStep_count, blinkStep_state.
    cbn [countFrame blinkState blinkCount]. rewrite Hopen.
    split; reflexivity.
Qed.

(** ** Applying and fitting the calibration *)

(** X7. [applyCalibration] with a model always returns a point of the unit
    square, whatever the model; the identity model leaves a point of the unit
    square where it is; a missing point stays missing and a missing model
    returns the point untouched. *)
Theorem X7_applyCalibration_unit_square (model : CalibrationModel) :
  (forall point, exists corrected,
     applyCalibration (Some model) (Some point) = Some corrected
     /\ (0 <= px corrected)%Q /\ (px corrected <= 1)%Q
     /\ (0 <= py corrected)%Q /\ (py corrected <= 1)%Q)
  /\ (forall point,
        (0 <= px point)%Q -> (px point <= 1)%Q ->
        (0 <= py point)%Q -> (py point <= 1)%Q ->
        exists corrected,
          applyCalibration (Some defaultCalibrationModel) (Some point)
            = Some corrected
          /\ (px corrected == px point)%Q /\ (py corrected == py point)%Q)
  /\ applyCalibration (Some model) None = None
  /\ (forall point, applyCalibration None point = point).
Proof.
  split; [|split; [|split]].
  - intros point. eexists. split; [reflexivity|]. cbn [px py].
    pose proof (clamp_range (scaleX model * px point + offsetX model) 0 1).
    pose proof (clamp_range (scaleY model * py point + offsetY model) 0 1).
    repeat split; try tauto; first [apply H|apply H0]; lra.
  - intros point Hx0 Hx1 Hy0 Hy1. eexists. split; [reflexivity|].
    cbn [px py defaultCalibrationModel scaleX offsetX scaleY offsetY].
    split; apply clamp_unit; try assumption; ring.
  - reflexivity.
  - intros [point|]; reflexivity.
Qed.

(** ** Calibration run *)

Section CalibrationRun.

Import Calibration.

Lemma pairsOf_Some (measuredOf : Recorded -> option Point2D) (entries : list Recorded) :
  Forall (fun entry => is_Some (entryTarget entry)) entries ->
  is_Some (pairsOf measuredOf entries).
Proof.
  induction 1 as [|entry entries [goal Hgoal] Hrest [pairs IH]]; simpl.
  - eexists; reflexivity.
  - destruct (measuredOf entry); [|eexists; exact IH].
    rewrite Hgoal, IH. eexists; reflexivity.
Qed.

Lemma targets_known (entries : list Recorded) (points : list Point2D) :
  map entryTarget entries = map Some points ->
  Forall (fun entry => is_Some (entryTarget entry)) entries.
Proof.
  revert points. induction entries as [|entry entries IH]; intros points H.
  - constructor.
  - destruct points as [|point points]; [discriminate|].
    simpl in H. injection H as Hentry Hrest.
    apply Forall_cons. split; [rewrite Hentry; eexists; reflexivity|].
    now apply (IH points).
Qed.

Lemma step_inactive (l r : option Point3D) (ctx : Context) :
  status ctx <> running -> step l r ctx = Some (ctx, None).
Proof. unfold step. destruct (status ctx); [reflexivity|congruence|reflexivity]. Qed.

Lemma step_missing_centre (l r : option Point3D) (ctx : Context) :
  More.bothCentres (l, r) = false -> step l r ctx = Some (ctx, None).
Proof.
  unfold step. destruct (status ctx), l, r; simpl; try reflexivity; discriminate.
Qed.

Lemma step_valid (l r : Point3D) (ctx : Context) :
  status ctx = running -> More.underWay ctx ->
  exists ctx' event,
    step (Some l) (Some r) ctx = Some (ctx', event)
    /\ (More.progress ctx + 1 < More.framesToComplete ->
          status ctx' = running /\ More.underWay ctx'
          /\ More.progress ctx' = More.progress ctx + 1
          /\ event = None /\ models ctx' = models ctx)
    /\ (More.framesToComplete <= More.progress ctx + 1 ->
          status ctx' = complete /\ pointIndex ctx' = lengthZ calibrationPoints
          /\ event = Some (models ctx')
          /\ map entryTarget (recorded ctx') = map Some calibrationPoints
          /\ samplesForPoint ctx' = []).
Proof.
  intros Hrun (Hindex & Hbuffer & Htargets).
  unfold More.progress, More.framesToComplete, FRAMES_PER_CAL_POINT in *.
  change (lengthZ calibrationPoints) with 5 in *.
  unfold step. rewrite Hrun.
  change FRAMES_PER_CAL_POINT with 45. change (lengthZ calibrationPoints) with 5.
  set (sample := {| sampleLeft := Some l; sampleRight := Some r |}).
  assert (lengthZ (samplesForPoint ctx ++ [sample])%list
          = lengthZ (samplesForPoint ctx) + 1) as Hlen
    by (unfold lengthZ; rewrite length_app; simpl; lia).
  rewrite Hlen.
  destruct (Z.leb_spec 45 (lengthZ (samplesForPoint ctx) + 1)) as [Hfull|Hmore].
  - set (entry := {| entryTarget := calibrationPoints !! Z.to_nat (pointIndex ctx);
                     entryLeft := _; entryRight := _ |}).
    assert (map entryTarget (recorded ctx ++ [entry])%list
            = map Some (take (Z.to_nat (pointIndex ctx + 1)) calibrationPoints))
      as Htargets'.
    { rewrite map_app, Htargets. cbn [map entry entryTarget].
      assert (pointIndex ctx = 0 \/ pointIndex ctx = 1 \/ pointIndex ctx = 2
              \/ pointIndex ctx = 3 \/ pointIndex ctx = 4) as Hcases by lia.
      destruct Hcases as [->|[->|[->|[->| ->]]]]; reflexivity. }
    change (lengthZ calibrationPoints) with 5.
    destruct (Z.leb_spec 5 (pointIndex ctx + 1)) as [Hlast|Hnext].
    + assert (pointIndex ctx = 4) as Hfour by lia.
      assert (Forall (fun e => is_Some (entryTarget e)) (recorded ctx ++ [entry])%list)
        as Hknown by (eapply targets_known; exact Htargets').
      destruct (pairsOf_Some entryLeft _ Hknown) as [leftPairs ->].
      destruct (pairsOf_Some entryRight _ Hknown) as [rightPairs ->].
      eexists. eexists. split; [reflexivity|].
      cbn [status pointIndex models recorded samplesForPoint].
      split; [intros; lia|]. intros _.
      repeat split; try lia.
      rewrite Htargets', Hfour. reflexivity.
    + eexists. eexists. split; [reflexivity|].
      cbn [status pointIndex models recorded samplesForPoint].
      split; [|intros; unfold lengthZ in *; simpl in *; lia].
      intros _. split; [reflexivity|]. split.
      * unfold More.underWay. cbn [pointIndex samplesForPoint recorded].
        change (lengthZ calibrationPoints) with 5.
        split; [lia|].
        split; [unfold lengthZ, FRAMES_PER_CAL_POINT; simpl; lia|exact Htargets'].
      * unfold lengthZ at 1. cbn [length Z.of_nat]. repeat split. lia.
  - eexists. eexists. split; [reflexivity|].
    cbn [status pointIndex models recorded samplesForPoint].
    split; [|intros; lia]. intros _. split; [reflexivity|]. split.
    + unfold More.underWay. cbn [pointIndex samplesForPoint recorded].
      change (lengthZ calibrationPoints) with 5.
      unfold FRAMES_PER_CAL_POINT. rewrite Hlen.
      split; [lia|]. split; [lia|exact Htargets].
    + rewrite Hlen. repeat split. lia.
Qed.

Lemma run_inactive (frames : list (option Point3D * option Point3D)) (ctx : Context) :
  status ctx <> running -> run frames ctx = Some (ctx, []).
Proof.
  intros Hstatus. induction frames as [|[l r] frames IH]; [reflexivity|].
  cbn [run]. rewrite step_inactive by assumption. rewrite IH. reflexivity.
Qed.

Lemma run_under_way (frames : list (option Point3D * option Point3D)) :
  forall ctx,
    status ctx = running -> More.underWay ctx ->
    let valid := More.progress ctx + lengthZ (List.filter More.bothCentres frames) in
    exists final events,
      run frames ctx = Some (final, events)
      /\ (valid < More.framesToComplete ->
            status final = running /\ More.underWay final
            /\ More.progress final = valid
            /\ events = [] /\ models final = models ctx)
      /\ (More.framesToComplete <= valid ->
            status final = complete
            /\ pointIndex final = lengthZ calibrationPoints
            /\ events = [models final]
            /\ map entryTarget (recorded final) = map Some calibrationPoints
            /\ samplesForPoint final = []).
Proof.
  induction frames as [|[l r] frames IH]; intros ctx Hrun Hway valid; subst valid.
  - exists ctx, []. split; [reflexivity|].
    change (lengthZ (List.filter More.bothCentres [])) with 0.
    rewrite Z.add_0_r.
    split; [intros _; repeat split; try assumption; apply Hway|].
    intros Hdone. exfalso.
    destruct Hway as (Hindex & Hbuffer & _).
    unfold More.progress, More.framesToComplete, FRAMES_PER_CAL_POINT in *.
    change (lengthZ calibrationPoints) with 5 in *. lia.
  - cbn [run List.filter].
    destruct (More.bothCentres (l, r)) eqn:Hboth.
    + destruct l as [l|], r as [r|]; try discriminate.
      destruct (step_valid l r ctx Hrun Hway) as (ctx' & event & -> & Hmore & Hdone).
      assert (lengthZ ((Some l, Some r) :: List.filter More.bothCentres frames)
              = 1 + lengthZ (List.filter More.bothCentres frames)) as ->
        by (unfold lengthZ; simpl length; lia).
      assert (0 <= lengthZ (List.filter More.bothCentres frames)) as Hcount
        by (unfold lengthZ; lia).
      destruct (Z.lt_ge_cases (More.progress ctx + 1) More.framesToComplete)
        as [Hlt|Hge].
      * destruct (Hmore Hlt) as (Hrun' & Hway' & Hprog & -> & Hmodels).
        pose proof (IH ctx' Hrun' Hway') as Hih. cbv zeta in Hih.
        destruct Hih as (final & events & -> & Hm & Hd).
        exists final, events. split; [reflexivity|].
        rewrite Hprog in Hm, Hd. rewrite <- Hmodels, Z.add_assoc.
        split; assumption.
      * destruct (Hdone Hge) as (Hcomplete & Hindex & -> & Htargets & Hbuffer).
        rewrite run_inactive by (rewrite Hcomplete; discriminate).
        exists ctx', [models ctx']. split; [reflexivity|].
        rewrite Z.add_assoc.
        split; [intros; lia|]. intros _. auto.
    + rewrite step_missing_centre by assumption.
      pose proof (IH ctx Hrun Hway) as Hih. cbv zeta in Hih.
      destruct Hih as (final & events & -> & Hm & Hd).
      exists final, events. split; [reflexivity|]. split; assumption.
Qed.

End CalibrationRun.

(** X9. A calibration started on a supported browser never raises, whatever
    frames follow.  It depends only on the number v of frames in which both
    iris centres were found: while v < 225 it is still running at point
    v div 45 with v mod 45 frames buffered, the models are the identity and no
    event has been sent; from v = 225 on it is complete, exactly one
    completion event has been sent, carrying the final models, and the five
    recorded entries carry the five targets in presentation order. *)
Theorem X9_calibration_run (frames : list (option Point3D * option Point3D))
    (before : Calibration.Context) :
  let valid := lengthZ (List.filter More.bothCentres frames) in
  exists final events,
    Calibration.run frames (Calibration.startCalibration true before)
      = Some (final, events)
    /\ (valid < 225 ->
          Calibration.status final = Calibration.running
          /\ Calibration.pointIndex final = valid / 45
          /\ lengthZ (Calibration.samplesForPoint final) = valid mod 45
          /\ events = []
          /\ Calibration.models final = Calibration.defaultModels)
    /\ (225 <= valid ->
          Calibration.status final = Calibration.complete
          /\ Calibration.pointIndex final = 5
          /\ events = [Calibration.models final]
          /\ map Calibration.entryTarget (Calibration.recorded final)
             = map Some calibrationPoints
          /\ Calibration.samplesForPoint final = []).
Proof.
  intros valid. subst valid.
  set (start := Calibration.startCalibration true before).
  assert (More.underWay start) as Hway.
  { unfold More.underWay. simpl. repeat split; try reflexivity; unfold lengthZ; simpl; lia. }
  pose proof (run_under_way frames start eq_refl Hway) as Hgen.
  cbv zeta in Hgen. destruct Hgen as (final & events & Hrun & Hmore & Hdone).
  exists final, events. split; [exact Hrun|].
  change (More.progress start) with 0 in Hmore, Hdone.
  change More.framesToComplete with 225 in Hmore, Hdone.
  rewrite Z.add_0_l in Hmore, Hdone.
  split.
  - intros Hlt. destruct (Hmore Hlt) as (Hstatus & (Hindex & Hbuffer & _) & Hprog & Hev & Hmodels).
    change (lengthZ calibrationPoints) with 5 in Hindex.
    unfold More.progress, FRAMES_PER_CAL_POINT in *.
    assert (0 <= lengthZ (Calibration.samplesForPoint final)) by (unfold lengthZ; lia).
    split; [assumption|].
    split; [apply (Z.div_unique _ 45 _ (lengthZ (Calibration.samplesForPoint final))); lia|].
    split; [apply (Z.mod_unique _ 45 (Calibration.pointIndex final)); lia|].
    split; assumption.
  - intros Hge. destruct (Hdone Hge) as (H1 & H2 & H3 & H4 & H5).
    repeat split; assumption.
Qed.

(** X10. A calibration context that is idle or complete is left exactly as it
    is by every frame, and no event is sent: the fitted models stay frozen
    until the calibration is started again.  [startCalibration] on an
    unsupported browser changes nothing, and [resetCalibration] restores the
    idle context with identity models. *)
Theorem X10_calibration_frozen (frames : list (option Point3D * option Point3D))
    (ctx : Calibration.Context) :
  (Calibration.status ctx <> Calibration.running ->
     Calibration.run frames ctx = Some (ctx, []))
  /\ Calibration.startCalibration false ctx = ctx
  /\ Calibration.resetCalibration ctx = Calibration.initial
  /\ Calibration.run frames (Calibration.resetCalibration ctx)
     = Some (Calibration.initial, []).
Proof.
  split; [apply run_inactive|].
  split; [reflexivity|]. split; [reflexivity|].
  apply run_inactive. discriminate.
Qed.

(** ** A steady calibration recovers an affine relation *)

Section SteadyCalibration.

Import Calibration.

Lemma run_app (first second : list (option Point3D * option Point3D)) :
  forall ctx,
    run (first ++ second)%list ctx
    = match run first ctx with
      | Some (middle, events1) =>
          match run second middle with
          | Some (final, events2) => Some (final, (events1 ++ events2)%list)
          | None => None
          end
      | None => None
      end.
Proof.
  induction first as [|[l r] first IH]; intros ctx.
  - cbn [app run]. destruct (run second ctx) as [[final events]|]; reflexivity.
  - cbn [app run]. destruct (step l r ctx) as [[ctx' event]|]; [|reflexivity].
    rewrite IH. destruct (run first ctx') as [[middle events1]|]; [|reflexivity].
    destruct (run second middle) as [[final events2]|]; [|reflexivity].
    now rewrite app_assoc.
Qed.

Lemma run_buffer (l r : Point3D) (j : nat) : forall ctx buffer,
  lengthZ buffer + Z.of_nat j < 45 ->
  run (repeat (Some l, Some r) j) (More.withBuffer ctx buffer)
  = Some (More.withBuffer ctx
            (buffer ++ repeat {| sampleLeft := Some l; sampleRight := Some r |} j)%list,
          []).
Proof.
  induction j as [|j IH]; intros ctx buffer Hroom.
  - cbn [repeat run]. now rewrite app_nil_r.
  - cbn [repeat run]. unfold step at 1.
    cbn [More.withBuffer status samplesForPoint pointIndex recorded models].
    assert (lengthZ (buffer ++ [{| sampleLeft := Some l; sampleRight := Some r |}])%list
            = lengthZ buffer + 1) as Hlen
      by (unfold lengthZ; rewrite length_app; simpl; lia).
    rewrite Hlen.
    replace (FRAMES_PER_CAL_POINT <=? lengthZ buffer + 1) with false
      by (symmetry; apply Z.leb_gt; unfold FRAMES_PER_CAL_POINT; lia).
    change {| status := running; pointIndex := pointIndex ctx;
              samplesForPoint := ?b; recorded := recorded ctx;
              models := models ctx |}
      with (More.withBuffer ctx b).
    rewrite IH by (rewrite Hlen; lia).
    rewrite <- app_assoc. reflexivity.
Qed.

Lemma run_block (centre : Point3D * Point3D) (ctx : Context) :
  status ctx = running -> samplesForPoint ctx = [] ->
  run (repeat (Some (fst centre), Some (snd centre)) 45) ctx
  = match step (Some (fst centre)) (Some (snd centre))
               (More.withBuffer ctx (repeat (More.steadySample centre) 44)) with
    | Some (ctx', event) =>
        Some (ctx', match event with Some m => [m] | None => [] end)
    | None => None
    end.
Proof.
  intros Hrun Hbuffer.
  change (repeat (Some (fst centre), Some (snd centre)) 45)
    with (repeat (Some (fst centre), Some (snd centre)) 44
          ++ [(Some (fst centre), Some (snd centre))])%list.
  rewrite run_app.
  assert (ctx = More.withBuffer ctx []) as Hctx
    by (destruct ctx; simpl in *; subst; reflexivity).
  rewrite Hctx at 1.
  rewrite run_buffer by (unfold lengthZ; simpl; lia).
  cbn [app run]. unfold More.steadySample.
  destruct (step _ _ _) as [[ctx' event]|]; [|reflexivity].
  now rewrite app_nil_r.
Qed.

Lemma run_block_next (centre : Point3D * Point3D) (ctx : Context) :
  status ctx = running -> samplesForPoint ctx = [] ->
  pointIndex ctx + 1 < 5 ->
  run (repeat (Some (fst centre), Some (snd centre)) 45) ctx
  = Some (More.advance ctx (More.steadyEntry (pointIndex ctx) centre), []).
Proof.
  intros Hrun Hbuffer Hnext. rewrite run_block by assumption.
  unfold step.
  cbn [More.withBuffer status samplesForPoint pointIndex recorded models].
  change (FRAMES_PER_CAL_POINT <=? _) with true. cbv iota.
  change (lengthZ calibrationPoints) with 5.
  replace (5 <=? pointIndex ctx + 1) with false by (symmetry; apply Z.leb_gt; lia).
  reflexivity.
Qed.

Lemma run_block_last (centre : Point3D * Point3D) (ctx : Context) :
  status ctx = running -> samplesForPoint ctx = [] ->
  pointIndex ctx = 4 ->
  run (repeat (Some (fst centre), Some (snd centre)) 45) ctx
  = let entries := (recorded ctx ++ [More.steadyEntry 4 centre])%list in
    match pairsOf entryLeft entries, pairsOf entryRight entries with
    | Some leftPairs, Some rightPairs =>
        let models' :=
          {| leftModel := modelOf leftPairs; rightModel := modelOf rightPairs |} in
        Some ({| status := complete; pointIndex := 5; samplesForPoint := [];
                 recorded := entries; models := models' |},
              [models'])
    | _, _ => None
    end.
Proof.
  intros Hrun Hbuffer Hlast. rewrite run_block by assumption.
  unfold step.
  cbn [More.withBuffer status samplesForPoint pointIndex recorded models].
  change (FRAMES_PER_CAL_POINT <=? _) with true. cbv iota.
  rewrite Hlast. change (lengthZ calibrationPoints <=? 4 + 1) with true.
  cbv iota zeta.
  change {| entryTarget := calibrationPoints !! Z.to_nat 4;
            entryLeft := _; entryRight := _ |}
    with (More.steadyEntry 4 centre).
  destruct (pairsOf entryLeft _) as [leftPairs|]; [|reflexivity].
  destruct (pairsOf entryRight _) as [rightPairs|]; reflexivity.
Qed.

Lemma averagePoint_steady (key : EyeKey) (centre : Point3D * Point3D) :
  exists average,
    averagePoint (repeat (More.steadySample centre) 45) key = Some average
    /\ (px average == x3 (More.centreOf key centre))%Q
    /\ (py average == y3 (More.centreOf key centre))%Q.
Proof.
  destruct (averagePoint (repeat (More.steadySample centre) 45) key)
    as [average|] eqn:Haverage.
  - exists average. split; [reflexivity|].
    apply (averagePoint_coincide _ key average _ Haverage).
    apply Forall_forall. intros sample Hin.
    apply list_elem_of_In, repeat_spec in Hin. subst sample.
    intros point Hpoint.
    assert (point = More.centreOf key centre) as ->
      by (destruct key; simpl in *; congruence).
    split; reflexivity.
  - exfalso. apply averagePoint_None in Haverage.
    apply Forall_inv in Haverage. destruct key; discriminate.
Qed.

Lemma sum_Forall2 (l l' : list Q) : Forall2 Qeq l l' -> (sum l == sum l')%Q.
Proof.
  induction 1 as [|x y l l' Hxy Hl IH]; [reflexivity|].
  now rewrite !sum_cons, Hxy, IH.
Qed.

Lemma sumSquaredDeviations_Forall2 (l l' : list Q) : Forall2 Qeq l l' ->
  (Spec.sumSquaredDeviations l == Spec.sumSquaredDeviations l')%Q.
Proof.
  intros Hall.
  assert (Spec.average l == Spec.average l')%Q as Havg.
  { unfold Spec.average. rewrite (sum_Forall2 l l' Hall).
    unfold lengthZ. now rewrite (Forall2_length _ _ _ Hall). }
  unfold Spec.sumSquaredDeviations. apply sum_Forall2.
  revert Havg. generalize (Spec.average l) (Spec.average l'). intros m m' Hm.
  induction Hall as [|x y l l' Hxy Hl IH]; simpl; constructor.
  - now rewrite Hxy, Hm.
  - assumption.
Qed.

Lemma steady_calibration_fit (key : EyeKey)
    (centres : list (Point3D * Point3D)) (a b c d : Q)
    (before : Calibration.Context)
    (Haffine :
       Forall2 (fun centre goal =>
                  px goal == a * x3 (More.centreOf key centre) + b
                  /\ py goal == c * y3 (More.centreOf key centre) + d)%Q
               centres calibrationPoints)
    (Hx : (a == 1)%Q
          \/ ~ (Spec.sumSquaredDeviations
                  (map (fun centre => x3 (More.centreOf key centre)) centres)
                < 1 # 1000000)%Q)
    (Hy : (c == 1)%Q
          \/ ~ (Spec.sumSquaredDeviations
                  (map (fun centre => y3 (More.centreOf key centre)) centres)
                < 1 # 1000000)%Q) :
  exists final,
    Calibration.run (More.steadyFrames centres)
                    (Calibration.startCalibration true before)
      = Some (final, [Calibration.models final])
    /\ Calibration.status final = Calibration.complete
    /\ (scaleX (More.modelFor key (Calibration.models final)) == a)%Q
    /\ (offsetX (More.modelFor key (Calibration.models final)) == b)%Q
    /\ (scaleY (More.modelFor key (Calibration.models final)) == c)%Q
    /\ (offsetY (More.modelFor key (Calibration.models final)) == d)%Q.
Proof.
  pose proof (Forall2_length _ _ _ Haffine) as Hlen.
  destruct centres as [|c0 [|c1 [|c2 [|c3 [|c4 [|c5 rest]]]]]];
    try (simpl in Hlen; discriminate).
  clear Hlen. unfold calibrationPoints in Haffine.
  rewrite !Forall2_cons in Haffine.
  destruct Haffine as (H0 & H1 & H2 & H3 & H4 & _).
  set (start := Calibration.startCalibration true before).
  unfold More.steadyFrames. cbn [flat_map]. rewrite app_nil_r.
  rewrite run_app, (run_block_next c0 start); [|reflexivity|reflexivity|cbn; lia].
  cbv iota beta.
  rewrite run_app, run_block_next; [|reflexivity|reflexivity|cbn; lia].
  cbv iota beta.
  rewrite run_app, run_block_next; [|reflexivity|reflexivity|cbn; lia].
  cbv iota beta.
  rewrite run_app, run_block_next; [|reflexivity|reflexivity|cbn; lia].
  cbv iota beta.
  rewrite run_block_last; [|reflexivity|reflexivity|reflexivity].
  cbv zeta.
  cbn [More.advance Calibration.recorded Calibration.pointIndex app start
       Calibration.startCalibration negb].
  repeat match goal with
         | |- context [More.steadyEntry ?i ?centre] =>
             let k := eval vm_compute in i in
             progress change (More.steadyEntry i centre)
               with (More.steadyEntry k centre)
         end.
  unfold More.steadyEntry.
  repeat match goal with
         | |- context [calibrationPoints !! ?i] =>
             let t := eval vm_compute in (calibrationPoints !! i) in
             change (calibrationPoints !! i) with t
         end.
  destruct (averagePoint_steady LeftKey c0) as (l0 & -> & Hl0x & Hl0y).
  destruct (averagePoint_steady LeftKey c1) as (l1 & -> & Hl1x & Hl1y).
  destruct (averagePoint_steady LeftKey c2) as (l2 & -> & Hl2x & Hl2y).
  destruct (averagePoint_steady LeftKey c3) as (l3 & -> & Hl3x & Hl3y).
  destruct (averagePoint_steady LeftKey c4) as (l4 & -> & Hl4x & Hl4y).
  destruct (averagePoint_steady RightKey c0) as (r0 & -> & Hr0x & Hr0y).
  destruct (averagePoint_steady RightKey c1) as (r1 & -> & Hr1x & Hr1y).
  destruct (averagePoint_steady RightKey c2) as (r2 & -> & Hr2x & Hr2y).
  destruct (averagePoint_steady RightKey c3) as (r3 & -> & Hr3x & Hr3y).
  destruct (averagePoint_steady RightKey c4) as (r4 & -> & Hr4x & Hr4y).
  cbn [Calibration.pairsOf Calibration.entryLeft Calibration.entryRight
       Calibration.entryTarget].
  lazymatch goal with
  | |- exists final, Some (?ctx, _) = _ /\ _ => exists ctx
  end.
  split; [reflexivity|]. split; [reflexivity|].
  cbn [Calibration.models]. unfold Calibration.modelOf.
  destruct key; cbn [More.modelFor Calibration.leftModel Calibration.rightModel
                     More.centreOf map] in *.
  - change (lengthZ _ =? 0) with false. cbv iota.
    apply computeLinearMapping_affine.
    + discriminate.
    + repeat (apply Forall_cons; split;
              [cbn [measured target]; split;
               [first [rewrite Hl0x|rewrite Hl1x|rewrite Hl2x|rewrite Hl3x|rewrite Hl4x]
               |first [rewrite Hl0y|rewrite Hl1y|rewrite Hl2y|rewrite Hl3y|rewrite Hl4y]];
               tauto|]).
      apply Forall_nil. exact I.
    + destruct Hx as [Hx|Hx]; [left; exact Hx|right].
      cbn [measuredXs map measured].
      rewrite (sumSquaredDeviations_Forall2 _ [x3 (fst c0); x3 (fst c1); x3 (fst c2);
                                               x3 (fst c3); x3 (fst c4)]);
        [exact Hx|repeat constructor; assumption].
    + destruct Hy as [Hy|Hy]; [left; exact Hy|right].
      cbn [measuredYs map measured].
      rewrite (sumSquaredDeviations_Forall2 _ [y3 (fst c0); y3 (fst c1); y3 (fst c2);
                                               y3 (fst c3); y3 (fst c4)]);
        [exact Hy|repeat constructor; assumption].
  - change (lengthZ _ =? 0) with false. cbv iota.
    apply computeLinearMapping_affine.
    + discriminate.
    + repeat (apply Forall_cons; split;
              [cbn [measured target]; split;
               [first [rewrite Hr0x|rewrite Hr1x|rewrite Hr2x|rewrite Hr3x|rewrite Hr4x]
               |first [rewrite Hr0y|rewrite Hr1y|rewrite Hr2y|rewrite Hr3y|rewrite Hr4y]];
               tauto|]).
      apply Forall_nil. exact I.
    + destruct Hx as [Hx|Hx]; [left; exact Hx|right].
      cbn [measuredXs map measured].
      rewrite (sumSquaredDeviations_Forall2 _ [x3 (snd c0); x3 (snd c1); x3 (snd c2);
                                               x3 (snd c3); x3 (snd c4)]);
        [exact Hx|repeat constructor; assumption].
    + destruct Hy as [Hy|Hy]; [left; exact Hy|right].
      cbn [measuredYs map measured].
      rewrite (sumSquaredDeviations_Forall2 _ [y3 (snd c0); y3 (snd c1); y3 (snd c2);
                                               y3 (snd c3); y3 (snd c4)]);
        [exact Hy|repeat constructor; assumption].
Qed.

End SteadyCalibration.

(** X11. If during a calibration the gaze rests, for the 45 frames of each of
    the five targets, on one iris centre, and the targets are on each axis an
    affine function of those centres (with the centres not degenerate on that
    axis, or with slope 1), then the run completes with exactly one completion
    event, and the model fitted for that eye sends each of the five centres
    to its target within the small tolerance. *)
Theorem X11_steady_calibration (key : EyeKey)
    (centres : list (Point3D * Point3D)) (a b c d : Q)
    (before : Calibration.Context)
    (Haffine :
       Forall2 (fun centre goal =>
                  px goal == a * x3 (More.centreOf key centre) + b
                  /\ py goal == c * y3 (More.centreOf key centre) + d)%Q
               centres calibrationPoints)
    (Hx : (a == 1)%Q
          \/ ~ (Spec.sumSquaredDeviations
                  (map (fun centre => x3 (More.centreOf key centre)) centres)
                < 1 # 1000000)%Q)
    (Hy : (c == 1)%Q
          \/ ~ (Spec.sumSquaredDeviations
                  (map (fun centre => y3 (More.centreOf key centre)) centres)
                < 1 # 1000000)%Q) :
  exists final,
    Calibration.run (More.steadyFrames centres)
                    (Calibration.startCalibration true before)
      = Some (final, [Calibration.models final])
    /\ Calibration.status final = Calibration.complete
    /\ length (More.steadyPairs key centres) = 5%nat
    /\ Spec.reproducesWithin Spec.tolerance
         (More.modelFor key (Calibration.models final))
         (More.steadyPairs key centres) = true.
Proof.
  destruct (steady_calibration_fit key centres a b c d before Haffine Hx Hy)
    as (final & Hrun & Hstatus & HsX & HoX & HsY & HoY).
  exists final. split; [exact Hrun|]. split; [exact Hstatus|].
  split.
  { unfold More.steadyPairs. rewrite length_map, length_combine.
    rewrite (Forall2_length _ _ _ Haffine). reflexivity. }
  apply (reproducesWithin_affine _ _ a b c d HsX HoX HsY HoY);
    unfold More.steadyPairs; apply Forall_map.
  - clear Hx Hy Hrun. induction Haffine as [|centre goal rest goals Hhead Htail IH];
      [apply Forall_nil; exact I|].
    cbn [combine]. apply Forall_cons. split; [exact Hhead|exact IH].
  - assert (Forall (fun goal => (0 <= px goal <= 1)%Q /\ (0 <= py goal <= 1)%Q)
                   calibrationPoints) as Hgoals.
    { unfold calibrationPoints.
      repeat (apply Forall_cons; split;
              [cbn [px py]; repeat split; vm_compute; discriminate|]).
      apply Forall_nil. exact I. }
    apply Forall_forall. intros entry Hin.
    apply list_elem_of_In in Hin. destruct entry as [centre goal].
    apply in_combine_r in Hin. cbn [target snd].
    rewrite Forall_forall in Hgoals. apply Hgoals, list_elem_of_In, Hin.
Qed.

(** An instance of X11: a gaze that moves half as far as the targets gives a
    model of scale 2 and offset -1/2, which sends the five centres to the five
    targets. *)
Lemma X11_steady_calibration_witness :
  Forall2 (fun centre goal =>
             px goal == 2 * x3 (More.centreOf LeftKey centre) + - (1 # 2)
             /\ py goal == 2 * y3 (More.centreOf LeftKey centre) + - (1 # 2))%Q
          More.halvedCentres calibrationPoints
  /\ exists final,
       Calibration.run (More.steadyFrames More.halvedCentres)
                       (Calibration.startCalibration true Calibration.initial)
         = Some (final, [Calibration.models final])
       /\ Calibration.status final = Calibration.complete
       /\ length (More.steadyPairs LeftKey More.halvedCentres) = 5%nat
       /\ Spec.reproducesWithin Spec.tolerance
            (More.modelFor LeftKey (Calibration.models final))
            (More.steadyPairs LeftKey More.halvedCentres) = true.
Proof.
  assert (Forall2 (fun centre goal =>
                     px goal == 2 * x3 (More.centreOf LeftKey centre) + - (1 # 2)
                     /\ py goal == 2 * y3 (More.centreOf LeftKey centre) + - (1 # 2))%Q
                  More.halvedCentres calibrationPoints) as Hhalved.
  { repeat (apply Forall2_cons; split; [split; vm_compute; reflexivity|]).
    apply Forall2_nil. exact I. }
  split; [exact Hhalved|].
  apply (X11_steady_calibration LeftKey More.halvedCentres 2 (- (1 # 2)) 2
           (- (1 # 2)) Calibration.initial Hhalved);
    right; vm_compute; discriminate.
Defined.

(** ** Starting, timing and finalising a capture *)

(** X12. [startAssessment] starts a capture exactly when the browser is
    supported, age and gender are both non-empty, the age parses to a number
    between 2 and 18, and no capture is running; the capture then starts
    running with an empty sample buffer at the given time.  A capture that is
    already running is neither restarted nor emptied. *)
Theorem X12_startAssessment_validation (parseFloat : string -> option Q)
    (isSupported : bool) (age gender : string) (performanceNow : Q)
    (ref : AssessmentRef) :
  ((exists ref' startTimestamp,
      startAssessment parseFloat isSupported age gender performanceNow ref
        = Started ref' startTimestamp)
   <-> (isSupported = true /\ age <> "" /\ gender <> ""
        /\ (exists ageNum, parseFloat age = Some ageNum
                           /\ (2 <= ageNum)%Q /\ (ageNum <= 18)%Q)
        /\ status ref <> running))
  /\ (forall ref' startTimestamp,
        startAssessment parseFloat isSupported age gender performanceNow ref
          = Started ref' startTimestamp ->
        ref' = {| status := running; samples := [] |}
        /\ startTimestamp = performanceNow)
  /\ (status ref = running ->
        forall ref' startTimestamp,
          startAssessment parseFloat isSupported age gender performanceNow ref
            <> Started ref' startTimestamp).
Proof.
  unfold startAssessment.
  destruct isSupported; cbn [negb].
  2: { split; [split; [intros (r & t & H); discriminate|intros (H & _); discriminate]|].
       split; intros; discriminate. }
  destruct (String.eqb_spec age "") as [Hage|Hage]; cbn [orb].
  { split; [split; [intros (r & t & H); discriminate|intros (_ & H & _); contradiction]|].
    split; intros; discriminate. }
  destruct (String.eqb_spec gender "") as [Hgender|Hgender].
  { split; [split; [intros (r & t & H); discriminate|intros (_ & _ & H & _); contradiction]|].
    split; intros; discriminate. }
  destruct (parseFloat age) as [ageNum|] eqn:Hparse.
  2: { split; [split; [intros (r & t & H); discriminate
                      |intros (_ & _ & _ & (n & Hn & _) & _); discriminate]|].
       split; intros; discriminate. }
  destruct (Num.ltb ageNum 2) eqn:Hlow; cbn [orb].
  { apply ltb_lt in Hlow.
    split; [split; [intros (r & t & H); discriminate
                   |intros (_ & _ & _ & (n & [= <-] & Hn & _) & _); lra]|].
    split; intros; discriminate. }
  destruct (Num.gtb ageNum 18) eqn:Hhigh.
  { apply ltb_lt in Hhigh.
    split; [split; [intros (r & t & H); discriminate
                   |intros (_ & _ & _ & (n & [= <-] & _ & Hn) & _); lra]|].
    split; intros; discriminate. }
  assert (2 <= ageNum)%Q as H2.
  { apply Qnot_lt_le. intros H. apply ltb_lt in H. congruence. }
  assert (ageNum <= 18)%Q as H18.
  { apply Qnot_lt_le. intros H. apply ltb_lt in H. unfold Num.gtb in Hhigh. congruence. }
  destruct (status ref) eqn:Hstatus.
  - split; [split|split].
    + intros _. repeat split; try assumption; [eauto|discriminate].
    + intros _. eauto.
    + intros r t [= <- <-]. split; reflexivity.
    + discriminate.
  - split; [split|split].
    + intros (r & t & H). discriminate.
    + intros (_ & _ & _ & _ & H). congruence.
    + intros; discriminate.
    + intros; discriminate.
  - split; [split|split].
    + intros _. repeat split; try assumption; [eauto|discriminate].
    + intros _. eauto.
    + intros r t [= <- <-]. split; reflexivity.
    + discriminate.
Qed.

Lemma Qfloor_ge (z : Z) (x : Q) : (inject_Z z <= x)%Q <-> z <= Qfloor x.
Proof.
  split.
  - intros H. rewrite <- (Qfloor_Z z). now apply Qfloor_resp_le.
  - intros H. rewrite Zle_Qle in H.
    apply Qle_trans with (inject_Z (Qfloor x)); [assumption|apply Qfloor_le].
Qed.

Lemma Qfloor_lt (z : Z) (x : Q) : (x < inject_Z z)%Q <-> Qfloor x < z.
Proof.
  split.
  - intros H. apply Z.lt_nge. intros Hge. apply Qfloor_ge in Hge. lra.
  - intros H. apply Qnot_le_lt. intros Hle. apply Qfloor_ge in Hle. lia.
Qed.

Lemma elapsed_tenths (elapsed : Q) (k : Z) :
  (inject_Z k <= elapsed / IMAGE_DISPLAY_DURATION_MS)%Q
  <-> (inject_Z k * 10000 <= elapsed)%Q.
Proof.
  unfold IMAGE_DISPLAY_DURATION_MS, Qdiv. change (/ 10000)%Q with (1 # 10000)%Q.
  split; intros H; lra.
Qed.

(** X13. While a capture is running, the timer publishes a time left between
    0 and the full 30 seconds and an image index between 0 and 2 (0 during the
    first ten seconds, 2 from twenty seconds on), and it finalises the capture
    exactly when 30 seconds or more have elapsed.  As time advances the image
    index never decreases and the time left never increases.  When no capture
    is running the timer does nothing. *)
Theorem X13_timer_tick (startTimestamp : Q) (ref : AssessmentRef) :
  (forall performanceNow,
     timerTick performanceNow startTimestamp ref = None <-> status ref <> running)
  /\ (forall performanceNow tick,
        timerTick performanceNow startTimestamp ref = Some tick ->
        let elapsed := (performanceNow - startTimestamp)%Q in
        (0 <= remaining tick)%Q
        /\ imageIndex tick <= 2
        /\ (finalizes tick = true <-> (30000 <= elapsed)%Q)
        /\ ((0 <= elapsed)%Q ->
              (remaining tick <= 30000)%Q
              /\ 0 <= imageIndex tick
              /\ (imageIndex tick = 0 <-> (elapsed < 10000)%Q)
              /\ (imageIndex tick = 2 <-> (20000 <= elapsed)%Q)))
  /\ (forall earlier later tick1 tick2,
        (earlier <= later)%Q ->
        timerTick earlier startTimestamp ref = Some tick1 ->
        timerTick later startTimestamp ref = Some tick2 ->
        imageIndex tick1 <= imageIndex tick2
        /\ (remaining tick2 <= remaining tick1)%Q).
Proof.
  unfold timerTick.
  split; [|split].
  - intros performanceNow. destruct (status ref); split; congruence.
  - intros performanceNow tick Htick.
    set (elapsed := (performanceNow - startTimestamp)%Q) in *.
    destruct (status ref); try discriminate.
    apply (inj Some) in Htick. rewrite <- Htick. clear Htick tick.
    cbn [remaining imageIndex finalizes].
    unfold ASSESSMENT_DURATION_MS, ASSESSMENT_IMAGES_length.
    destruct (max_spec 0 (30000 - elapsed)) as (Hm1 & Hm2 & Hm3).
    change (3 - 1) with 2.
    pose proof (elapsed_tenths elapsed) as Htenths.
    split; [assumption|]. split; [lia|]. split.
    + rewrite Qle_bool_iff. destruct Hm3 as [Hm3|Hm3]; rewrite Hm3 in *; split; lra.
    + intros Hpos. split; [destruct Hm3 as [Hm3|Hm3]; rewrite Hm3; lra|].
      assert (0 <= Qfloor (elapsed / IMAGE_DISPLAY_DURATION_MS)) as Hfloor.
      { apply Qfloor_ge, Htenths. change (inject_Z 0) with 0%Q. lra. }
      split; [lia|]. split.
      * split.
        -- intros Hzero.
           assert (Qfloor (elapsed / IMAGE_DISPLAY_DURATION_MS) < 1) as Hlt by lia.
           apply Qnot_le_lt. intros Hle. apply Z.lt_nge in Hlt. apply Hlt.
           apply Qfloor_ge, Htenths. change (inject_Z 1) with 1%Q. lra.
        -- intros Hlt.
           assert (~ 1 <= Qfloor (elapsed / IMAGE_DISPLAY_DURATION_MS)) as Hno.
           { intros Hge. apply Qfloor_ge, Htenths in Hge.
             change (inject_Z 1) with 1%Q in Hge. lra. }
           lia.
      * split.
        -- intros Htwo.
           assert (2 <= Qfloor (elapsed / IMAGE_DISPLAY_DURATION_MS)) as Hge by lia.
           apply Qfloor_ge, Htenths in Hge. change (inject_Z 2) with 2%Q in Hge. lra.
        -- intros Hge.
           assert (2 <= Qfloor (elapsed / IMAGE_DISPLAY_DURATION_MS)) as Hfl.
           { apply Qfloor_ge, Htenths. change (inject_Z 2) with 2%Q. lra. }
           lia.
  - intros earlier later tick1 tick2 Hle H1 H2.
    destruct (status ref); try discriminate.
    apply (inj Some) in H1, H2. rewrite <- H1, <- H2. clear H1 H2 tick1 tick2.
    cbn [remaining imageIndex].
    split.
    + apply Z.min_le_compat_l, Qfloor_resp_le.
      unfold IMAGE_DISPLAY_DURATION_MS, Qdiv. change (/ 10000)%Q with (1 # 10000)%Q.
      lra.
    + unfold ASSESSMENT_DURATION_MS.
      destruct (max_spec 0 (30000 - (earlier - startTimestamp)))
        as (Ha1 & Ha2 & Ha3).
      destruct (max_spec 0 (30000 - (later - startTimestamp)))
        as (Hb1 & Hb2 & Hb3).
      destruct Hb3 as [Hb3|Hb3]; rewrite Hb3; lra.
Qed.

(** X14. [finalizeAssessment] acts only on a running capture: for any other
    status it changes nothing and produces nothing.  A running capture becomes
    complete with its samples kept, and produces either the error message or
    the CSV; finalising again afterwards has no further effect, so a capture
    yields at most one CSV. *)
Theorem X14_finalize_once (sqrt : Q -> Q) (hypot : Q -> Q -> Q)
    (parseFloat : string -> option Q) (toString : Q -> string)
    (ref : AssessmentRef) (age : string) (gender : option string) :
  let finalize :=
    fun r => finalizeAssessment sqrt hypot parseFloat toString r age gender in
  (status ref <> running -> finalize ref = (ref, NoEffect))
  /\ (status ref = running ->
        status (fst (finalize ref)) = complete
        /\ samples (fst (finalize ref)) = samples ref
        /\ snd (finalize ref) <> NoEffect)
  /\ finalize (fst (finalize ref)) = (fst (finalize ref), NoEffect)
  /\ RawExport.finalizeAssessment toString
       (fst (RawExport.finalizeAssessment toString ref))
     = (fst (RawExport.finalizeAssessment toString ref), NoEffect).
Proof.
  intros finalize. subst finalize. cbv beta.
  unfold finalizeAssessment, RawExport.finalizeAssessment.
  destruct (status ref) eqn:Hstatus.
  - cbn [fst snd]. rewrite ?Hstatus. repeat split; congruence.
  - destruct (computeAggregatedFeatures _ _ _ _ _ _);
      cbn [fst snd status samples]; repeat split; congruence.
  - cbn [fst snd]. rewrite ?Hstatus. repeat split; congruence.
Qed.

(** ** The sampling tick *)

Lemma Qfloor_half (z : Z) : Qfloor (inject_Z z + (1 # 2)) = z.
Proof.
  assert (z <= Qfloor (inject_Z z + (1 # 2))) as Hlow.
  { apply Qfloor_ge. lra. }
  assert (Qfloor (inject_Z z + (1 # 2)) < z + 1) as Hhigh.
  { apply Qfloor_lt. rewrite inject_Z_plus. change (inject_Z 1) with 1%Q. lra. }
  lia.
Qed.

Lemma toFixedUnits_units (u digits : Z) : 0 <= digits ->
  Num.toFixedUnits (inject_Z u / inject_Z (10 ^ digits)) digits = u.
Proof.
  intros Hdigits. unfold Num.toFixedUnits.
  set (p := 10 ^ digits).
  assert (0 < p) as Hp by (apply Z.pow_pos_nonneg; lia).
  assert (0 < inject_Z p)%Q as Hq
    by (change 0%Q with (inject_Z 0); now rewrite <- Zlt_Qlt).
  assert (Qabs (inject_Z u / inject_Z p) * inject_Z p + (1 # 2)
          == inject_Z (Z.abs u) + (1 # 2))%Q as Habs.
  { unfold Qdiv. rewrite Qabs_Qmult.
    rewrite (Qabs_pos (/ inject_Z p))
      by (apply Qlt_le_weak, Qinv_lt_0_compat, Hq).
    change (Qabs (inject_Z u)) with (inject_Z (Z.abs u)).
    field. lra. }
  assert (Qfloor (Qabs (inject_Z u / inject_Z p) * inject_Z p + (1 # 2))
          = Z.abs u) as Hfloor by (now rewrite Habs, Qfloor_half).
  cbv zeta. rewrite Hfloor.
  destruct (Qle_bool 0 (inject_Z u / inject_Z p)) eqn:Hsign.
  - apply Qle_bool_iff in Hsign.
    destruct (Z.lt_ge_cases u 0) as [Hneg|Hpos]; [|lia].
    exfalso. rewrite Zlt_Qlt in Hneg. change (inject_Z 0) with 0%Q in Hneg.
    assert (inject_Z u / inject_Z p < 0)%Q; [|lra].
    apply Qlt_shift_div_r; [assumption|lra].
  - apply Qle_bool_false in Hsign.
    destruct (Z.lt_ge_cases u 0) as [Hneg|Hpos]; [lia|].
    exfalso. rewrite Zle_Qle in Hpos. change (inject_Z 0) with 0%Q in Hpos.
    assert (0 <= inject_Z u / inject_Z p)%Q; [|lra].
    apply Qle_shift_div_l; [assumption|lra].
Qed.

(** A number that already has [digits] decimals is left as it is. *)
Lemma toFixed_fixed (x : Q) (u digits : Z) : 0 <= digits ->
  (x == inject_Z u / inject_Z (10 ^ digits))%Q ->
  (Num.toFixed x digits == x)%Q.
Proof.
  intros Hdigits Hx.
  assert (Num.toFixed (inject_Z u / inject_Z (10 ^ digits)) digits
          = (inject_Z u / inject_Z (10 ^ digits))%Q) as Hfixed.
  { unfold Num.toFixed. now rewrite toFixedUnits_units. }
  apply Qle_antisym.
  - apply Qle_trans
      with (Num.toFixed (inject_Z u / inject_Z (10 ^ digits)) digits).
    + apply toFixed_mono. lra.
    + rewrite Hfixed. lra.
  - apply Qle_trans
      with (Num.toFixed (inject_Z u / inject_Z (10 ^ digits)) digits).
    + rewrite Hfixed. lra.
    + apply toFixed_mono. lra.
Qed.

Lemma toFixed_idempotent (x : Q) (digits : Z) : 0 <= digits ->
  (Num.toFixed (Num.toFixed x digits) digits == Num.toFixed x digits)%Q.
Proof.
  intros Hdigits.
  apply (toFixed_fixed _ (Num.toFixedUnits x digits) digits Hdigits).
  reflexivity.
Qed.

Lemma toFixed_integer (x : Q) (z : Z) :
  (x == inject_Z z)%Q -> (Num.toFixed x 0 == inject_Z z)%Q.
Proof.
  intros Hx. apply Qeq_trans with x; [|assumption].
  apply (toFixed_fixed x z 0); [lia|].
  rewrite Hx. change (inject_Z (10 ^ 0)) with 1%Q. field.
Qed.

Lemma pupilDiameterMmOf_fixed (geometry : option IrisGeometry) (scale : Q) :
  (Num.toFixed (Sampler.pupilDiameterMmOf geometry scale) 2
   == Sampler.pupilDiameterMmOf geometry scale)%Q.
Proof.
  unfold Sampler.pupilDiameterMmOf.
  destruct geometry as [g|]; [|vm_compute; reflexivity].
  destruct (Qeq_bool scale 0); [vm_compute; reflexivity|].
  apply toFixed_idempotent. lia.
Qed.

Lemma publishedTrackingRatio_fixed (internal : Internal) :
  (Num.toFixed (publishedTrackingRatio internal) 2
   == publishedTrackingRatio internal)%Q.
Proof.
  unfold publishedTrackingRatio, trackingRatioOf.
  destruct (0 <? _); [|vm_compute; reflexivity].
  apply toFixed_idempotent. lia.
Qed.

Lemma pointOfRegardOf_range (model : CalibrationModel) (centre : option Point2D)
    (width height : Q) (w h : Z) :
  (width == inject_Z w)%Q -> (height == inject_Z h)%Q -> 0 <= w -> 0 <= h ->
  let point :=
    Sampler.pointOfRegardOf (applyCalibration (Some model) centre) width height in
  (0 <= px point)%Q /\ (px point <= inject_Z w)%Q
  /\ (0 <= py point)%Q /\ (py point <= inject_Z h)%Q.
Proof.
  intros Hwidth Hheight Hw Hh point. subst point.
  rewrite Zle_Qle in Hw, Hh. change (inject_Z 0) with 0%Q in Hw, Hh.
  destruct centre as [c|]; cbn [applyCalibration Sampler.pointOfRegardOf px py];
    [|repeat split; lra].
  assert (forall value size (s : Z), (size == inject_Z s)%Q -> (0 <= inject_Z s)%Q ->
            (0 <= Num.toFixed (clamp value 0 1 * size) 0)%Q
            /\ (Num.toFixed (clamp value 0 1 * size) 0 <= inject_Z s)%Q) as Hbound.
  { intros value size s Hsize Hs.
    destruct (clamp_range value 0 1) as [Hlow Hhigh]; [lra|].
    set (v := clamp value 0 1) in *. clearbody v.
    assert (0 <= v * size)%Q as Hpos.
    { apply Qmult_le_0_compat; [assumption|rewrite Hsize; assumption]. }
    assert (v * size <= size)%Q as Hle.
    { rewrite <- (Qmult_1_l size) at 2.
      apply Qmult_le_compat_r; [assumption|rewrite Hsize; assumption]. }
    split.
    - apply Qle_trans with (Num.toFixed 0 0);
        [vm_compute; discriminate|now apply toFixed_mono].
    - rewrite <- (toFixed_integer size s Hsize). apply toFixed_mono, Hle. }
  destruct (Hbound (scaleX model * px c + offsetX model)%Q width w Hwidth Hw).
  destruct (Hbound (scaleY model * py c + offsetY model)%Q height h Hheight Hh).
  tauto.
Qed.

Lemma classifyMovement_at_rest (openness : Q) :
  classifyMovement 0 openness BLINK_THRESHOLD FIXATION_VELOCITY_THRESHOLD
    <> Saccade.
Proof.
  unfold classifyMovement. destruct (Num.ltb openness BLINK_THRESHOLD);
    [discriminate|].
  change (Num.ltb 0 FIXATION_VELOCITY_THRESHOLD) with true. discriminate.
Qed.

(** X15. One sampling tick of [onResults].  Within 100 ms of the last tick
    nothing changes.  Otherwise metrics are published, and a sample is stored
    only while a capture is running: exactly one, appended to the buffer.  The
    stored sample agrees with the published metrics in the categories, the
    pupil diameters, the points of regard and the tracking ratio (rounding the
    already rounded values again changes nothing); its recording time is at
    most 30 000 ms, and not negative when the clock has not gone back behind
    the start of the capture; an eye that had no iris centre in the previous
    tick is never classified as a saccade; and for an image of whole-number
    size the points of regard lie inside the image. *)
Theorem X15_sampling_tick (hypot : Q -> Q -> Q) (face : Sampler.FaceData)
    (models : Calibration.Models) (internal : Internal) (startTimestamp : Q)
    (state : Sampler.State) (ref : AssessmentRef) :
  let result := Sampler.tick hypot face models internal startTimestamp state ref in
  let gate := Num.gtb (Sampler.now face - Sampler.lastUpdate state) 100 in
  (gate = false -> result = (state, None, ref))
  /\ (status ref <> running -> snd result = ref)
  /\ (gate = true -> status ref = running ->
      exists metrics sample,
        snd (fst result) = Some metrics
        /\ Sampler.lastUpdate (fst (fst result)) = Sampler.now face
        /\ status (snd result) = running
        /\ samples (snd result) = (samples ref ++ [sample])%list
        /\ (recordingTimeMs sample <= 30000)%Q
        /\ ((startTimestamp <= Sampler.pushNow face)%Q ->
            (0 <= recordingTimeMs sample)%Q)
        /\ categoryRight sample = categoryRight metrics
        /\ categoryLeft sample = categoryLeft metrics
        /\ (pupilDiameterRightMm sample == pupilDiameterRightMm metrics)%Q
        /\ (pupilDiameterLeftMm sample == pupilDiameterLeftMm metrics)%Q
        /\ (trackingRatio sample == trackingRatio metrics)%Q
        /\ pointOfRegardRightX sample = pointOfRegardRightX metrics
        /\ pointOfRegardRightY sample = pointOfRegardRightY metrics
        /\ pointOfRegardLeftX sample = pointOfRegardLeftX metrics
        /\ pointOfRegardLeftY sample = pointOfRegardLeftY metrics
        /\ (Sampler.prevRightCenter state = None -> categoryRight sample <> Saccade)
        /\ (Sampler.prevLeftCenter state = None -> categoryLeft sample <> Saccade)
        /\ (forall w h : Z,
              (Sampler.imageWidth face == inject_Z w)%Q ->
              (Sampler.imageHeight face == inject_Z h)%Q ->
              0 <= w -> 0 <= h ->
              Forall (fun v => 0 <= v /\ v <= inject_Z w)%Q
                     [pointOfRegardRightX sample; pointOfRegardLeftX sample]
              /\ Forall (fun v => 0 <= v /\ v <= inject_Z h)%Q
                        [pointOfRegardRightY sample; pointOfRegardLeftY sample])).
Proof.
  intros result gate. subst result gate. unfold Sampler.tick.
  destruct (Num.gtb (Sampler.now face - Sampler.lastUpdate state) 100).
  - split; [discriminate|]. split.
    + intros Hstatus. cbn [snd]. destruct (status ref); congruence.
    + intros _ Hstatus. rewrite Hstatus. cbv zeta. cbn [fst snd].
      eexists. eexists. split; [reflexivity|].
      cbn [Sampler.lastUpdate status samples].
      split; [reflexivity|]. split; [reflexivity|]. split; [reflexivity|].
      cbn [recordingTimeMs categoryRight categoryLeft pupilDiameterRightMm
           pupilDiameterLeftMm trackingRatio pointOfRegardRightX
           pointOfRegardRightY pointOfRegardLeftX pointOfRegardLeftY].
      split.
      { destruct (min_spec ASSESSMENT_DURATION_MS
                    (Sampler.pushNow face - startTimestamp)) as (Hle & _ & _).
        apply Qle_trans with (Num.toFixed 30000 2);
          [apply toFixed_mono, Hle|vm_compute; discriminate]. }
      split.
      { intros Hclock.
        destruct (min_spec ASSESSMENT_DURATION_MS
                    (Sampler.pushNow face - startTimestamp)) as (_ & _ & Hmin).
        apply Qle_trans with (Num.toFixed 0 2); [vm_compute; discriminate|].
        apply toFixed_mono.
        destruct Hmin as [Hmin|Hmin]; rewrite Hmin;
          unfold ASSESSMENT_DURATION_MS; lra. }
      split; [reflexivity|]. split; [reflexivity|].
      split; [apply pupilDiameterMmOf_fixed|].
      split; [apply pupilDiameterMmOf_fixed|].
      split; [apply publishedTrackingRatio_fixed|].
      do 4 (split; [reflexivity|]).
      split; [intros ->; apply classifyMovement_at_rest|].
      split; [intros ->; apply classifyMovement_at_rest|].
      intros w h Hwidth Hheight Hw Hh.
      pose proof (pointOfRegardOf_range (Calibration.rightModel models)
                    (option_map xyOfPoint3D (Sampler.rightIrisCenter face))
                    _ _ w h Hwidth Hheight Hw Hh) as Hright.
      pose proof (pointOfRegardOf_range (Calibration.leftModel models)
                    (option_map xyOfPoint3D (Sampler.leftIrisCenter face))
                    _ _ w h Hwidth Hheight Hw Hh) as Hleft.
      cbv zeta in Hright, Hleft.
      split; repeat (apply Forall_cons; split; [tauto|]); apply Forall_nil; exact I.
  - split; [reflexivity|]. split; [reflexivity|]. discriminate.
Qed.

(** ** Durations and rates of the feature vector *)

Lemma minOf_spec (rest : list Q) : forall first,
  In (minOf first rest) (first :: rest)
  /\ Forall (fun v => minOf first rest <= v)%Q (first :: rest).
Proof.
  unfold minOf. induction rest as [|x rest IH]; intros first.
  - split; [now left|]. apply Forall_cons.
    split; [cbn [fold_left]; lra|apply Forall_nil; exact I].
  - cbn [fold_left]. destruct (IH (Num.min first x)) as [Hin Hall].
    apply Forall_cons in Hall. destruct Hall as [Hhead Hall].
    destruct (min_spec first x) as (H1 & H2 & H3).
    split.
    + destruct Hin as [Hin|Hin]; [|right; now right].
      rewrite <- Hin. destruct H3 as [-> | ->]; [now left|right; now left].
    + cbv beta in Hhead.
      repeat (apply Forall_cons; split); try assumption; cbv beta; lra.
Qed.

Lemma maxOf_spec (rest : list Q) : forall first,
  In (maxOf first rest) (first :: rest)
  /\ Forall (fun v => v <= maxOf first rest)%Q (first :: rest).
Proof.
  unfold maxOf. induction rest as [|x rest IH]; intros first.
  - split; [now left|]. apply Forall_cons.
    split; [cbn [fold_left]; lra|apply Forall_nil; exact I].
  - cbn [fold_left]. destruct (IH (Num.max first x)) as [Hin Hall].
    apply Forall_cons in Hall. destruct Hall as [Hhead Hall].
    destruct (max_spec first x) as (H1 & H2 & H3).
    split.
    + destruct Hin as [Hin|Hin]; [|right; now right].
      rewrite <- Hin. destruct H3 as [-> | ->]; [now left|right; now left].
    + cbv beta in Hhead.
      repeat (apply Forall_cons; split); try assumption; cbv beta; lra.
Qed.

Lemma sumCounts_slots (slots : list Z) : length slots = 4%nat ->
  sumCounts slots
  = countAt slots 0 + countAt slots 1 + countAt slots 2 + countAt slots 3.
Proof.
  destruct slots as [|a [|b [|c [|d [|e slots]]]]]; try discriminate.
  intros _. unfold sumCounts, countAt. simpl. lia.
Qed.

Lemma countSegments_totals (samples : list GazeSample) :
  sumCounts (blinkCounts (countSegments samples))
    = Spec.categoryTotal Blink samples
  /\ sumCounts (fixCounts (countSegments samples))
    = Spec.categoryTotal Fixation samples
  /\ sumCounts (sacCounts (countSegments samples))
    = Spec.categoryTotal Saccade samples.
Proof.
  unfold countSegments.
  destruct (countLoopFrom_tally (segmentSizeOf (lengthZ samples)) samples 0
              zeroCounts) as (Hb & Hf & Hs).
  rewrite Hb, Hf, Hs. simpl blinkCounts. simpl fixCounts. simpl sacCounts.
  unfold Spec.categoryTotal.
  destruct (countSegments_slots (eitherEye Blink) samples) as (Lb & Tb & _).
  destruct (countSegments_slots (eitherEye Fixation) samples) as (Lf & Tf & _).
  destruct (countSegments_slots (eitherEye Saccade) samples) as (Ls & Ts & _).
  rewrite !sumCounts_slots by assumption. auto.
Qed.

Lemma perSecond_positive (seconds : Q) : (0 < seconds)%Q ->
  Num.gtb seconds 0 = true.
Proof. intros Hpos. now apply ltb_lt. Qed.

(** X16. For a window that is not empty the feature vector reports the number
    of samples, the earliest and the latest recording time (both are times of
    samples of the window and every sample lies between them) and their
    difference as the trial duration in milliseconds.  The duration in
    seconds is always positive: the difference divided by 1000 when the
    window spans some time, and 1 when all samples carry the same time.  The
    sampling rate and the blink, fixation and saccade rates are the number of
    samples, and the numbers of samples in which either eye shows the
    category, divided by that duration. *)
Theorem X16_duration_and_rates (sqrt : Q -> Q) (hypot : Q -> Q -> Q)
    (parseFloat : string -> option Q) (sample : GazeSample)
    (rest : list GazeSample) (age : string) (gender : option string) :
  let samples := sample :: rest in
  exists features earliest latest seconds,
    computeAggregatedFeatures sqrt hypot parseFloat samples age gender
      = Some features
    /\ getProperty features "Recording_1" = JNum (inject_Z (lengthZ samples))
    /\ getProperty features "Recording_2" = JNum earliest
    /\ getProperty features "Recording_3" = JNum latest
    /\ In earliest (map recordingTimeMs samples)
    /\ In latest (map recordingTimeMs samples)
    /\ Forall (fun entry => earliest <= recordingTimeMs entry
                            /\ recordingTimeMs entry <= latest)%Q samples
    /\ getProperty features "trial_dur_1" = JNum (latest - earliest)
    /\ getProperty features "trial_dur_2" = JNum seconds
    /\ (0 < seconds)%Q
    /\ ((earliest < latest)%Q -> (seconds == (latest - earliest) / 1000)%Q)
    /\ ((earliest == latest)%Q -> (seconds == 1)%Q)
    /\ Forall
         (fun '(key, amount) =>
            getProperty features key = JNum (inject_Z amount / seconds)%Q)
         [ ("sampling_rate_1", lengthZ samples);
           ("blink_rate_1", Spec.categoryTotal Blink samples);
           ("fixation_rate_1", Spec.categoryTotal Fixation samples);
           ("saccade_rate_1", Spec.categoryTotal Saccade samples) ].
Proof.
  intros samples.
  destruct (minOf_spec (map recordingTimeMs rest) (recordingTimeMs sample))
    as [Hmin_in Hmin].
  destruct (maxOf_spec (map recordingTimeMs rest) (recordingTimeMs sample))
    as [Hmax_in Hmax].
  destruct (countSegments_totals samples) as (Hblink & Hfix & Hsac).
  set (earliest := minOf (recordingTimeMs sample) (map recordingTimeMs rest)) in *.
  set (latest := maxOf (recordingTimeMs sample) (map recordingTimeMs rest)) in *.
  set (seconds :=
         if Num.gtb (latest - earliest) 0 then ((latest - earliest) / 1000)%Q
         else 1%Q).
  assert (earliest <= latest)%Q as Horder.
  { apply Forall_cons in Hmin, Hmax. destruct Hmin as [Hmin _], Hmax as [Hmax _].
    cbv beta in Hmin, Hmax. lra. }
  assert (0 < seconds)%Q as Hpos.
  { subst seconds. destruct (Num.gtb (latest - earliest) 0) eqn:Hgt; [|lra].
    apply ltb_lt in Hgt. unfold Qdiv. change (/ 1000)%Q with (1 # 1000)%Q. lra. }
  unfold computeAggregatedFeatures.
  replace (lengthZ (sample :: rest) =? 0) with false
    by (unfold lengthZ; simpl; reflexivity).
  fold samples. cbv zeta.
  eexists. exists earliest, latest, seconds.
  split; [reflexivity|].
  split.
  { change (getProperty _ "Recording_1")
      with (JNum (inject_Z (lengthZ (map recordingTimeMs samples)))).
    unfold lengthZ. now rewrite length_map. }
  split; [reflexivity|]. split; [reflexivity|].
  split; [exact Hmin_in|]. split; [exact Hmax_in|].
  split.
  { apply Forall_forall. intros entry Hentry.
    assert (In (recordingTimeMs entry) (map recordingTimeMs samples)) as Hin.
    { apply in_map, list_elem_of_In, Hentry. }
    change (map recordingTimeMs samples)
      with (recordingTimeMs sample :: map recordingTimeMs rest) in Hin.
    apply list_elem_of_In in Hin.
    rewrite Forall_forall in Hmin, Hmax.
    split; [apply (Hmin _ Hin)|apply (Hmax _ Hin)]. }
  split; [reflexivity|]. split; [reflexivity|]. split; [exact Hpos|].
  split.
  { intros Hlt. subst seconds.
    replace (Num.gtb (latest - earliest) 0) with true; [reflexivity|].
    symmetry. apply ltb_lt. lra. }
  split.
  { intros Heq. subst seconds.
    destruct (Num.gtb (latest - earliest) 0) eqn:Hgt; [|reflexivity].
    apply ltb_lt in Hgt. lra. }
  pose proof (perSecond_positive seconds Hpos) as Hgt.
  apply Forall_cons. split.
  { change (getProperty _ "sampling_rate_1")
      with (JNum (if Num.gtb seconds 0
                  then inject_Z (lengthZ samples) / seconds else 0)%Q).
    now rewrite Hgt. }
  apply Forall_cons. split.
  { change (getProperty _ "blink_rate_1")
      with (JNum (if Num.gtb seconds 0
                  then inject_Z (sumCounts (blinkCounts (countSegments samples)))
                       / seconds
                  else 0)%Q).
    now rewrite Hgt, Hblink. }
  apply Forall_cons. split.
  { change (getProperty _ "fixation_rate_1")
      with (JNum (if Num.gtb seconds 0
                  then inject_Z (sumCounts (fixCounts (countSegments samples)))
                       / seconds
                  else 0)%Q).
    now rewrite Hgt, Hfix. }
  apply Forall_cons. split.
  { change (getProperty _ "saccade_rate_1")
      with (JNum (if Num.gtb seconds 0
                  then inject_Z (sumCounts (sacCounts (countSegments samples)))
                       / seconds
                  else 0)%Q).
    now rewrite Hgt, Hsac. }
  apply Forall_nil. exact I.
Qed.

(** ** The loop over consecutive samples *)

Lemma positivePairs_cons (prev curr : GazeSample) (rest : list GazeSample) :
  More.positivePairs (prev :: curr :: rest)
  = if Num.gtb (Spec.interval (prev, curr)) 0
    then (prev, curr) :: More.positivePairs (curr :: rest)
    else More.positivePairs (curr :: rest).
Proof. reflexivity. Qed.

Lemma pairLoopFrom_arrays hypot rest : forall prev arrays,
  let result := pairLoopFrom hypot prev rest arrays in
  let pairs := More.positivePairs (prev :: rest) in
  let saccades := List.filter More.isSaccadePair pairs in
  gazeHorizontalRight result
    = (gazeHorizontalRight arrays
       ++ map (fun pair => More.dxRight pair / Spec.interval pair)%Q pairs)%list
  /\ gazeVerticalRight result
    = (gazeVerticalRight arrays
       ++ map (fun pair => More.dyRight pair / Spec.interval pair)%Q pairs)%list
  /\ gazeVelocitiesRight result
    = (gazeVelocitiesRight arrays ++ map (More.velocityRight hypot) pairs)%list
  /\ gazeHorizontalLeft result
    = (gazeHorizontalLeft arrays
       ++ map (fun pair => More.dxLeft pair / Spec.interval pair)%Q pairs)%list
  /\ gazeVerticalLeft result
    = (gazeVerticalLeft arrays
       ++ map (fun pair => More.dyLeft pair / Spec.interval pair)%Q pairs)%list
  /\ gazeVelocitiesLeft result
    = (gazeVelocitiesLeft arrays ++ map (More.velocityLeft hypot) pairs)%list
  /\ saccadeAmplitudes result
    = (saccadeAmplitudes arrays ++ map (More.amplitude hypot) saccades)%list
  /\ saccadePeakVelocities result
    = (saccadePeakVelocities arrays
       ++ map (fun pair => Num.max (More.velocityRight hypot pair)
                                   (More.velocityLeft hypot pair))
              saccades)%list.
Proof.
  induction rest as [|curr rest IH]; intros prev arrays.
  - cbn. rewrite !app_nil_r. repeat split; reflexivity.
  - cbn zeta. cbn [pairLoopFrom].
    destruct (IH curr (pairBody hypot prev curr arrays))
      as (H1 & H2 & H3 & H4 & H5 & H6 & H7 & H8).
    rewrite H1, H2, H3, H4, H5, H6, H7, H8. clear H1 H2 H3 H4 H5 H6 H7 H8 IH.
    rewrite positivePairs_cons.
    set (pairs := More.positivePairs (curr :: rest)). clearbody pairs.
    unfold pairBody.
    change (Spec.interval (prev, curr))
      with ((recordingTimeMs curr - recordingTimeMs prev) / 1000)%Q.
    destruct (Num.gtb _ 0); [|repeat split; reflexivity].
    cbn [List.filter map].
    change (More.isSaccadePair (prev, curr))
      with (bool_decide (categoryRight curr = Saccade)
            || bool_decide (categoryLeft curr = Saccade)).
    destruct (bool_decide (categoryRight curr = Saccade)
              || bool_decide (categoryLeft curr = Saccade));
      cbn [gazeHorizontalRight gazeVerticalRight gazeVelocitiesRight
           gazeHorizontalLeft gazeVerticalLeft gazeVelocitiesLeft
           saccadeAmplitudes saccadePeakVelocities map];
      unfold push; rewrite <- ?app_assoc; repeat split; reflexivity.
Qed.

Lemma positivePairs_positive (samples : list GazeSample) :
  Forall (fun pair => 0 < Spec.interval pair)%Q (More.positivePairs samples).
Proof.
  unfold More.positivePairs. generalize (Spec.consecutive samples).
  intros pairs. induction pairs as [|pair pairs IH]; [apply Forall_nil; exact I|].
  cbn [List.filter]. destruct (Num.gtb (Spec.interval pair) 0) eqn:Hgt;
    [|assumption].
  apply Forall_cons. split; [now apply ltb_lt|assumption].
Qed.

Lemma positivePairs_length (samples : list GazeSample) :
  lengthZ (More.positivePairs samples) <= Z.max 0 (lengthZ samples - 1).
Proof.
  unfold More.positivePairs, lengthZ.
  pose proof (filter_length_le
                (fun pair => Num.gtb (Spec.interval pair) 0)
                (Spec.consecutive samples)) as Hle.
  destruct samples as [|first rest]; [simpl in *; lia|].
  assert (length (Spec.consecutive (first :: rest)) = length rest) as Hlen.
  { unfold Spec.consecutive. rewrite length_combine. cbn [length]. lia. }
  rewrite Hlen in Hle. cbn [length]. lia.
Qed.

Lemma Forall_filter_keeps {A} (P : A -> Prop) (f : A -> bool) (l : list A) :
  Forall P l -> Forall P (List.filter f l).
Proof.
  induction 1 as [|x l Hx Hl IH]; [apply Forall_nil; exact I|].
  cbn [List.filter]. destruct (f x); [|assumption].
  apply Forall_cons. split; assumption.
Qed.

Lemma quotient_nonneg (a b : Q) : (0 <= a)%Q -> (0 < b)%Q -> (0 <= a / b)%Q.
Proof. intros Ha Hb. apply Qle_shift_div_l; [assumption|lra]. Qed.

(** X17. The loop over consecutive samples looks only at the pairs whose
    recording time increases, so each of its divisions is by a positive time.
    For every such pair, in order, it stores the horizontal and the vertical
    speed and the gaze speed of each eye; for the pairs that end in a saccade
    of either eye it also stores the amplitude and the larger of the two gaze
    speeds.  There are at most [n - 1] entries for [n] samples, and with a
    [Math.hypot] that is never negative no stored gaze speed, amplitude or
    peak speed is negative. *)
Theorem X17_pair_arrays (hypot : Q -> Q -> Q) (samples : list GazeSample) :
  let arrays := pairLoop hypot samples in
  let pairs := More.positivePairs samples in
  let saccades := List.filter More.isSaccadePair pairs in
  Forall (fun pair => 0 < Spec.interval pair)%Q pairs
  /\ lengthZ pairs <= Z.max 0 (lengthZ samples - 1)
  /\ gazeHorizontalRight arrays
     = map (fun pair => More.dxRight pair / Spec.interval pair)%Q pairs
  /\ gazeVerticalRight arrays
     = map (fun pair => More.dyRight pair / Spec.interval pair)%Q pairs
  /\ gazeVelocitiesRight arrays = map (More.velocityRight hypot) pairs
  /\ gazeHorizontalLeft arrays
     = map (fun pair => More.dxLeft pair / Spec.interval pair)%Q pairs
  /\ gazeVerticalLeft arrays
     = map (fun pair => More.dyLeft pair / Spec.interval pair)%Q pairs
  /\ gazeVelocitiesLeft arrays = map (More.velocityLeft hypot) pairs
  /\ saccadeAmplitudes arrays = map (More.amplitude hypot) saccades
  /\ saccadePeakVelocities arrays
     = map (fun pair => Num.max (More.velocityRight hypot pair)
                                (More.velocityLeft hypot pair))
           saccades
  /\ ((forall a b, 0 <= hypot a b)%Q ->
      Forall (Forall (fun v => 0 <= v)%Q)
             [ gazeVelocitiesRight arrays; gazeVelocitiesLeft arrays;
               saccadeAmplitudes arrays; saccadePeakVelocities arrays ]).
Proof.
  intros arrays pairs saccades.
  pose proof (positivePairs_positive samples) as Hpositive. fold pairs in Hpositive.
  assert (gazeHorizontalRight arrays
          = map (fun pair => More.dxRight pair / Spec.interval pair)%Q pairs
          /\ gazeVerticalRight arrays
          = map (fun pair => More.dyRight pair / Spec.interval pair)%Q pairs
          /\ gazeVelocitiesRight arrays = map (More.velocityRight hypot) pairs
          /\ gazeHorizontalLeft arrays
          = map (fun pair => More.dxLeft pair / Spec.interval pair)%Q pairs
          /\ gazeVerticalLeft arrays
          = map (fun pair => More.dyLeft pair / Spec.interval pair)%Q pairs
          /\ gazeVelocitiesLeft arrays = map (More.velocityLeft hypot) pairs
          /\ saccadeAmplitudes arrays = map (More.amplitude hypot) saccades
          /\ saccadePeakVelocities arrays
             = map (fun pair => Num.max (More.velocityRight hypot pair)
                                        (More.velocityLeft hypot pair))
                   saccades) as Harrays.
  { subst arrays pairs saccades. destruct samples as [|first rest].
    - repeat split; reflexivity.
    - unfold pairLoop. apply (pairLoopFrom_arrays hypot rest first emptyPairArrays). }
  destruct Harrays as (H1 & H2 & H3 & H4 & H5 & H6 & H7 & H8).
  split; [exact Hpositive|]. split; [apply positivePairs_length|].
  do 8 (split; [assumption|]).
  intros Hhypot. rewrite H3, H6, H7, H8.
  assert (Forall (fun pair => 0 < Spec.interval pair)%Q saccades) as Hsaccades
    by (apply Forall_filter_keeps, Hpositive).
  repeat (apply Forall_cons; split); try (apply Forall_nil; exact I);
    apply Forall_map;
    (eapply Forall_impl; [first [exact Hpositive|exact Hsaccades]|]);
    intros pair Hpair; cbv beta;
    unfold More.velocityRight, More.velocityLeft, More.amplitude.
  - now apply quotient_nonneg.
  - now apply quotient_nonneg.
  - apply quotient_nonneg; [apply Hhypot|lra].
  - destruct (max_spec (hypot (More.dxRight pair) (More.dyRight pair)
                        / Spec.interval pair)
                       (hypot (More.dxLeft pair) (More.dyLeft pair)
                        / Spec.interval pair)) as (Hge & _ & _).
    eapply Qle_trans; [|exact Hge]. now apply quotient_nonneg.
Qed.

(** ** The one-minute window of blink times *)

Lemma blinkStep_timestamps averageOpenness dateNow internal :
  let internal' := blinkStep averageOpenness dateNow internal in
  Forall (fun timestamp => dateNow - timestamp <= 60000)
         (blinkTimestamps internal')
  /\ Forall (fun timestamp =>
               In timestamp (blinkTimestamps internal) \/ timestamp = dateNow)
            (blinkTimestamps internal')
  /\ lengthZ (blinkTimestamps internal') - blinkCount internal'
     <= lengthZ (blinkTimestamps internal) - blinkCount internal.
Proof.
  intros internal'. subst internal'. unfold blinkStep.
  set (internal1 := match Num.ltb averageOpenness BLINK_THRESHOLD with
                    | true => _ | false => _ end).
  cbn [blinkTimestamps blinkCount].
  assert (Forall (fun timestamp =>
                    In timestamp (blinkTimestamps internal) \/ timestamp = dateNow)
                 (blinkTimestamps internal1)
          /\ lengthZ (blinkTimestamps internal1) - blinkCount internal1
             <= lengthZ (blinkTimestamps internal) - blinkCount internal)
    as [Hfrom Hlength].
  { assert (Forall (fun timestamp =>
                      In timestamp (blinkTimestamps internal) \/ timestamp = dateNow)
                   (blinkTimestamps internal)) as Hsame.
    { apply Forall_forall. intros timestamp Hin. left.
      now apply list_elem_of_In. }
    subst internal1.
    destruct (Num.ltb averageOpenness BLINK_THRESHOLD),
             (Num.gtb averageOpenness blinkOpenThreshold),
             (blinkState internal);
      cbn [blinkTimestamps blinkCount]; try (split; [exact Hsame|lia]).
    all: split;
      [apply Forall_app; split;
         [exact Hsame|apply Forall_cons; split; [now right|apply Forall_nil; exact I]]
      |unfold lengthZ; rewrite length_app; cbn [length]; lia]. }
  clearbody internal1.
  split; [|split].
  - apply Forall_forall. intros timestamp Hin.
    apply list_elem_of_filter in Hin. tauto.
  - apply Forall_forall. intros timestamp Hin.
    apply list_elem_of_filter in Hin. destruct Hin as [_ Hin].
    rewrite Forall_forall in Hfrom. now apply Hfrom.
  - pose proof (length_filter (fun timestamp => dateNow - timestamp <= 60000)
                  (blinkTimestamps internal1)) as Hle.
    unfold lengthZ in *. lia.
Qed.

Lemma onResults_timestamps frame internal :
  Forall (fun timestamp =>
            In timestamp (blinkTimestamps internal)
            \/ exists leftOpenness rightOpenness,
                 frame = Face leftOpenness rightOpenness timestamp)
         (blinkTimestamps (onResults frame internal))
  /\ lengthZ (blinkTimestamps (onResults frame internal))
       - blinkCount (onResults frame internal)
     <= lengthZ (blinkTimestamps internal) - blinkCount internal.
Proof.
  assert (Forall (fun timestamp =>
                    In timestamp (blinkTimestamps internal)
                    \/ exists leftOpenness rightOpenness,
                         frame = Face leftOpenness rightOpenness timestamp)
                 (blinkTimestamps internal)) as Hsame.
  { apply Forall_forall. intros timestamp Hin. left. now apply list_elem_of_In. }
  destruct frame as [| |leftOpenness rightOpenness dateNow];
    cbn [onResults countFrame blinkTimestamps blinkCount];
    try (split; [exact Hsame|lia]).
  cbv zeta.
  destruct (blinkStep_timestamps ((leftOpenness + rightOpenness) / 2) dateNow
              (countFrame true internal)) as (_ & Hfrom & Hlength).
  split; [|exact Hlength].
  eapply Forall_impl; [exact Hfrom|].
  cbv beta. intros timestamp [Hin| ->]; [now left|right; eauto].
Qed.

Lemma processFrames_timestamps frames : forall internal,
  Forall (fun timestamp =>
            In timestamp (blinkTimestamps internal)
            \/ exists leftOpenness rightOpenness,
                 In (Face leftOpenness rightOpenness timestamp) frames)
         (blinkTimestamps (processFrames frames internal))
  /\ lengthZ (blinkTimestamps (processFrames frames internal))
       - blinkCount (processFrames frames internal)
     <= lengthZ (blinkTimestamps internal) - blinkCount internal.
Proof.
  induction frames as [|frame frames IH]; intros internal.
  - cbn. split; [|lia]. apply Forall_forall. intros timestamp Hin. left.
    now apply list_elem_of_In.
  - change (processFrames (frame :: frames) internal)
      with (processFrames frames (onResults frame internal)).
    destruct (IH (onResults frame internal)) as [Hfrom Hlength].
    destruct (onResults_timestamps frame internal) as [Hstep Hstep_length].
    split; [|lia].
    eapply Forall_impl; [exact Hfrom|]. cbv beta.
    intros timestamp [Hin|(l & r & Hin)].
    + rewrite Forall_forall in Hstep. apply list_elem_of_In, Hstep in Hin.
      destruct Hin as [Hin|(l & r & ->)]; [now left|].
      right. exists l, r. now left.
    + right. exists l, r. now right.
Qed.

(** X19. The list of blink times kept in the internal state is a window of
    one minute: after a frame with a face every retained time lies at most
    60 000 ms before the clock of that frame, and frames without a face leave
    the list untouched.  Over a run from the initial state the list never
    holds more entries than blinks were counted, and each entry is the clock
    of a frame of the run in which a face was seen. *)
Theorem X19_blink_window :
  (forall leftOpenness rightOpenness dateNow internal,
     Forall (fun timestamp => dateNow - timestamp <= 60000)
            (blinkTimestamps
               (onResults (Face leftOpenness rightOpenness dateNow) internal)))
  /\ (forall internal,
        blinkTimestamps (onResults Skipped internal) = blinkTimestamps internal
        /\ blinkTimestamps (onResults NoFace internal) = blinkTimestamps internal)
  /\ (forall frames,
        let final := processFrames frames initialInternal in
        lengthZ (blinkTimestamps final) <= blinkCount final
        /\ Forall (fun timestamp =>
                     exists leftOpenness rightOpenness,
                       In (Face leftOpenness rightOpenness timestamp) frames)
                  (blinkTimestamps final)).
Proof.
  split; [|split].
  - intros leftOpenness rightOpenness dateNow internal. cbn [onResults]. cbv zeta.
    apply blinkStep_timestamps.
  - intros internal. split; reflexivity.
  - intros frames final. subst final.
    destruct (processFrames_timestamps frames initialInternal) as [Hfrom Hlength].
    change (lengthZ (blinkTimestamps initialInternal)
            - blinkCount initialInternal) with 0 in Hlength.
    split; [lia|].
    eapply Forall_impl; [exact Hfrom|]. cbv beta.
    intros timestamp [[]|Hin]. exact Hin.
Qed.

(** ** The per-sample export *)

Lemma csvLines_from (toString : Q -> string) (samples : list GazeSample) :
  forall lines,
  fold_left
    (fun lines sample =>
       (lines
        ++ [join "," (map (formatCsvCell toString) (RawExport.cellsOf sample))])%list)
    samples lines
  = (lines
     ++ map (fun sample =>
               join "," (map (formatCsvCell toString) (RawExport.cellsOf sample)))
            samples)%list.
Proof.
  induction samples as [|sample samples IH]; intros lines; cbn [fold_left map].
  - now rewrite app_nil_r.
  - rewrite IH, <- app_assoc. reflexivity.
Qed.

(** X18. The per-sample export of the earlier revision writes the header line
    and then one line per captured sample, in capture order, each made of
    the eleven cells of the sample; the line for the sample at position [i] is
    line [i + 1].  It reports the number of samples, and unlike the aggregated
    export it also produces a file, of the header alone, for a capture without
    samples. *)
Theorem X18_raw_export (toString : Q -> string) (captured : list GazeSample) :
  let row := fun sample =>
    join "," (map (formatCsvCell toString) (RawExport.cellsOf sample)) in
  RawExport.csvLines toString captured
    = join "," RawExport.CSV_HEADERS :: map row captured
  /\ lengthZ (RawExport.csvLines toString captured) = lengthZ captured + 1
  /\ (forall (i : nat) sample,
        captured !! i = Some sample ->
        RawExport.csvLines toString captured !! S i = Some (row sample))
  /\ Forall (fun sample =>
               length (RawExport.cellsOf sample)
               = length RawExport.CSV_HEADERS) captured
  /\ RawExport.finalizeAssessment toString
       {| status := running; samples := captured |}
     = ({| status := complete; samples := captured |},
        CsvBlob (join (String newline EmptyString)
                      (join "," RawExport.CSV_HEADERS :: map row captured))
                (lengthZ captured))
  /\ snd (RawExport.finalizeAssessment toString
            {| status := running; samples := [] |})
     = CsvBlob (join "," RawExport.CSV_HEADERS) 0.
Proof.
  intros row.
  assert (RawExport.csvLines toString captured
          = join "," RawExport.CSV_HEADERS :: map row captured) as Hlines.
  { unfold RawExport.csvLines. now rewrite csvLines_from. }
  split; [exact Hlines|]. split; [|split; [|split; [|split]]].
  - rewrite Hlines. unfold lengthZ. cbn [length]. rewrite length_map. lia.
  - intros i sample Hi. rewrite Hlines. cbn [lookup list_lookup].
    change (map row captured !! i = Some (row sample)).
    now rewrite list_lookup_fmap, Hi.
  - apply Forall_forall. intros sample _. reflexivity.
  - unfold RawExport.finalizeAssessment. cbn [status samples].
    now rewrite Hlines.
  - reflexivity.
Qed.
